(** * privateagent: conversation memory, lexical RAG store and research engine

    A shallow embedding of

      - [app/core/memory.py]              ([Message], [ConversationMemory]),
      - [app/modules/research/rag.py]     ([RAGStore]),
      - [app/modules/research/engine.py]  ([ResearchEngine]: [ingest_document],
                                           [_chunk_text], [_retrieve_relevant],
                                           [query], [delete_document]),
      - [app/core/agent.py]               ([Agent.process]),
      - [app/security.py]                 ([sanitize_input]),

    together with the properties the specification states about them and
    further properties of the code.

    Modelling conventions.

      - A Python [str] is the list of its code points, [str := list N]; the
        string literals of the code are written as literals.
      - [str.isspace], [str.lower] and [str.upper] follow the Unicode tables
        of the running interpreter.  They are taken as they are, as a
        [Py.Unicode], and every function that splits or folds text takes
        one; the theorems hold for all of them.
      - A Python [int] is a [Z]; slices, [range] and truthiness ([x or y],
        [if x:]) are written out, including what they do on zero and on
        negative numbers.
      - A [dict] whose iteration order is never observed is a [gmap]; the
        score table built by [RAGStore.search], whose order decides ties, is
        an association list in insertion order.
      - The iteration order of a Python [set] depends on the hash seed of the
        process; every function that iterates a set takes that order as a
        [SetOrder], and the theorems hold for all of them.
      - [float] is IEEE binary64, computed with [SpecFloat] (precision 53,
        [emax] 1024).
      - A raised exception is the [Raise] branch of [result]. *)

From Stdlib Require Import ZArith NArith QArith List Bool Lia Sorted.
From Stdlib Require Import Strings.Byte.
From Stdlib Require Import Floats.SpecFloat.
From stdpp Require Import base option list sorting gmap.

(** ** Strings *)

Abbreviation str := (list N).

(** A literal ["abc"] is the list of the code points of its characters, all
    of them ASCII in this file. *)
Inductive literal :=
| literal_nil
| literal_cons (c : N) (s : literal).

Fixpoint literal_of_bytes (bs : list byte) : literal :=
  match bs with
  | [] => literal_nil
  | b :: bs' => literal_cons (N.of_nat (Byte.to_nat b)) (literal_of_bytes bs')
  end.

Fixpoint bytes_of_literal (s : literal) : option (list byte) :=
  match s with
  | literal_nil => Some []
  | literal_cons c s' =>
      match Byte.of_nat (N.to_nat c), bytes_of_literal s' with
      | Some b, Some bs => Some (b :: bs)
      | _, _ => None
      end
  end.

Definition print_literal (s : literal) : option (list byte) :=
  match s with
  | literal_nil => None
  | _ => bytes_of_literal s
  end.

Declare Scope str_scope.
Delimit Scope str_scope with str.
#[warnings="-via-type-mismatch"]
String Notation list literal_of_bytes print_literal
  (via literal mapping [[nil] => literal_nil, [cons] => literal_cons])
  : str_scope.

Local Open Scope str_scope.
Local Open Scope Z_scope.

(** ** Exceptions *)

Inductive exn := ValueError | KeyError.

Inductive result (A : Type) :=
| Ok (a : A)
| Raise (e : exn).
Arguments Ok {A} a.
Arguments Raise {A} e.

#[global] Instance result_ret : MRet result := fun _ a => Ok a.
#[global] Instance result_bind : MBind result := fun _ _ k r =>
  match r with
  | Ok a => k a
  | Raise e => Raise e
  end.

(** ** Python built-ins *)

Module Py.

(** [str.isspace] on one code point, [str.lower] and [str.upper], with the
    two facts about them that the proofs use: U+0020 is white space, and the
    lower case of a text that is all white space is all white space. *)
Record Unicode := {
  isspace : N -> bool;
  lower : str -> str;
  upper : str -> str;
  isspace_space : isspace 32%N = true;
  lower_blank :
    forall s, forallb isspace s = true -> forallb isspace (lower s) = true
}.

Section Str.

Variable U : Unicode.

(** The word being scanned, once a separator or the end is reached. *)
Definition flush (cur : str) : list str :=
  match cur with
  | [] => []
  | _ => [cur]
  end.

Fixpoint split_from (cur : str) (s : str) : list str :=
  match s with
  | [] => flush cur
  | c :: s' =>
      if isspace U c then flush cur ++ split_from [] s'
      else split_from (cur ++ [c]) s'
  end.

(** [s.split()]: maximal runs of non-whitespace, no empty strings. *)
Definition split (s : str) : list str := split_from [] s.

(** A word: non-empty and free of whitespace. *)
Fixpoint no_space (s : str) : bool :=
  match s with
  | [] => true
  | c :: s' => negb (isspace U c) && no_space s'
  end.

Definition word (w : str) : Prop := w <> [] /\ no_space w = true.

End Str.

(** [sep.join(l)] *)
Fixpoint join (sep : str) (l : list str) : str :=
  match l with
  | [] => []
  | x :: l' =>
      match l' with
      | [] => x
      | _ => x ++ sep ++ join sep l'
      end
  end.

(** Truthiness of a string: [if s:] *)
Definition truthy (s : str) : bool :=
  match s with
  | [] => false
  | _ => true
  end.

(** [range(start, stop, step)] as the list it iterates; a zero step raises
    [ValueError].  The length is computed the way CPython does. *)
Definition range_len (start stop step : Z) : nat :=
  if 0 <? step then
    (if start <? stop then Z.to_nat ((stop - start - 1) / step + 1) else 0%nat)
  else
    (if stop <? start then Z.to_nat ((start - stop - 1) / (- step) + 1) else 0%nat).

Definition range (start stop step : Z) : result (list Z) :=
  if step =? 0 then Raise ValueError
  else Ok ((fun k => start + Z.of_nat k * step) <$>
           seq 0 (range_len start stop step)).

(** Clamp a slice bound to [0 .. len], counting a negative bound from the
    end. *)
Definition clamp (len : nat) (i : Z) : nat :=
  if i <? 0 then Z.to_nat (Z.max 0 (Z.of_nat len + i))
  else Nat.min (Z.to_nat i) len.

(** [l[lo:hi]], [l[lo:]] and [l[:hi]] *)
Definition slice {A} (l : list A) (lo hi : Z) : list A :=
  let a := clamp (length l) lo in
  let b := clamp (length l) hi in
  take (b - a) (drop a l).

Definition slice_from {A} (l : list A) (lo : Z) : list A :=
  drop (clamp (length l) lo) l.

Definition slice_to {A} (l : list A) (hi : Z) : list A :=
  take (clamp (length l) hi) l.

End Py.

(** ** Iteration order of a set

    [list(set(xs))]: each element of [xs] once, in an order fixed by the
    process (string hashes are seeded at start-up). *)

Record SetOrder := {
  set_list : list str -> list str;
  set_list_NoDup : forall xs, NoDup (set_list xs);
  set_list_elem : forall xs x, x ∈ set_list xs <-> x ∈ xs
}.

(** ** binary64 *)

Module F64.

Definition prec : Z := 53.
Definition emax : Z := 1024.

Abbreviation float := spec_float.

(** [float(n)] for an [int] *)
Definition of_int (n : Z) : float := binary_normalize prec emax n 0 false.

Definition add : float -> float -> float := SFadd prec emax.
Definition mul : float -> float -> float := SFmul prec emax.

(** The literal [1.3]: 5854679515581645 * 2^-52. *)
Definition lit_1_3 : float := S754_finite false 5854679515581645 (-52).

(** [f > n] for a float and an int; Python compares the two exactly. *)
Definition gt_int (f : float) (n : Z) : bool :=
  match f with
  | S754_zero _ => n <? 0
  | S754_infinity s => negb s
  | S754_nan => false
  | S754_finite s m e =>
      let v := if s then Z.neg m else Z.pos m in
      if 0 <=? e then n <? v * 2 ^ e else n * 2 ^ (- e) <? v
  end.

End F64.

(** ** app/config.py *)

Record Settings := {
  max_conversation_history : Z;
  max_context_tokens : Z
}.

Definition default_settings : Settings :=
  {| max_conversation_history := 20; max_context_tokens := 4096 |}.

(** [x or d] for an optional int, an optional string and an optional dict *)
Definition or_int (x : option Z) (d : Z) : Z :=
  match x with
  | Some v => if v =? 0 then d else v
  | None => d
  end.

Definition or_str (x : option str) (d : str) : str :=
  match x with
  | Some [] | None => d
  | Some v => v
  end.

Definition or_dict (x : option (gmap str str)) : gmap str str :=
  match x with
  | Some d => d
  | None => ∅
  end.

(** ** app/core/memory.py *)

Module Memory.

Section Memory.

(** The interpreter's Unicode, the process-wide [settings], and
    [datetime.isoformat] on timestamps (microseconds since the epoch). *)
Variable U : Py.Unicode.
Variable settings : Settings.
Variable isoformat : Z -> str.

(** What one call draws from its environment: the results of
    [generate_session_id()] and of [datetime.utcnow()], in the order the
    call asks for them. *)
Record Env := {
  tok_session : str;
  now_session : Z;
  tok_message : str;
  now_message : Z;
  now_update : Z
}.

Record Message := {
  role : str;
  content : str;
  message_id : str;
  timestamp : Z;
  metadata : gmap str str
}.

Record MessageDict := {
  d_role : str;
  d_content : str;
  d_message_id : str;
  d_timestamp : str;
  d_metadata : gmap str str
}.

Record SessionInfo := {
  created_at : str;
  message_count : Z;
  last_message_at : option str
}.

Record ConversationMemory := {
  max_history : Z;
  _sessions : gmap str (list Message);
  _metadata : gmap str SessionInfo
}.

(** [Message.__init__] *)
Definition new_message (role content : str) (message_id : option str)
    (metadata : option (gmap str str)) (env : Env) : Message :=
  {| role := role;
     content := content;
     message_id := or_str message_id (take 16 (tok_message env));
     timestamp := now_message env;
     metadata := or_dict metadata |}.

(** [Message.to_dict] *)
Definition to_dict (msg : Message) : MessageDict :=
  {| d_role := role msg;
     d_content := content msg;
     d_message_id := message_id msg;
     d_timestamp := isoformat (timestamp msg);
     d_metadata := metadata msg |}.

(** [ConversationMemory.__init__] *)
Definition __init__ (max_history : option Z) : ConversationMemory :=
  {| max_history := or_int max_history (max_conversation_history settings);
     _sessions := ∅;
     _metadata := ∅ |}.

Definition create_session (m : ConversationMemory) (session_id : option str)
    (env : Env) : str * ConversationMemory :=
  let session_id := or_str session_id (tok_session env) in
  (session_id,
   {| max_history := max_history m;
      _sessions := <[session_id := []]> (_sessions m);
      _metadata := <[session_id := {| created_at := isoformat (now_session env);
                                      message_count := 0;
                                      last_message_at := None |}]> (_metadata m) |}).

Definition add_message (m : ConversationMemory) (session_id role content : str)
    (metadata : option (gmap str str)) (env : Env)
  : str * ConversationMemory :=
  let m1 :=
    match _sessions m !! session_id with
    | None => snd (create_session m (Some session_id) env)
    | Some _ => m
    end in
  let message := new_message role content None metadata env in
  (* [_sessions] is a [defaultdict(list)]: a missing key reads as [[]] *)
  let appended := default [] (_sessions m1 !! session_id) ++ [message] in
  let kept :=
    if max_history m1 <? Z.of_nat (length appended)
    then Py.slice_from appended (- max_history m1)
    else appended in
  let meta :=
    match _metadata m1 !! session_id with
    | Some info =>
        <[session_id := {| created_at := created_at info;
                           message_count := Z.of_nat (length kept);
                           last_message_at := Some (isoformat (now_update env)) |}]>
          (_metadata m1)
    | None => _metadata m1
    end in
  (message_id message,
   {| max_history := max_history m1;
      _sessions := <[session_id := kept]> (_sessions m1);
      _metadata := meta |}).

Definition get_history (m : ConversationMemory) (session_id : str)
    (limit : option Z) : list MessageDict :=
  match _sessions m !! session_id with
  | None => []
  | Some messages =>
      let messages :=
        match limit with
        | Some l => if l =? 0 then messages else Py.slice_from messages (- l)
        | None => messages
        end in
      to_dict <$> messages
  end.

(** The rendered line of one message, and its estimate
    [len(msg_text.split()) * 1.3]. *)
Definition msg_text (msg : MessageDict) : str :=
  Py.upper U (d_role msg) ++ ": " ++ d_content msg.

Definition msg_tokens (msg : MessageDict) : F64.float :=
  F64.mul (F64.of_int (Z.of_nat (length (Py.split U (msg_text msg)))))
    F64.lit_1_3.

(** The loop of [get_context] over [reversed(history)]; stops at the first
    message that does not fit ([break]). *)
Fixpoint context_loop (max_tokens : Z) (rest : list MessageDict)
    (context_parts : list str) (estimated_tokens : F64.float)
  : list str * F64.float :=
  match rest with
  | [] => (context_parts, estimated_tokens)
  | msg :: rest' =>
      if F64.gt_int (F64.add estimated_tokens (msg_tokens msg)) max_tokens
      then (context_parts, estimated_tokens)
      else context_loop max_tokens rest' (msg_text msg :: context_parts)
             (F64.add estimated_tokens (msg_tokens msg))
  end.

Definition nl : str := [10%N].

Definition get_context (m : ConversationMemory) (session_id : str)
    (max_tokens : option Z) : str :=
  let max_tokens := or_int max_tokens (max_context_tokens settings) in
  let history := get_history m session_id None in
  Py.join nl (context_loop max_tokens (reverse history) [] (F64.of_int 0)).1.

Definition clear_session (m : ConversationMemory) (session_id : str)
  : bool * ConversationMemory :=
  match _sessions m !! session_id with
  | Some _ =>
      (true,
       {| max_history := max_history m;
          _sessions := <[session_id := []]> (_sessions m);
          _metadata :=
            match _metadata m !! session_id with
            | Some info =>
                <[session_id := {| created_at := created_at info;
                                   message_count := 0;
                                   last_message_at := last_message_at info |}]>
                  (_metadata m)
            | None => _metadata m
            end |})
  | None => (false, m)
  end.

Definition delete_session (m : ConversationMemory) (session_id : str)
  : bool * ConversationMemory :=
  match _sessions m !! session_id with
  | Some _ =>
      (true,
       {| max_history := max_history m;
          _sessions := delete session_id (_sessions m);
          _metadata := delete session_id (_metadata m) |})
  | None => (false, m)
  end.

End Memory.

End Memory.

(** ** Stable sort, descending

    [sorted(xs, key=key, reverse=True)] and [xs.sort(key=key, reverse=True)]:
    Python's sort is stable also under [reverse=True], so the result is the
    one permutation ordered by non-increasing key in which equal keys keep
    their input order.  Keys are exact fractions here; in the source they are
    the binary64 quotients of the same small integers over one common
    denominator, which compare the same way. *)

#[global] Instance Qlt_decision (x y : Q) : Decision (x < y)%Q :=
  Z_lt_dec (Qnum x * QDen y) (Qnum y * QDen x).

Section SortDesc.

Context {A : Type} (key : A -> Q).

Fixpoint insert_desc (x : A) (l : list A) : list A :=
  match l with
  | [] => [x]
  | y :: l' =>
      if Qle_bool (key y) (key x) then x :: y :: l'
      else y :: insert_desc x l'
  end.

Definition sorted_desc (l : list A) : list A := foldr insert_desc [] l.

End SortDesc.

(** ** app/modules/research/rag.py *)

Module Rag.

Record Chunk := {
  content : str;
  doc_id : str;
  metadata : gmap str str
}.

Record RAGStore := {
  _chunks : gmap str Chunk;
  _index : gmap str (list str)
}.

(** An entry of the list [search] returns:
    [{"chunk_id": .., "score": .., **chunk}]. *)
Record Hit := {
  hit_chunk_id : str;
  hit_score : Q;
  hit_content : str;
  hit_doc_id : str;
  hit_metadata : gmap str str
}.

(** [l.remove(x)] on a list that holds [x]: the first occurrence goes. *)
Fixpoint remove_first (x : str) (l : list str) : list str :=
  match l with
  | [] => []
  | y :: l' => if decide (y = x) then l' else y :: remove_first x l'
  end.

(** The score table of [search], a [dict] in insertion order:
    [d.get(k, 0)] and [d[k] = v]. *)
Fixpoint dict_get (d : list (str * Z)) (k : str) : Z :=
  match d with
  | [] => 0
  | (k', v) :: d' => if decide (k' = k) then v else dict_get d' k
  end.

Fixpoint dict_set (d : list (str * Z)) (k : str) (v : Z)
  : list (str * Z) :=
  match d with
  | [] => [(k, v)]
  | (k', v') :: d' =>
      if decide (k' = k) then (k, v) :: d' else (k', v') :: dict_set d' k v
  end.

Section Rag.

(** The interpreter's Unicode; [hashlib.md5(s.encode()).hexdigest()], on the
    text UTF-8 encodes, which is every text without a lone surrogate; and
    the set order of the process. *)
Variable U : Py.Unicode.
Variable md5_hexdigest : str -> str.
Variable O : SetOrder.

Definition __init__ : RAGStore := {| _chunks := ∅; _index := ∅ |}.

(** [set(content.lower().split())], as iterated *)
Definition words_of (text : str) : list str :=
  set_list O (Py.split U (Py.lower U text)).

(** One round of the indexing loop of [add_chunk]. *)
Definition index_word (chunk_id : str) (index : gmap str (list str))
    (word : str) : gmap str (list str) :=
  let index1 :=
    match index !! word with
    | None => <[word := []]> index
    | Some _ => index
    end in
  let ids := default [] (index1 !! word) in
  if decide (chunk_id ∈ ids) then index1
  else <[word := ids ++ [chunk_id]]> index1.

Definition add_chunk (s : RAGStore) (content doc_id : str)
    (metadata : option (gmap str str)) : str * RAGStore :=
  let chunk_id := take 16 (md5_hexdigest content) in
  let chunks :=
    <[chunk_id := {| content := content;
                     doc_id := doc_id;
                     metadata := or_dict metadata |}]> (_chunks s) in
  (chunk_id,
   {| _chunks := chunks;
      _index := fold_left (index_word chunk_id) (words_of content) (_index s) |}).

(** [chunk_scores[chunk_id] = chunk_scores.get(chunk_id, 0) + 1] *)
Definition bump (chunk_scores : list (str * Z)) (chunk_id : str)
  : list (str * Z) :=
  dict_set chunk_scores chunk_id (dict_get chunk_scores chunk_id + 1).

Definition score_word (s : RAGStore) (chunk_scores : list (str * Z))
    (word : str) : list (str * Z) :=
  match _index s !! word with
  | Some ids => fold_left bump ids chunk_scores
  | None => chunk_scores
  end.

(** [chunk_scores[chunk_id] /= len(query_words)], skipped for an empty
    [query_words] (the table is empty then). *)
Definition normalize (n : nat) (chunk_scores : list (str * Z))
  : list (str * Q) :=
  (fun '(chunk_id, c) =>
     (chunk_id, if decide (n = 0%nat) then inject_Z c
                else Qmake c (Pos.of_nat n))) <$> chunk_scores.

Definition make_hit (s : RAGStore) (entry : str * Q) : result Hit :=
  match _chunks s !! entry.1 with
  | Some chunk =>
      Ok {| hit_chunk_id := entry.1;
            hit_score := entry.2;
            hit_content := content chunk;
            hit_doc_id := doc_id chunk;
            hit_metadata := metadata chunk |}
  | None => Raise KeyError
  end.

Fixpoint collect {A B} (f : A -> result B) (l : list A) : result (list B) :=
  match l with
  | [] => Ok []
  | x :: l' => y ← f x; ys ← collect f l'; Ok (y :: ys)
  end.

Definition search (s : RAGStore) (query : str) (top_k : Z)
  : result (list Hit) :=
  let query_words := words_of query in
  let chunk_scores := fold_left (score_word s) query_words [] in
  let chunk_scores := normalize (length query_words) chunk_scores in
  let sorted_chunks := Py.slice_to (sorted_desc snd chunk_scores) top_k in
  collect (make_hit s) sorted_chunks.

(** One round of the clean-up loop of [delete_by_doc]. *)
Definition unindex_word (chunk_id : str) (index : gmap str (list str))
    (word : str) : gmap str (list str) :=
  match index !! word with
  | Some ids =>
      if decide (chunk_id ∈ ids)
      then <[word := remove_first chunk_id ids]> index
      else index
  | None => index
  end.

(** The body of [for chunk_id in to_delete]; [dict.pop] raises [KeyError] on
    a missing key. *)
Definition delete_chunk (s : RAGStore) (chunk_id : str) : result RAGStore :=
  match _chunks s !! chunk_id with
  | None => Raise KeyError
  | Some chunk =>
      Ok {| _chunks := delete chunk_id (_chunks s);
            _index := fold_left (unindex_word chunk_id)
                        (words_of (content chunk)) (_index s) |}
  end.

Fixpoint delete_chunks (s : RAGStore) (to_delete : list str)
  : result RAGStore :=
  match to_delete with
  | [] => Ok s
  | chunk_id :: rest => s' ← delete_chunk s chunk_id; delete_chunks s' rest
  end.

(** [_chunks.items()] is walked in the order of the map; the outcome does
    not depend on it. *)
Definition to_delete (s : RAGStore) (d : str) : list str :=
  (filter (fun kc => doc_id kc.2 = d) (map_to_list (_chunks s))).*1.

Definition delete_by_doc (s : RAGStore) (d : str) : result (Z * RAGStore) :=
  s' ← delete_chunks s (to_delete s d);
  Ok (Z.of_nat (length (to_delete s d)), s').

Definition clear (s : RAGStore) : RAGStore := {| _chunks := ∅; _index := ∅ |}.

Definition chunk_count (s : RAGStore) : Z := Z.of_nat (size (_chunks s)).

End Rag.

End Rag.

(** ** app/modules/research/engine.py *)

Module Engine.

Record Document := {
  doc_source : str;
  doc_metadata : gmap str str;
  doc_created_at : str;
  doc_chunk_count : Z
}.

Record Chunk := {
  doc_id : str;
  chunk_index : Z;
  content : str;
  source : str
}.

Record ResearchEngine := {
  _documents : gmap str Document;
  _chunks : list Chunk
}.

Record Answer := {
  answer : str;
  sources : list str
}.

Definition nl : str := [10%N].

Definition __init__ : ResearchEngine := {| _documents := ∅; _chunks := [] |}.

(** The body of the loop of [_chunk_text]. *)
Definition chunk_step (words : list str) (chunk_size : Z)
    (chunks : list str) (i : Z) : list str :=
  let chunk := Py.join " " (Py.slice words i (i + chunk_size)) in
  if Py.truthy chunk then chunks ++ [chunk] else chunks.

Definition _chunk_text (U : Py.Unicode) (text : str) (chunk_size overlap : Z)
  : result (list str) :=
  let words := Py.split U text in
  idx ← Py.range 0 (Z.of_nat (length words)) (chunk_size - overlap);
  let chunks := fold_left (chunk_step words chunk_size) idx [] in
  Ok (match chunks with
      | [] => [text]
      | _ => chunks
      end).

(** [set(s.lower().split())] where only membership and size are asked *)
Definition word_set (U : Py.Unicode) (text : str) : gset str :=
  list_to_set (Py.split U (Py.lower U text)).

(** [len(question_words & chunk_words) / len(question_words)
     if question_words else 0] *)
Definition score (U : Py.Unicode) (question_words : gset str)
    (chunk : Chunk) : Q :=
  let chunk_words := word_set U (content chunk) in
  if decide (size question_words = 0%nat) then 0%Q
  else Qmake (Z.of_nat (size (question_words ∩ chunk_words)))
             (Pos.of_nat (size question_words)).

Definition _retrieve_relevant (U : Py.Unicode) (e : ResearchEngine)
    (question : str) (top_k : Z) : list Chunk :=
  match _chunks e with
  | [] => []
  | _ =>
      let question_words := word_set U question in
      let scored_chunks :=
        (fun chunk => (score U question_words chunk, chunk)) <$> _chunks e in
      let scored_chunks := sorted_desc fst scored_chunks in
      (filter (fun sc => (0 < sc.1)%Q) (Py.slice_to scored_chunks top_k)).*2
  end.

Section Engine.

(** The interpreter's Unicode and the set order of the process; the values
    [uuid.uuid4()] and [datetime.now(timezone.utc).isoformat()] yield; and
    the language model, [llm.generate(prompt=prompt, temperature=0.3)], as
    the dictionary it answers with. *)
Variable U : Py.Unicode.
Variable O : SetOrder.
Variable llm_generate : str -> gmap str str.

Definition ingest_document (e : ResearchEngine) (content source : str)
    (metadata : option (gmap str str)) (uuid4 now : str)
  : result (str * ResearchEngine) :=
  let doc_id := uuid4 in
  chunks ← _chunk_text U content 500 50;
  Ok (doc_id,
      {| _documents :=
           <[doc_id := {| doc_source := source;
                          doc_metadata := or_dict metadata;
                          doc_created_at := now;
                          doc_chunk_count := Z.of_nat (length chunks) |}]>
             (_documents e);
         _chunks :=
           _chunks e ++
           imap (fun i chunk => {| doc_id := doc_id;
                                   chunk_index := Z.of_nat i;
                                   content := chunk;
                                   source := source |}) chunks |}).

(** The grounding context and the prompt [query] builds from it. *)
Definition query_context (relevant_chunks : list Chunk) : str :=
  Py.join (nl ++ nl)
    ((fun c => "[Source: " ++ source c ++ "]" ++ nl ++ content c) <$>
     relevant_chunks).

Definition query_prompt (context question : str) : str :=
  "Based on the following document excerpts, answer the question." ++ nl ++
  "If the answer is not in the documents, say so clearly." ++ nl ++ nl ++
  "Documents:" ++ nl ++ context ++ nl ++ nl ++
  "Question: " ++ question ++ nl ++ nl ++
  "Answer (cite sources when possible):".

Definition no_documents : str :=
  "I don't have any documents to search. Please upload or ingest documents first.".

Definition query (e : ResearchEngine) (question : str)
    (session_id : option str) (top_k : Z) : Answer :=
  let relevant_chunks := _retrieve_relevant U e question top_k in
  match relevant_chunks with
  | [] => {| answer := no_documents; sources := [] |}
  | _ =>
      let context := query_context relevant_chunks in
      let prompt := query_prompt context question in
      let result := llm_generate prompt in
      {| answer := default [] (result !! "response");
         sources := set_list O (source <$> relevant_chunks) |}
  end.

Definition delete_document (e : ResearchEngine) (d : str)
  : bool * ResearchEngine :=
  match _documents e !! d with
  | None => (false, e)
  | Some _ =>
      (true,
       {| _documents := delete d (_documents e);
          _chunks := filter (fun c => doc_id c <> d) (_chunks e) |})
  end.

End Engine.

End Engine.

(** * Properties *)

(** ** Strings: [split] and [join] *)

Module PyFacts.

Import Py.

Section Str.

Variable U : Unicode.

Lemma no_space_append (a b : str) :
  no_space U (a ++ b) = no_space U a && no_space U b.
Proof.
  induction a as [|x a IH]; [reflexivity|].
  simpl. rewrite IH. now rewrite andb_assoc.
Qed.

Lemma flush_word (w : str) : w <> [] -> flush w = [w].
Proof. destruct w; [congruence | reflexivity]. Qed.

(** A separator closes the word being scanned and starts afresh. *)
Lemma split_from_sep (cur s1 s2 : str) (c : N) :
  isspace U c = true ->
  split_from U cur (s1 ++ c :: s2) = split_from U cur s1 ++ split U s2.
Proof.
  intros Hc. revert cur.
  induction s1 as [|x s1 IH]; intros cur.
  - simpl. now rewrite Hc.
  - simpl. destruct (isspace U x).
    + rewrite IH. unfold split. now rewrite app_assoc.
    + apply IH.
Qed.

(** Characters that are no separators extend the word being scanned. *)
Lemma split_from_no_space (cur w s : str) :
  no_space U w = true ->
  split_from U cur (w ++ s) = split_from U (cur ++ w) s.
Proof.
  revert cur. induction w as [|x w IH]; intros cur Hw.
  - now rewrite app_nil_r.
  - simpl in Hw. apply andb_prop in Hw as [Hx Hw].
    apply negb_true_iff in Hx.
    simpl. rewrite Hx.
    rewrite IH by assumption. now rewrite <- app_assoc.
Qed.

Lemma split_word (w : str) : word U w -> split U w = [w].
Proof.
  intros [Hne Hns]. unfold split.
  rewrite <- (app_nil_r w) at 1.
  rewrite split_from_no_space by assumption. simpl.
  now apply flush_word.
Qed.

Lemma split_from_words (cur s : str) :
  no_space U cur = true -> Forall (word U) (split_from U cur s).
Proof.
  revert cur. induction s as [|c s IH]; intros cur Hcur; simpl.
  - destruct cur; simpl; [constructor|].
    constructor; [|constructor]. split; [discriminate | assumption].
  - destruct (isspace U c) eqn:Hc.
    + apply Forall_app. split; [|now apply IH].
      destruct cur; simpl; [constructor|].
      constructor; [|constructor]. split; [discriminate | assumption].
    + apply IH. rewrite no_space_append, Hcur. simpl. now rewrite Hc.
Qed.

(** Every string [split] returns is a word. *)
Lemma split_words (s : str) : Forall (word U) (split U s).
Proof. now apply split_from_words. Qed.

Lemma split_append_space (a b : str) :
  split U (a ++ " " ++ b) = split U a ++ split U b.
Proof. unfold split at 1 2. apply split_from_sep, isspace_space. Qed.

Lemma split_join (l : list str) :
  split U (join " " l) = mjoin (split U <$> l).
Proof.
  induction l as [|x l IH]; [reflexivity|].
  destruct l as [|y l].
  - simpl. now rewrite app_nil_r.
  - change (join " " (x :: y :: l)) with (x ++ " " ++ join " " (y :: l)).
    rewrite split_append_space, IH. reflexivity.
Qed.

(** Splitting the space-joined words gives the words back. *)
Lemma split_join_words (ws : list str) :
  Forall (word U) ws -> split U (join " " ws) = ws.
Proof.
  intros Hws. rewrite split_join.
  induction Hws as [|w ws Hw _ IH]; [reflexivity|].
  change (mjoin (split U <$> w :: ws))
    with (split U w ++ mjoin (split U <$> ws)).
  rewrite IH, split_word by assumption. reflexivity.
Qed.

Lemma join_truthy (w : str) (ws : list str) :
  word U w -> truthy (join " " (w :: ws)) = true.
Proof.
  intros [Hne _]. destruct w as [|c w]; [congruence|].
  destruct ws; reflexivity.
Qed.

(** A text has no word exactly when it is all white space. *)
Lemma split_from_blank (cur s : str) :
  split_from U cur s = [] <-> cur = [] /\ forallb (isspace U) s = true.
Proof.
  revert cur. induction s as [|c s IH]; intros cur; simpl.
  - destruct cur; [tauto|]. split; [discriminate | intros [? _]; discriminate].
  - destruct (isspace U c) eqn:Hc; simpl.
    + split.
      * intros H. apply app_eq_nil in H as [Hf Hs].
        apply IH in Hs as [_ Hs]. destruct cur; [tauto | discriminate].
      * intros [-> Hs]. simpl. apply IH. tauto.
    + rewrite IH. split; [|intros [_ ?]; discriminate].
      intros [H _]. now destruct cur.
Qed.

Lemma split_blank (s : str) :
  split U s = [] <-> forallb (isspace U) s = true.
Proof. unfold split. rewrite split_from_blank. tauto. Qed.

(** Lower-casing a text without words gives a text without words. *)
Lemma split_lower_blank (s : str) :
  split U s = [] -> split U (lower U s) = [].
Proof. rewrite !split_blank. apply lower_blank. Qed.

End Str.

End PyFacts.

(** ** An interpreter for the examples

    White space as CPython has it, and the case of the letters below U+0100:
    on a text of such code points these are [str.isspace], [str.lower] and
    [str.upper].  The examples in this file are run on such texts. *)

Module Plain.

Definition isspace (c : N) : bool :=
  (((9 <=? c) && (c <=? 13)) || ((28 <=? c) && (c <=? 32)) || (c =? 133)
   || (c =? 160) || (c =? 5760) || ((8192 <=? c) && (c <=? 8202))
   || (c =? 8232) || (c =? 8233) || (c =? 8239) || (c =? 8287)
   || (c =? 12288))%N.

(** A-Z, and U+00C0 to U+00DE but the multiplication sign. *)
Definition lower_char (c : N) : N :=
  if (((65 <=? c) && (c <=? 90))
      || ((192 <=? c) && (c <=? 222) && negb (c =? 215)))%N
  then (c + 32)%N else c.

(** a-z, and U+00E0 to U+00FE but the division sign; the sharp s becomes
    [SS], and the micro sign and the y with diaeresis have their capitals
    above U+00FF. *)
Definition upper_char (c : N) : str :=
  if (((97 <=? c) && (c <=? 122))
      || ((224 <=? c) && (c <=? 254) && negb (c =? 247)))%N
  then [(c - 32)%N]
  else if (c =? 223)%N then "SS"
  else if (c =? 181)%N then [924%N]
  else if (c =? 255)%N then [376%N]
  else [c].

Definition lower (s : str) : str := lower_char <$> s.
Definition upper (s : str) : str := mjoin (upper_char <$> s).

Lemma isspace_space : isspace 32%N = true.
Proof. reflexivity. Qed.

Lemma isspace_lower_char (c : N) :
  isspace c = true -> isspace (lower_char c) = true.
Proof.
  unfold lower_char.
  destruct (((65 <=? c) && (c <=? 90))
            || ((192 <=? c) && (c <=? 222) && negb (c =? 215)))%N eqn:E;
    [|tauto].
  assert (Hc : (65 <= c <= 90 \/ 192 <= c <= 222)%N).
  { apply orb_true_iff in E as [E|E].
    - apply andb_true_iff in E as [E1 E2]. apply N.leb_le in E1, E2. lia.
    - apply andb_true_iff in E as [E _].
      apply andb_true_iff in E as [E1 E2]. apply N.leb_le in E1, E2. lia. }
  unfold isspace. intros H.
  repeat (rewrite orb_true_iff in H || rewrite andb_true_iff in H).
  rewrite !N.leb_le, !N.eqb_eq in H. lia.
Qed.

Lemma lower_blank (s : str) :
  forallb isspace s = true -> forallb isspace (lower s) = true.
Proof.
  induction s as [|c s IH]; [reflexivity|]. simpl.
  intros [Hc Hs]%andb_true_iff.
  now rewrite isspace_lower_char, IH.
Qed.

Definition unicode : Py.Unicode :=
  {| Py.isspace := isspace;
     Py.lower := lower;
     Py.upper := upper;
     Py.isspace_space := isspace_space;
     Py.lower_blank := lower_blank |}.

End Plain.

(** ** Chunker *)

Module ChunkFacts.

Import Py PyFacts Engine.

Lemma take_min_length {A} (n : nat) (l : list A) :
  take (n `min` length l) l = take n l.
Proof.
  destruct (le_lt_dec n (length l)) as [H|H].
  - now rewrite Nat.min_l.
  - rewrite Nat.min_r by lia. now rewrite !take_ge by lia.
Qed.

(** A window [l[i:i+size]] with [i] and [size] non-negative. *)
Lemma slice_window {A} (l : list A) (i size : Z) :
  0 <= i -> 0 <= size ->
  slice l i (i + size) = take (Z.to_nat size) (drop (Z.to_nat i) l).
Proof.
  intros Hi Hs. unfold slice, clamp.
  destruct (Z.ltb_spec i 0) as [?|_]; [lia|].
  destruct (Z.ltb_spec (i + size) 0) as [?|_]; [lia|].
  destruct (le_lt_dec (Z.to_nat i) (length l)) as [H|H].
  - rewrite (Nat.min_l (Z.to_nat i)) by lia.
    rewrite <- (take_min_length (Z.to_nat size)).
    f_equal. rewrite length_drop. lia.
  - rewrite !drop_ge by lia. now rewrite !take_nil.
Qed.

Lemma slice_Forall {A} (P : A -> Prop) (l : list A) (lo hi : Z) :
  Forall P l -> Forall P (slice l lo hi).
Proof. intros H. unfold slice. now apply Forall_take, Forall_drop. Qed.

(** The chunk the loop builds at index [i]. *)
Definition chunk_at (words : list str) (chunk_size i : Z) : str :=
  join " " (slice words i (i + chunk_size)).

(** When every window is non-empty the loop appends one chunk per index. *)
Lemma fold_chunk_step (words : list str) (chunk_size : Z)
    (idx : list Z) (acc : list str) :
  Forall (fun i => truthy (chunk_at words chunk_size i) = true) idx ->
  fold_left (chunk_step words chunk_size) idx acc
  = acc ++ (chunk_at words chunk_size <$> idx).
Proof.
  intros H. revert acc.
  induction H as [|i idx Hi _ IH]; intros acc; simpl.
  - now rewrite app_nil_r.
  - unfold chunk_step at 2. fold (chunk_at words chunk_size i).
    rewrite Hi, IH. now rewrite <- app_assoc.
Qed.

(** Which indices [range(0, n, step)] visits, for a positive step. *)
Lemma range_len_lt (n step : Z) (k : nat) :
  0 < step -> 0 <= n ->
  (k < range_len 0 n step)%nat <-> Z.of_nat k * step < n.
Proof.
  intros Hs Hn. unfold range_len.
  destruct (Z.ltb_spec 0 step) as [_|?]; [|lia].
  destruct (Z.ltb_spec 0 n) as [Hn'|Hn'].
  - replace (n - 0 - 1) with (n - 1) by lia.
    pose proof (Z.div_pos (n - 1) step ltac:(lia) Hs) as Hq.
    pose proof (Z.mul_div_le (n - 1) step Hs) as Hle.
    split; intros H.
    + assert (Z.of_nat k <= (n - 1) / step) by lia. nia.
    + assert (Z.of_nat k <= (n - 1) / step)
        by (apply Z.div_le_lower_bound; lia).
      lia.
  - split; [lia | nia].
Qed.

Lemma range_from_zero (n step : Z) :
  step <> 0 ->
  range 0 n step
  = Ok ((fun k => Z.of_nat k * step) <$> seq 0 (range_len 0 n step)).
Proof.
  intros Hs. unfold range.
  destruct (Z.eqb_spec step 0); [contradiction | reflexivity].
Qed.

Section Windows.

Variable U : Unicode.
Variable text : str.
Variables chunk_size overlap : Z.
Hypothesis Hoverlap : 0 <= overlap < chunk_size.

Let words := split U text.
Let step := chunk_size - overlap.
Let count := range_len 0 (Z.of_nat (length words)) step.
Let idx := (fun k => Z.of_nat k * step) <$> seq 0 count.

Lemma window_truthy (k : nat) :
  (k < count)%nat -> truthy (chunk_at words chunk_size (Z.of_nat k * step)) = true.
Proof.
  intros Hk. apply range_len_lt in Hk; [|unfold step; lia|lia].
  unfold chunk_at. rewrite slice_window by (unfold step in *; nia).
  destruct (drop (Z.to_nat (Z.of_nat k * step)) words) as [|w ws] eqn:Hd.
  - apply (f_equal length) in Hd. rewrite length_drop in Hd. simpl in Hd. lia.
  - assert (Hw : Forall (word U) (w :: ws)).
    { rewrite <- Hd. apply Forall_drop, split_words. }
    destruct (Z.to_nat chunk_size) as [|m] eqn:Hm; [lia|].
    simpl. apply (join_truthy U). now inversion Hw.
Qed.

Lemma loop_chunks :
  fold_left (chunk_step words chunk_size) idx []
  = chunk_at words chunk_size <$> idx.
Proof.
  rewrite fold_chunk_step; [reflexivity|].
  unfold idx. apply Forall_fmap, Forall_forall. intros k Hk.
  apply elem_of_seq in Hk. simpl. apply window_truthy. lia.
Qed.

Lemma chunk_text_eq :
  _chunk_text U text chunk_size overlap
  = Ok (match chunk_at words chunk_size <$> idx with
        | [] => [text]
        | chunks => chunks
        end).
Proof.
  assert (Hstep : step <> 0) by (unfold step; lia).
  unfold _chunk_text. fold words. fold step.
  rewrite (range_from_zero _ _ Hstep).
  fold count. fold idx. simpl. rewrite loop_chunks.
  now destruct (chunk_at words chunk_size <$> idx).
Qed.

(** Every word lies in the window that starts at the last index at or
    before its position. *)
Lemma word_in_window (p : nat) (w : str) :
  words !! p = Some w ->
  exists i, i ∈ idx /\ w ∈ split U (chunk_at words chunk_size i).
Proof.
  intros Hp.
  pose proof (lookup_lt_Some _ _ _ Hp) as Hlen.
  set (st := Z.to_nat step).
  assert (Hst : (0 < st)%nat) by (unfold st, step; lia).
  set (k := (p / st)%nat).
  assert (Hk : (k * st <= p < k * st + st)%nat).
  { unfold k. pose proof (Nat.div_mod_eq p st).
    pose proof (Nat.mod_upper_bound p st ltac:(lia)). nia. }
  assert (HkZ : Z.of_nat k * step = Z.of_nat (k * st))
    by (unfold st; nia).
  exists (Z.of_nat k * step). split.
  - unfold idx. apply list_elem_of_fmap. exists k. split; [reflexivity|].
    apply elem_of_seq. split; [lia|]. simpl.
    apply range_len_lt; [unfold step; lia | lia | lia].
  - unfold chunk_at. rewrite split_join_words
      by (apply slice_Forall, split_words).
    rewrite slice_window by lia.
    apply list_elem_of_lookup. exists (p - k * st)%nat.
    rewrite lookup_take_lt by (unfold st, step in *; lia).
    rewrite lookup_drop, HkZ, Nat2Z.id.
    now replace (k * st + (p - k * st))%nat with p by lia.
Qed.

Lemma chunks_cover (chunks : list str) (w : str) :
  _chunk_text U text chunk_size overlap = Ok chunks ->
  w ∈ split U text -> w ∈ split U (join " " chunks).
Proof.
  rewrite chunk_text_eq. intros [= <-] Hw.
  apply list_elem_of_lookup in Hw as [p Hp].
  destruct (word_in_window p w Hp) as (i & Hi & Hwi).
  rewrite split_join. apply list_elem_of_join.
  exists (split U (chunk_at words chunk_size i)). split; [assumption|].
  apply list_elem_of_fmap_2.
  destruct (chunk_at words chunk_size <$> idx) eqn:E.
  - apply (list_elem_of_fmap_2 (chunk_at words chunk_size)) in Hi.
    rewrite E in Hi. now apply not_elem_of_nil in Hi.
  - rewrite <- E. now apply list_elem_of_fmap_2.
Qed.

Lemma chunks_length (chunks : list str) :
  _chunk_text U text chunk_size overlap = Ok chunks ->
  length chunks = Nat.max 1 count.
Proof.
  rewrite chunk_text_eq. intros [= <-].
  destruct (chunk_at words chunk_size <$> idx) eqn:E.
  - apply (f_equal length) in E.
    unfold idx in E. rewrite !length_fmap, length_seq in E.
    simpl in *. lia.
  - rewrite <- E. unfold idx. rewrite !length_fmap, length_seq.
    apply (f_equal length) in E.
    unfold idx in E. rewrite !length_fmap, length_seq in E.
    simpl in *. lia.
Qed.

Lemma chunks_fallback (chunks : list str) :
  _chunk_text U text chunk_size overlap = Ok chunks ->
  split U text = [] -> chunks = [text].
Proof.
  rewrite chunk_text_eq. intros [= <-] Hnil.
  unfold idx, count, words. rewrite Hnil. simpl. unfold range_len.
  now destruct (0 <? step).
Qed.

End Windows.

(** C6.  For [chunk_size > overlap >= 0], [_chunk_text] returns without
    error; every word of [text] is among the words of the space-joined
    chunks; the list of chunks is never empty, and a text without words comes
    back as the single chunk [text]; a text of exactly 1000 words cut with
    size 500 and overlap 50 gives more than one chunk. *)
Theorem chunk_text_recovers_words (U : Unicode) (text : str)
    (chunk_size overlap : Z) :
  0 <= overlap < chunk_size ->
  exists chunks,
    _chunk_text U text chunk_size overlap = Ok chunks /\
    (forall w, w ∈ split U text -> w ∈ split U (join " " chunks)) /\
    chunks <> [] /\
    (split U text = [] -> chunks = [text]) /\
    (chunk_size = 500 -> overlap = 50 -> length (split U text) = 1000%nat ->
     (1 < length chunks)%nat).
Proof.
  intros H.
  destruct (_chunk_text U text chunk_size overlap) as [chunks|e] eqn:E;
    [|now rewrite chunk_text_eq in E].
  exists chunks. split; [reflexivity|].
  pose proof (chunks_length U text chunk_size overlap H chunks E) as Hlen.
  repeat split.
  - intros w. now apply (chunks_cover U text chunk_size overlap H).
  - intros ->. simpl in Hlen. lia.
  - now apply (chunks_fallback U text chunk_size overlap H).
  - intros -> -> H1000. rewrite Hlen, H1000. vm_compute. lia.
Qed.

Lemma chunk_text_recovers_words_witness :
  0 <= 1 < 2 /\
  exists chunks,
    _chunk_text Plain.unicode "to be or not to be" 2 1 = Ok chunks /\
    (forall w, w ∈ split Plain.unicode "to be or not to be" -> w ∈ split Plain.unicode (join " " chunks)) /\
    chunks <> [] /\
    (split Plain.unicode "to be or not to be" = [] -> chunks = ["to be or not to be"]) /\
    (2 = 500 -> 1 = 50 -> length (split Plain.unicode "to be or not to be") = 1000%nat ->
     (1 < length chunks)%nat).
Proof.
  split; [lia|]. apply (chunk_text_recovers_words Plain.unicode "to be or not to be" 2 1). lia.
Defined.

(** C7 (as amended).  With [overlap >= chunk_size] nothing is clamped: an
    overlap equal to the size makes the step of [range] zero, which raises
    [ValueError]; a larger overlap makes the step negative, the loop body never
    runs and the whole text comes back as one chunk. *)
Theorem chunk_text_overlap_not_below_size (U : Unicode) (text : str)
    (chunk_size overlap : Z) :
  chunk_size <= overlap ->
  _chunk_text U text chunk_size overlap
  = if decide (overlap = chunk_size) then Raise ValueError else Ok [text].
Proof.
  intros H. unfold _chunk_text, range.
  destruct (decide (overlap = chunk_size)) as [->|Hne].
  - now rewrite Z.sub_diag.
  - destruct (Z.eqb_spec (chunk_size - overlap) 0) as [?|_]; [lia|].
    unfold range_len.
    destruct (Z.ltb_spec 0 (chunk_size - overlap)) as [?|_]; [lia|].
    destruct (Z.ltb_spec (Z.of_nat (length (split U text))) 0) as [?|_]; [lia|].
    reflexivity.
Qed.

Lemma chunk_text_overlap_not_below_size_witness :
  1 <= 2 /\
  _chunk_text Plain.unicode "to be or not to be" 1 2
  = if decide (2 = 1) then Raise ValueError else Ok ["to be or not to be"].
Proof.
  split; [lia|].
  apply (chunk_text_overlap_not_below_size Plain.unicode "to be or not to be" 1 2). lia.
Defined.

(** C7 as stated fails: with size 1 the call raises for overlap 1, and for
    overlap 2 it returns one chunk where overlap 0 returns two. *)
Lemma chunk_text_overlap_not_clamped :
  _chunk_text Plain.unicode "a b" 1 1 = Raise ValueError /\
  _chunk_text Plain.unicode "a b" 1 2 = Ok ["a b"] /\
  _chunk_text Plain.unicode "a b" 1 0 = Ok ["a"; "b"] /\
  _chunk_text Plain.unicode "a b" 1 1 <> _chunk_text Plain.unicode "a b" 1 0 /\
  _chunk_text Plain.unicode "a b" 1 2 <> _chunk_text Plain.unicode "a b" 1 0.
Proof. vm_compute. repeat split; discriminate. Qed.

End ChunkFacts.

(** ** Session store *)

Module MemoryFacts.

Import Memory.

(** The last [n] elements of a list. *)
Definition last_n {A} (n : nat) (l : list A) : list A :=
  drop (length l - n) l.

(** The trimming step of [add_message]. *)
Definition trim {A} (max_history : Z) (l : list A) : list A :=
  if max_history <? Z.of_nat (length l)
  then Py.slice_from l (- max_history)
  else l.

(** One [add_message] call on a session: its arguments and what it draws
    from the environment. *)
Record Call := {
  call_role : str;
  call_content : str;
  call_metadata : option (gmap str str);
  call_env : Env
}.

(** The [Message] object a call creates. *)
Definition message_of (c : Call) : Message :=
  new_message (call_role c) (call_content c) None (call_metadata c) (call_env c).

Section Run.

Variable isoformat : Z -> str.

(** A sequence of [add_message] calls on one session. *)
Definition add_messages (m : ConversationMemory) (session_id : str)
    (calls : list Call) : ConversationMemory :=
  fold_left
    (fun m c =>
       (add_message isoformat m session_id
          (call_role c) (call_content c) (call_metadata c) (call_env c)).2)
    calls m.

Lemma length_last_n {A} (n : nat) (l : list A) : (length (last_n n l) <= n)%nat.
Proof. unfold last_n. rewrite length_drop. lia. Qed.

Lemma last_n_app {A} (n : nat) (l k : list A) :
  last_n n (last_n n l ++ k) = last_n n (l ++ k).
Proof.
  unfold last_n. rewrite !length_app, length_drop.
  destruct (le_lt_dec (length l) n) as [H|H].
  - replace (length l - n)%nat with 0%nat by lia. simpl.
    now rewrite Nat.sub_0_r.
  - replace (length l - (length l - n) + length k - n)%nat
      with (length k) by lia.
    replace (length l + length k - n)%nat
      with ((length l - n) + length k)%nat by lia.
    rewrite <- drop_drop. f_equal.
    rewrite drop_app_le by lia. reflexivity.
Qed.

(** For a positive bound, trimming keeps the last [max_history] messages. *)
Lemma trim_last_n {A} (max_history : Z) (l : list A) :
  0 < max_history -> trim max_history l = last_n (Z.to_nat max_history) l.
Proof.
  intros H. unfold trim, last_n, Py.slice_from, Py.clamp.
  destruct (Z.ltb_spec max_history (Z.of_nat (length l))) as [Hlt|Hge].
  - destruct (Z.ltb_spec (- max_history) 0) as [_|?]; [|lia].
    f_equal. lia.
  - replace (length l - Z.to_nat max_history)%nat with 0%nat by lia.
    reflexivity.
Qed.

(** What one call leaves in the session it writes to. *)
Lemma add_message_session (m : ConversationMemory) (session_id role content : str)
    (metadata : option (gmap str str)) (env : Env) :
  let m' := (add_message isoformat m session_id role content metadata env).2 in
  max_history m' = max_history m /\
  _sessions m' !! session_id
  = Some (trim (max_history m)
            (default [] (_sessions m !! session_id)
             ++ [new_message role content None metadata env])).
Proof.
  unfold add_message.
  destruct (_sessions m !! session_id) as [old|] eqn:E; simpl.
  - rewrite E. simpl. split; [reflexivity|]. now rewrite lookup_insert_eq.
  - split; [reflexivity|]. rewrite lookup_insert_eq.
    match goal with
    | |- context [<[?k := []]> (_sessions m) !! session_id] =>
        assert (Hold : default [] (<[k := []]> (_sessions m) !! session_id)
                       = @nil Message)
          by (rewrite lookup_insert; case_decide; [reflexivity | now rewrite E])
    end.
    now rewrite Hold.
Qed.

Lemma add_messages_cons (m : ConversationMemory) (session_id : str)
    (c : Call) (calls : list Call) :
  add_messages m session_id (c :: calls)
  = add_messages
      (add_message isoformat m session_id
         (call_role c) (call_content c) (call_metadata c) (call_env c)).2
      session_id calls.
Proof. reflexivity. Qed.

Lemma add_messages_max_history (m : ConversationMemory) (session_id : str)
    (calls : list Call) :
  max_history (add_messages m session_id calls) = max_history m.
Proof.
  revert m. induction calls as [|c calls IH]; intros m; [reflexivity|].
  rewrite add_messages_cons, IH. apply add_message_session.
Qed.

Lemma add_messages_session (m : ConversationMemory) (session_id : str)
    (calls : list Call) :
  0 < max_history m -> calls <> [] ->
  _sessions (add_messages m session_id calls) !! session_id
  = Some (last_n (Z.to_nat (max_history m))
            (default [] (_sessions m !! session_id) ++ (message_of <$> calls))).
Proof.
  revert m. induction calls as [|c calls IH]; intros m Hpos Hne; [congruence|].
  rewrite add_messages_cons.
  destruct (add_message_session m session_id (call_role c) (call_content c)
              (call_metadata c) (call_env c)) as [Hmax Hses].
  destruct calls as [|c' calls].
  - change (add_messages ?x session_id []) with x.
    rewrite Hses. now rewrite trim_last_n.
  - rewrite IH; [|now rewrite Hmax|discriminate].
    rewrite Hmax, Hses. simpl default.
    rewrite trim_last_n by assumption.
    rewrite last_n_app. rewrite <- app_assoc. reflexivity.
Qed.

End Run.

(** C1.  After any non-empty sequence of [add_message] calls on one session
    of a memory whose bound [max_history] is positive, the session holds at
    most [max_history] messages, and they are the last [max_history] of all
    the messages of the session (those held before, followed by the ones
    appended, in call order); [get_history] returns exactly these, in that
    order.  Every prefix of a sequence of calls is such a sequence, so this
    holds after each call. *)
Theorem add_message_bounded_fifo (isoformat : Z -> str)
    (m : ConversationMemory) (session_id : str) (calls : list Call) :
  0 < max_history m -> calls <> [] ->
  let m' := add_messages isoformat m session_id calls in
  let all := default [] (_sessions m !! session_id) ++ (message_of <$> calls) in
  exists messages,
    _sessions m' !! session_id = Some messages /\
    Z.of_nat (length messages) <= max_history m' /\
    messages = last_n (Z.to_nat (max_history m')) all /\
    get_history isoformat m' session_id None = to_dict isoformat <$> messages.
Proof.
  intros Hpos Hne m' all.
  pose proof (add_messages_session isoformat m session_id calls Hpos Hne) as Hs.
  pose proof (add_messages_max_history isoformat m session_id calls) as Hm.
  fold m' in Hs, Hm. fold all in Hs.
  exists (last_n (Z.to_nat (max_history m)) all).
  rewrite Hm. repeat split.
  - exact Hs.
  - pose proof (length_last_n (Z.to_nat (max_history m)) all). lia.
  - unfold get_history. now rewrite Hs.
Qed.

Definition epoch_iso (t : Z) : str := "1970-01-01T00:00:00".

Definition env0 : Env :=
  {| tok_session := "kq3vXw0PzT8yJm5rN1cB7dHs";
     now_session := 0;
     tok_message := "Zb6uE2aLx9QfRg4oYi0WtCnM";
     now_message := 0;
     now_update := 0 |}.

Definition user_says (content : str) : Call :=
  {| call_role := "user"; call_content := content;
     call_metadata := None; call_env := env0 |}.

Definition five_calls : list Call :=
  user_says <$> ["Message 0"; "Message 1"; "Message 2"; "Message 3"; "Message 4"].

Lemma add_message_bounded_fifo_witness :
  0 < max_history (__init__ default_settings (Some 3)) /\
  five_calls <> [] /\
  let m' := add_messages epoch_iso (__init__ default_settings (Some 3))
              "s1" five_calls in
  let all := default [] (_sessions (__init__ default_settings (Some 3)) !! "s1")
             ++ (message_of <$> five_calls) in
  exists messages,
    _sessions m' !! "s1" = Some messages /\
    Z.of_nat (length messages) <= max_history m' /\
    messages = last_n (Z.to_nat (max_history m')) all /\
    get_history epoch_iso m' "s1" None = to_dict epoch_iso <$> messages.
Proof.
  split; [reflexivity|]. split; [discriminate|].
  apply (add_message_bounded_fifo epoch_iso
           (__init__ default_settings (Some 3)) "s1" five_calls);
    [reflexivity | discriminate].
Defined.

(** C10.  On a known session, a [limit] of zero is falsy and selects the
    whole history, like no limit at all. *)
Theorem get_history_limit_zero (isoformat : Z -> str)
    (m : ConversationMemory) (session_id : str) (messages : list Message) :
  _sessions m !! session_id = Some messages ->
  get_history isoformat m session_id (Some 0) = to_dict isoformat <$> messages /\
  get_history isoformat m session_id (Some 0)
  = get_history isoformat m session_id None.
Proof. intros H. unfold get_history. rewrite H. split; reflexivity. Qed.

Definition three_hi : ConversationMemory :=
  add_messages epoch_iso (__init__ default_settings None) "s1"
    (user_says <$> ["hi"; "hi"; "hi"]).

Lemma get_history_limit_zero_witness :
  _sessions three_hi !! "s1" = Some (message_of <$> (user_says <$> ["hi"; "hi"; "hi"])) /\
  get_history epoch_iso three_hi "s1" (Some 0)
  = to_dict epoch_iso <$> (message_of <$> (user_says <$> ["hi"; "hi"; "hi"])) /\
  get_history epoch_iso three_hi "s1" (Some 0)
  = get_history epoch_iso three_hi "s1" None.
Proof.
  assert (H : _sessions three_hi !! "s1"
              = Some (message_of <$> (user_says <$> ["hi"; "hi"; "hi"])))
    by (vm_compute; reflexivity).
  split; [exact H|].
  exact (get_history_limit_zero epoch_iso three_hi "s1" _ H).
Defined.

(** *** Context window *)

Section Window.

Variable U : Py.Unicode.

(** The running estimate [estimated_tokens] after the loop has admitted
    [taken], starting from [est]. *)
Definition run_estimate (est : F64.float) (taken : list MessageDict) : F64.float :=
  fold_left (fun est msg => F64.add est (msg_tokens U msg)) taken est.

(** The estimate the loop reaches for the messages it included (given in
    chronological order; the loop adds them up from the most recent one). *)
Definition estimate (included : list MessageDict) : F64.float :=
  run_estimate (F64.of_int 0) (reverse included).

(** The specification's reading of the cost of a line,
    [ceil(word_count * 1.3)]. *)
Definition ceil_cost (line : str) : Z :=
  (13 * Z.of_nat (length (Py.split U line)) + 9) / 10.

Definition ceil_total (lines : list str) : Z :=
  foldr Z.add 0 (ceil_cost <$> lines).

Lemma context_loop_spec (max_tokens : Z) (rest : list MessageDict)
    (parts : list str) (est : F64.float) :
  exists taken left,
    rest = taken ++ left /\
    context_loop U max_tokens rest parts est
    = (reverse (msg_text U <$> taken) ++ parts, run_estimate est taken) /\
    (taken = [] \/ F64.gt_int (run_estimate est taken) max_tokens = false) /\
    (left = [] \/
     exists msg left', left = msg :: left' /\
       F64.gt_int (F64.add (run_estimate est taken) (msg_tokens U msg)) max_tokens
       = true).
Proof.
  revert parts est. induction rest as [|msg rest IH]; intros parts est.
  - exists [], []. repeat split; auto.
  - simpl.
    destruct (F64.gt_int (F64.add est (msg_tokens U msg)) max_tokens) eqn:G.
    + exists [], (msg :: rest). repeat split; [now left|].
      right. now exists msg, rest.
    + destruct (IH (msg_text U msg :: parts) (F64.add est (msg_tokens U msg)))
        as (taken & left & -> & Hloop & Hfit & Hnext).
      exists (msg :: taken), left. repeat split.
      * rewrite Hloop. simpl. rewrite reverse_cons, <- app_assoc. reflexivity.
      * right. destruct Hfit as [->|Hfit]; [exact G | exact Hfit].
      * exact Hnext.
Qed.

(** C2 (as amended).  For a positive budget [N], [get_context] returns the
    rendered lines of a contiguous most-recent part of the history, oldest
    first and each line whole, joined by newlines.  The estimate the loop
    accumulates for them, [word_count * 1.3] per line in binary64 and not
    rounded up, does not exceed [N]; the next older message, when there is
    one, would push it above [N]. *)
Theorem get_context_within_budget (settings : Settings)
    (isoformat : Z -> str) (m : ConversationMemory) (session_id : str)
    (N : Z) :
  0 < N ->
  exists older included,
    get_history isoformat m session_id None = older ++ included /\
    get_context U settings isoformat m session_id (Some N)
    = Py.join nl (msg_text U <$> included) /\
    F64.gt_int (estimate included) N = false /\
    (older = [] \/
     exists msg, last older = Some msg /\
       F64.gt_int (F64.add (estimate included) (msg_tokens U msg)) N = true).
Proof.
  intros HN. unfold get_context.
  replace (or_int (Some N) (max_context_tokens settings)) with N
    by (simpl; destruct (Z.eqb_spec N 0); [lia | reflexivity]).
  set (history := get_history isoformat m session_id None).
  destruct (context_loop_spec N (reverse history) [] (F64.of_int 0))
    as (taken & left & Hsplit & Hloop & Hfit & Hnext).
  exists (reverse left), (reverse taken). repeat split.
  - rewrite <- reverse_app, <- Hsplit. now rewrite reverse_involutive.
  - rewrite Hloop. simpl. now rewrite app_nil_r, fmap_reverse.
  - unfold estimate. rewrite reverse_involutive.
    destruct Hfit as [->|Hfit]; [|exact Hfit].
    simpl. destruct (Z.ltb_spec N 0); [lia | reflexivity].
  - unfold estimate. rewrite reverse_involutive.
    destruct Hnext as [->|(msg & left' & -> & Hgt)]; [now left|].
    right. exists msg. split; [|exact Hgt].
    rewrite reverse_cons. apply last_snoc.
Qed.

(** A budget of zero, like none at all, selects
    [settings.max_context_tokens]. *)
Lemma get_context_falsy_budget (settings : Settings) (isoformat : Z -> str)
    (m : ConversationMemory) (session_id : str) :
  get_context U settings isoformat m session_id (Some 0)
  = get_context U settings isoformat m session_id None.
Proof. reflexivity. Qed.

End Window.

Lemma get_context_within_budget_witness :
  0 < 6 /\
  exists older included,
    get_history epoch_iso three_hi "s1" None = older ++ included /\
    get_context Plain.unicode default_settings epoch_iso three_hi "s1" (Some 6)
    = Py.join nl (msg_text Plain.unicode <$> included) /\
    F64.gt_int (estimate Plain.unicode included) 6 = false /\
    (older = [] \/
     exists msg, last older = Some msg /\
       F64.gt_int (F64.add (estimate Plain.unicode included) (msg_tokens Plain.unicode msg)) 6 = true).
Proof.
  split; [lia|].
  apply (get_context_within_budget Plain.unicode default_settings epoch_iso three_hi "s1" 6).
  lia.
Defined.

(** C2 as stated fails.  Three lines of two words each are estimated at
    2.6 + 2.6 + 2.6 = 7.800000000000001 and all fit a budget of 8, while
    their cost by the rounded-up rule is 3 + 3 + 3 = 9.  A budget of 0 is
    falsy and replaced by [settings.max_context_tokens], so the same three
    lines come back for it. *)
Lemma get_context_exceeds_ceil_budget :
  let lines := ["USER: hi"; "USER: hi"; "USER: hi"] in
  get_context Plain.unicode default_settings epoch_iso three_hi "s1" (Some 8) = Py.join nl lines /\
  8 < ceil_total Plain.unicode lines /\
  get_context Plain.unicode default_settings epoch_iso three_hi "s1" (Some 0) = Py.join nl lines /\
  0 < ceil_total Plain.unicode lines.
Proof. vm_compute. repeat split; reflexivity. Qed.

End MemoryFacts.

(** ** Two set orders *)

Module Orders.

(** Each element once, where it first occurs. *)
Fixpoint first_seen (l : list str) : list str :=
  match l with
  | [] => []
  | x :: l' => x :: filter (fun y => y <> x) (first_seen l')
  end.

Lemma first_seen_elem (l : list str) (x : str) :
  x ∈ first_seen l <-> x ∈ l.
Proof.
  induction l as [|y l IH]; [reflexivity|].
  cbn [first_seen]. rewrite !elem_of_cons, list_elem_of_filter, IH.
  destruct (decide (x = y)); tauto.
Qed.

Lemma first_seen_NoDup (l : list str) : NoDup (first_seen l).
Proof.
  induction l as [|y l IH]; [constructor|].
  cbn [first_seen]. constructor; [|now apply NoDup_filter].
  intros [H _]%list_elem_of_filter. congruence.
Qed.

Definition insertion_order : SetOrder :=
  {| set_list := first_seen;
     set_list_NoDup := first_seen_NoDup;
     set_list_elem := first_seen_elem |}.

Lemma reverse_first_seen_elem (l : list str) (x : str) :
  x ∈ reverse (first_seen l) <-> x ∈ l.
Proof. rewrite elem_of_reverse. apply first_seen_elem. Qed.

Lemma reverse_first_seen_NoDup (l : list str) :
  NoDup (reverse (first_seen l)).
Proof. rewrite reverse_Permutation. apply first_seen_NoDup. Qed.

Definition reverse_order : SetOrder :=
  {| set_list := fun l => reverse (first_seen l);
     set_list_NoDup := reverse_first_seen_NoDup;
     set_list_elem := reverse_first_seen_elem |}.

End Orders.

(** ** Sorting and slicing *)

Module SortFacts.

Section Sort.

Context {A : Type} (key : A -> Q).

(** [a] may stand before [b]: its key is not smaller. *)
Definition before (a b : A) : Prop := (key b <= key a)%Q.

Lemma insert_desc_Permutation (x : A) (l : list A) :
  insert_desc key x l ≡ₚ x :: l.
Proof.
  induction l as [|y l IH]; simpl; [reflexivity|].
  destruct (Qle_bool (key y) (key x)); [reflexivity|].
  rewrite IH. apply Permutation_swap.
Qed.

Lemma sorted_desc_Permutation (l : list A) : sorted_desc key l ≡ₚ l.
Proof.
  induction l as [|x l IH]; simpl; [reflexivity|].
  rewrite insert_desc_Permutation. now rewrite IH.
Qed.

Lemma insert_desc_sorted (x : A) (l : list A) :
  StronglySorted before l -> StronglySorted before (insert_desc key x l).
Proof.
  intros Hs. induction Hs as [|y l Hs IH Hy]; simpl.
  - constructor; constructor.
  - destruct (Qle_bool (key y) (key x)) eqn:E.
    + apply Qle_bool_iff in E.
      constructor; [now constructor|].
      constructor; [exact E|].
      eapply Forall_impl; [exact Hy|].
      intros z Hz. unfold before in *. now apply Qle_trans with (key y).
    + assert (Hxy : (key x <= key y)%Q).
      { apply Qlt_le_weak, Qnot_le_lt. intros H.
        apply Qle_bool_iff in H. congruence. }
      constructor; [exact IH|].
      rewrite insert_desc_Permutation. now constructor.
Qed.

Lemma sorted_desc_sorted (l : list A) : StronglySorted before (sorted_desc key l).
Proof.
  induction l as [|x l IH]; simpl; [constructor | now apply insert_desc_sorted].
Qed.

End Sort.

Lemma StronglySorted_take {A} (R : A -> A -> Prop) (n : nat) (l : list A) :
  StronglySorted R l -> StronglySorted R (take n l).
Proof.
  intros Hs. revert n. induction Hs as [|x l Hs IH Hx]; intros [|n]; simpl;
    try constructor; [apply IH | now apply Forall_take].
Qed.

(** [l[:k]] is a prefix of [l], of at most [k] elements when [k] is not
    negative. *)
Lemma slice_to_take {A} (l : list A) (k : Z) :
  Py.slice_to l k = take (Py.clamp (length l) k) l.
Proof. reflexivity. Qed.

Lemma slice_to_length {A} (l : list A) (k : Z) :
  0 <= k -> Z.of_nat (length (Py.slice_to l k)) <= k.
Proof.
  intros Hk. unfold Py.slice_to, Py.clamp.
  destruct (Z.ltb_spec k 0); [lia|]. rewrite length_take. lia.
Qed.

End SortFacts.

(** ** Knowledge store *)

Module RagFacts.

Import Rag.

(** The postings of a word: the list the index holds for it, empty when the
    word is no key. *)
Definition postings (index : gmap str (list str)) (word : str)
  : list str :=
  default [] (index !! word).

(** [ids] with [chunk_id] appended unless present. *)
Definition post_add (chunk_id : str) (ids : list str) : list str :=
  if decide (chunk_id ∈ ids) then ids else ids ++ [chunk_id].

Lemma postings_Some (index : gmap str (list str)) (w : str)
    (ids : list str) :
  index !! w = Some ids -> postings index w = ids.
Proof. intros H. unfold postings. now rewrite H. Qed.

Lemma post_add_idem (chunk_id : str) (ids : list str) :
  post_add chunk_id (post_add chunk_id ids) = post_add chunk_id ids.
Proof.
  unfold post_add. destruct (decide (chunk_id ∈ ids)) as [H|H].
  - now rewrite decide_True.
  - rewrite decide_True; [reflexivity|].
    apply elem_of_app. right. apply list_elem_of_singleton. reflexivity.
Qed.

Lemma post_add_elem (chunk_id : str) (ids : list str) (i : str) :
  i ∈ post_add chunk_id ids <-> i ∈ ids \/ i = chunk_id.
Proof.
  unfold post_add. case_decide as H.
  - split; [now left | intros [?| ->]; assumption].
  - rewrite elem_of_app, list_elem_of_singleton. reflexivity.
Qed.

Lemma post_add_NoDup (chunk_id : str) (ids : list str) :
  NoDup ids -> NoDup (post_add chunk_id ids).
Proof.
  intros Hnd. unfold post_add. case_decide as H; [assumption|].
  apply NoDup_app. split; [assumption|]. split.
  - intros x Hx Hx'. apply list_elem_of_singleton in Hx' as ->. contradiction.
  - apply NoDup_singleton.
Qed.

Lemma remove_first_notin (x : str) (l : list str) :
  x ∉ l -> remove_first x l = l.
Proof.
  induction l as [|y l IH]; intros H; [reflexivity|]. simpl.
  apply not_elem_of_cons in H as [Hne Hl].
  case_decide; [congruence|]. now rewrite IH.
Qed.

Lemma remove_first_elem (x : str) (l : list str) (i : str) :
  NoDup l -> i ∈ remove_first x l <-> i ∈ l /\ i <> x.
Proof.
  intros Hnd. induction Hnd as [|y l Hy Hnd IH]; simpl.
  - split; [intros Hi; now apply not_elem_of_nil in Hi | intros [Hi _]; exact Hi].
  - case_decide as E.
    + subst y. rewrite elem_of_cons. split.
      * intros Hi. split; [now right|]. intros ->. contradiction.
      * intros [[->|Hi] Hne]; [congruence | assumption].
    + rewrite !elem_of_cons, IH. split.
      * intros [->|[Hi Hne]]; [split; [now left | assumption] |].
        split; [now right | assumption].
      * intros [[->|Hi] Hne]; [now left | right; now split].
Qed.

Lemma remove_first_NoDup (x : str) (l : list str) :
  NoDup l -> NoDup (remove_first x l).
Proof.
  intros Hnd. induction Hnd as [|y l Hy Hnd IH]; simpl; [constructor|].
  case_decide; [assumption|]. constructor; [|assumption].
  intros Hi. apply remove_first_elem in Hi as [Hi _]; [contradiction | assumption].
Qed.

(** *** The indexing loop *)

Lemma postings_index_word (chunk_id : str)
    (index : gmap str (list str)) (w0 w : str) :
  postings (index_word chunk_id index w0) w
  = if decide (w = w0) then post_add chunk_id (postings index w)
    else postings index w.
Proof.
  unfold index_word, postings, post_add.
  destruct (decide (w = w0)) as [->|Hw];
    destruct (index !! w0) as [ids0|] eqn:E0; simpl;
    repeat (rewrite ?E0, ?lookup_insert_eq; simpl);
    repeat case_decide; simplify_map_eq; try done.
  all: exfalso; eapply not_elem_of_nil; eassumption.
Qed.

Lemma postings_fold_index_word (chunk_id : str) (ws : list str)
    (index : gmap str (list str)) (w : str) :
  postings (fold_left (index_word chunk_id) ws index) w
  = if decide (w ∈ ws) then post_add chunk_id (postings index w)
    else postings index w.
Proof.
  revert index. induction ws as [|w0 ws IH]; intros index; cbn [fold_left].
  - now rewrite decide_False by apply not_elem_of_nil.
  - rewrite IH, postings_index_word.
    destruct (decide (w = w0)) as [->|Hne].
    + rewrite (decide_True (P := w0 ∈ w0 :: ws)) by apply list_elem_of_here.
      case_decide; [apply post_add_idem | reflexivity].
    + destruct (decide (w ∈ ws)) as [Hin|Hnin].
      * now rewrite decide_True by (now apply list_elem_of_further).
      * rewrite decide_False; [reflexivity|].
        intros [?|?]%elem_of_cons; contradiction.
Qed.

(** A word already indexed for the chunk is left as it is. *)
Lemma index_word_present (chunk_id : str)
    (index : gmap str (list str)) (w : str) (ids : list str) :
  index !! w = Some ids -> chunk_id ∈ ids -> index_word chunk_id index w = index.
Proof.
  intros H Hin. unfold index_word. rewrite H. simpl. rewrite H. simpl.
  now rewrite decide_True.
Qed.

Lemma postings_elem (index : gmap str (list str)) (w i : str) :
  i ∈ postings index w <-> exists ids, index !! w = Some ids /\ i ∈ ids.
Proof.
  unfold postings. destruct (index !! w) as [ids|]; simpl.
  - split; [intros Hi; now exists ids | now intros (? & [= <-] & Hi)].
  - split; [intros Hi; now apply not_elem_of_nil in Hi | now intros (? & [=] & _)].
Qed.

(** Indexing the same words for the same chunk a second time changes
    nothing. *)
Lemma fold_index_word_again (chunk_id : str) (ws : list str)
    (index : gmap str (list str)) :
  (forall w, w ∈ ws -> chunk_id ∈ postings index w) ->
  fold_left (index_word chunk_id) ws index = index.
Proof.
  induction ws as [|w0 ws IH]; intros Hall; cbn [fold_left]; [reflexivity|].
  destruct (proj1 (postings_elem _ _ _) (Hall w0 (list_elem_of_here _ _)))
    as (ids & E & Hin).
  rewrite (index_word_present _ _ _ _ E Hin).
  apply IH. intros w Hw. apply Hall. now apply list_elem_of_further.
Qed.

(** *** The clean-up loop *)

Lemma postings_unindex_word (chunk_id : str)
    (index : gmap str (list str)) (w0 w : str) :
  postings (unindex_word chunk_id index w0) w
  = if decide (w = w0) then remove_first chunk_id (postings index w)
    else postings index w.
Proof.
  unfold unindex_word, postings.
  destruct (decide (w = w0)) as [->|Hw];
    destruct (index !! w0) as [ids0|] eqn:E0; simpl.
  - destruct (decide (chunk_id ∈ ids0)) as [Hin|Hnin].
    + now rewrite lookup_insert_eq.
    + rewrite E0. simpl. now rewrite remove_first_notin.
  - now rewrite E0.
  - destruct (decide (chunk_id ∈ ids0)); [now rewrite lookup_insert_ne | reflexivity].
  - reflexivity.
Qed.

Lemma postings_fold_unindex_word (chunk_id : str) (ws : list str)
    (index : gmap str (list str)) (w : str) :
  NoDup ws ->
  postings (fold_left (unindex_word chunk_id) ws index) w
  = if decide (w ∈ ws) then remove_first chunk_id (postings index w)
    else postings index w.
Proof.
  intros Hnd. revert index.
  induction Hnd as [|w0 ws Hw0 Hnd IH]; intros index; cbn [fold_left].
  - now rewrite decide_False by apply not_elem_of_nil.
  - rewrite IH, postings_unindex_word.
    destruct (decide (w = w0)) as [->|Hne].
    + rewrite (decide_False (P := w0 ∈ ws)) by assumption.
      now rewrite decide_True by apply list_elem_of_here.
    + destruct (decide (w ∈ ws)) as [Hin|Hnin].
      * now rewrite decide_True by (now apply list_elem_of_further).
      * rewrite decide_False; [reflexivity|].
        intros [?|?]%elem_of_cons; contradiction.
Qed.

(** How often [x] occurs in [l]. *)
Definition occurrences (x : str) (l : list str) : nat :=
  length (filter (fun y => y = x) l).

Lemma occurrences_notin (x : str) (l : list str) :
  x ∉ l -> occurrences x l = 0%nat.
Proof.
  unfold occurrences. induction l as [|y l IH]; intros Hx; [reflexivity|].
  apply not_elem_of_cons in Hx as [Hne Hx].
  rewrite filter_cons. case_decide; [congruence | now apply IH].
Qed.

Lemma occurrences_NoDup (x : str) (l : list str) :
  NoDup l -> (occurrences x l <= 1)%nat.
Proof.
  intros Hnd. induction Hnd as [|y l Hy _ IH]; [unfold occurrences; simpl; lia|].
  unfold occurrences in *. rewrite filter_cons. case_decide as E; [|exact IH].
  subst y. simpl. pose proof (occurrences_notin x l Hy) as H0.
  unfold occurrences in H0. lia.
Qed.

Lemma occurrences_in (x : str) (l : list str) :
  NoDup l -> x ∈ l -> occurrences x l = 1%nat.
Proof.
  intros Hnd. induction Hnd as [|y l Hy _ IH]; intros Hx.
  - now apply not_elem_of_nil in Hx.
  - unfold occurrences in *. rewrite filter_cons.
    apply elem_of_cons in Hx as [->|Hx].
    + rewrite decide_True by reflexivity. simpl.
      pose proof (occurrences_notin y l Hy) as H0.
      unfold occurrences in H0. lia.
    + rewrite decide_False by (intros ->; contradiction). now apply IH.
Qed.

(** *** The score table *)

Lemma dict_get_set (d : list (str * Z)) (k : str) (v : Z) (k' : str) :
  dict_get (dict_set d k v) k' = if decide (k' = k) then v else dict_get d k'.
Proof.
  induction d as [|[k0 v0] d IH]; simpl.
  - repeat case_decide; congruence.
  - repeat (case_decide; simpl); subst; try congruence.
Qed.

Lemma dict_set_keys (d : list (str * Z)) (k : str) (v : Z) :
  (dict_set d k v).*1 = post_add k d.*1.
Proof.
  unfold post_add. induction d as [|[k0 v0] d IH]; cbn [dict_set].
  - now rewrite decide_False by apply not_elem_of_nil.
  - rewrite (fmap_cons fst (k0, v0) d). cbn [fst].
    destruct (decide (k0 = k)) as [->|Hne].
    + rewrite decide_True by apply list_elem_of_here. reflexivity.
    + rewrite fmap_cons, IH. cbn [fst].
      destruct (decide (k ∈ d.*1)) as [Hin|Hnin].
      * now rewrite decide_True by (now apply list_elem_of_further).
      * rewrite decide_False; [reflexivity|].
        intros [?|?]%elem_of_cons; [congruence | contradiction].
Qed.

Lemma dict_get_elem (d : list (str * Z)) (k : str) (v : Z) :
  NoDup d.*1 -> (k, v) ∈ d -> dict_get d k = v.
Proof.
  induction d as [|[k0 v0] d IH]; intros Hnd Hin.
  - now apply not_elem_of_nil in Hin.
  - simpl in *. apply NoDup_cons in Hnd as [Hk0 Hnd].
    apply elem_of_cons in Hin as [[= <- <-]|Hin].
    + now rewrite decide_True.
    + rewrite decide_False; [now apply IH|].
      intros ->. apply Hk0. apply list_elem_of_fmap. now exists (k, v).
Qed.

Lemma fold_bump_get (ids : list str) (d : list (str * Z)) (k : str) :
  dict_get (fold_left bump ids d) k = dict_get d k + Z.of_nat (occurrences k ids).
Proof.
  revert d. induction ids as [|i ids IH]; intros d; cbn [fold_left].
  - unfold occurrences. simpl. lia.
  - rewrite IH. unfold bump. rewrite dict_get_set.
    unfold occurrences. rewrite filter_cons.
    destruct (decide (k = i)) as [->|Hne].
    + rewrite decide_True by reflexivity. simpl length. lia.
    + rewrite decide_False by congruence. lia.
Qed.

Lemma fold_bump_keys (ids : list str) (d : list (str * Z)) :
  (NoDup d.*1 -> NoDup (fold_left bump ids d).*1) /\
  (forall k, k ∈ (fold_left bump ids d).*1 <-> k ∈ d.*1 \/ k ∈ ids).
Proof.
  revert d. induction ids as [|i ids IH]; intros d; cbn [fold_left].
  - split; [tauto|]. intros k. rewrite elem_of_nil. tauto.
  - destruct (IH (bump d i)) as [Hnd Hk]. unfold bump in *.
    rewrite dict_set_keys in *. split.
    + intros H. now apply Hnd, post_add_NoDup.
    + intros k. rewrite Hk, post_add_elem, elem_of_cons. tauto.
Qed.

(** How many of the postings lists of the words [qw] list [k], with
    multiplicity. *)
Definition hits (index : gmap str (list str)) (qw : list str)
    (k : str) : nat :=
  foldr (fun w acc => (occurrences k (postings index w) + acc)%nat) 0%nat qw.

Lemma score_word_postings (s : RAGStore) (d : list (str * Z)) (w : str) :
  score_word s d w = fold_left bump (postings (_index s) w) d.
Proof. unfold score_word, postings. now destruct (_index s !! w). Qed.

Lemma fold_score_word (s : RAGStore) (qw : list str) (d : list (str * Z)) :
  (NoDup d.*1 -> NoDup (fold_left (score_word s) qw d).*1) /\
  (forall k, k ∈ (fold_left (score_word s) qw d).*1
             <-> k ∈ d.*1 \/ exists w, w ∈ qw /\ k ∈ postings (_index s) w) /\
  (forall k, dict_get (fold_left (score_word s) qw d) k
             = dict_get d k + Z.of_nat (hits (_index s) qw k)).
Proof.
  revert d. induction qw as [|w qw IH]; intros d; cbn [fold_left].
  - split; [tauto|]. split.
    + intros k. split; [now left | intros [H|(w & Hw & _)]; [exact H|]].
      now apply not_elem_of_nil in Hw.
    + intros k. simpl. lia.
  - destruct (IH (score_word s d w)) as (Hnd & Hk & Hget).
    rewrite score_word_postings in *.
    destruct (fold_bump_keys (postings (_index s) w) d) as [Hnd0 Hk0].
    split; [|split].
    + intros H. now apply Hnd, Hnd0.
    + intros k. rewrite Hk, Hk0. split.
      * intros [[H|H]|(w' & Hw' & H)]; [now left| |].
        -- right. exists w. split; [apply list_elem_of_here | exact H].
        -- right. exists w'. split; [now apply list_elem_of_further | exact H].
      * intros [H|(w' & Hw' & H)]; [now left; left|].
        apply elem_of_cons in Hw' as [->|Hw'].
        -- left. now right.
        -- right. now exists w'.
    + intros k. rewrite Hget, fold_bump_get. simpl. lia.
Qed.

Lemma hits_NoDup (index : gmap str (list str)) (qw : list str)
    (k : str) :
  (forall w, NoDup (postings index w)) ->
  hits index qw k = length (filter (fun w => k ∈ postings index w) qw).
Proof.
  intros Hnd. induction qw as [|w qw IH]; [reflexivity|].
  simpl. rewrite filter_cons, IH. case_decide as Hin.
  - now rewrite occurrences_in by (apply Hnd || assumption).
  - now rewrite occurrences_notin.
Qed.

(** How many of the words [qw] the chunk has in its lower-cased content. *)
Definition matching (U : Py.Unicode) (qw : list str) (c : Chunk) : nat :=
  length (filter (fun w => w ∈ Py.split U (Py.lower U (content c))) qw).

(** The entry [search] builds from a scored chunk id, for an id the store
    holds. *)
Definition to_hit (s : RAGStore) (e : str * Q) : Hit :=
  {| hit_chunk_id := e.1;
     hit_score := e.2;
     hit_content := from_option content [] (_chunks s !! e.1);
     hit_doc_id := from_option doc_id [] (_chunks s !! e.1);
     hit_metadata := from_option metadata ∅ (_chunks s !! e.1) |}.

Lemma bind_Ok {A B} (a : A) (k : A -> result B) : (Ok a ≫= k) = k a.
Proof. reflexivity. Qed.

Lemma collect_make_hit (s : RAGStore) (l : list (str * Q)) :
  (forall e, e ∈ l -> is_Some (_chunks s !! e.1)) ->
  collect (make_hit s) l = Ok (to_hit s <$> l).
Proof.
  induction l as [|e l IH]; intros Hall; [reflexivity|].
  cbn [collect]. destruct (Hall e (list_elem_of_here _ _)) as [c Hc].
  assert (Hhit : make_hit s e = Ok (to_hit s e))
    by (unfold make_hit, to_hit; now rewrite Hc).
  rewrite Hhit, bind_Ok.
  rewrite IH by (intros e' He'; apply Hall; now apply list_elem_of_further).
  now rewrite bind_Ok.
Qed.

(** *** Invariants of the store *)

(** No postings list holds a chunk id twice. *)
Definition nodup_postings (s : RAGStore) : Prop :=
  forall w, NoDup (postings (_index s) w).

(** The postings index agrees with the chunks: an id is listed under a word
    exactly when the chunk stored under that id has the word in its
    lower-cased content (section 3 of the specification). *)
Definition consistent (U : Py.Unicode) (s : RAGStore) : Prop :=
  nodup_postings s /\
  forall w i,
    i ∈ postings (_index s) w
    <-> exists c, _chunks s !! i = Some c /\ w ∈ Py.split U (Py.lower U (content c)).

Section Store.

Variable U : Py.Unicode.
Variable md5_hexdigest : str -> str.
Variable O : SetOrder.

Abbreviation matching := (matching U).
Abbreviation consistent := (consistent U).
Abbreviation chunk_id_of content := (take 16 (md5_hexdigest content)).
Abbreviation add_chunk := (add_chunk U md5_hexdigest O).
Abbreviation delete_by_doc := (delete_by_doc U O).
Abbreviation delete_chunk := (delete_chunk U O).
Abbreviation delete_chunks := (delete_chunks U O).
Abbreviation search := (search U O).
Abbreviation words_of := (words_of U O).

Lemma words_of_elem (text w : str) :
  w ∈ words_of text <-> w ∈ Py.split U (Py.lower U text).
Proof. apply set_list_elem. Qed.

Lemma words_of_NoDup (text : str) : NoDup (words_of text).
Proof. apply set_list_NoDup. Qed.

Lemma consistent_init : consistent __init__.
Proof.
  split.
  - intros w. unfold postings. simpl. rewrite lookup_empty. constructor.
  - intros w i. unfold postings. simpl. rewrite !lookup_empty. simpl. split.
    + intros H. now apply not_elem_of_nil in H.
    + intros (c & H & _). discriminate.
Qed.

Lemma add_chunk_postings (s : RAGStore) (content doc_id : str)
    (metadata : option (gmap str str)) (w : str) :
  postings (_index (add_chunk s content doc_id metadata).2) w
  = if decide (w ∈ words_of content)
    then post_add (chunk_id_of content) (postings (_index s) w)
    else postings (_index s) w.
Proof. apply postings_fold_index_word. Qed.

Lemma add_chunk_nodup (s : RAGStore) (content doc_id : str)
    (metadata : option (gmap str str)) :
  nodup_postings s -> nodup_postings (add_chunk s content doc_id metadata).2.
Proof.
  intros H w. rewrite add_chunk_postings.
  case_decide; [apply post_add_NoDup|]; apply H.
Qed.

(** [add_chunk] keeps the index consistent unless the chunk id is already
    taken by a chunk with another content. *)
Lemma add_chunk_consistent (s : RAGStore) (content doc_id : str)
    (metadata : option (gmap str str)) :
  (forall c0, _chunks s !! chunk_id_of content = Some c0 ->
              Rag.content c0 = content) ->
  consistent s -> consistent (add_chunk s content doc_id metadata).2.
Proof.
  intros Hcol [Hnd Hcons]. split; [now apply add_chunk_nodup|].
  intros w i. rewrite add_chunk_postings. simpl.
  destruct (decide (i = chunk_id_of content)) as [->|Hi].
  - rewrite lookup_insert_eq. split.
    + intros Hin. eexists. split; [reflexivity|]. simpl.
      case_decide as Hw; [now apply words_of_elem|].
      apply Hcons in Hin as (c0 & Hc0 & Hw0).
      now rewrite <- (Hcol c0 Hc0).
    + intros (c & [= <-] & Hw). simpl in Hw.
      rewrite decide_True by now apply words_of_elem.
      apply post_add_elem. now right.
  - rewrite lookup_insert_ne by congruence. rewrite <- Hcons.
    case_decide; [|reflexivity].
    rewrite post_add_elem. split; [intros [?|?]; [assumption | contradiction] | now left].
Qed.

Lemma delete_chunk_Ok (s : RAGStore) (i : str) (c : Chunk) :
  _chunks s !! i = Some c ->
  delete_chunk s i
  = Ok {| _chunks := delete i (_chunks s);
          _index := fold_left (unindex_word i) (words_of (content c)) (_index s) |}.
Proof. intros H. unfold Rag.delete_chunk. now rewrite H. Qed.

Lemma delete_chunk_postings (s : RAGStore) (i : str) (c : Chunk) (w : str) :
  postings (fold_left (unindex_word i) (words_of (content c)) (_index s)) w
  = if decide (w ∈ words_of (content c))
    then remove_first i (postings (_index s) w)
    else postings (_index s) w.
Proof. apply postings_fold_unindex_word, words_of_NoDup. Qed.

Lemma delete_chunks_spec (ids : list str) (s : RAGStore) :
  NoDup ids ->
  (forall i, i ∈ ids -> is_Some (_chunks s !! i)) ->
  exists s',
    delete_chunks s ids = Ok s' /\
    (forall i, _chunks s' !! i
               = if decide (i ∈ ids) then None else _chunks s !! i) /\
    (nodup_postings s -> nodup_postings s') /\
    (consistent s -> consistent s').
Proof using O.
  clear md5_hexdigest.
  intros Hnd. revert s.
  induction Hnd as [|i0 ids Hi0 Hnd IH]; intros s Hdom.
  - exists s. split; [reflexivity|]. split; [|split; tauto].
    intros i. now rewrite decide_False by apply not_elem_of_nil.
  - destruct (Hdom i0 (list_elem_of_here _ _)) as [c Hc].
    cbn [Rag.delete_chunks]. rewrite (delete_chunk_Ok s i0 c Hc).
    set (s1 := {| _chunks := delete i0 (_chunks s);
                  _index := fold_left (unindex_word i0) (words_of (content c))
                              (_index s) |}).
    assert (Hnd1 : nodup_postings s -> nodup_postings s1).
    { intros H w. unfold s1. simpl. rewrite delete_chunk_postings.
      case_decide; [apply remove_first_NoDup|]; apply H. }
    assert (Hcons1 : consistent s -> consistent s1).
    { intros [Hn Hcons]. split; [now apply Hnd1|].
      intros w i. unfold s1. simpl. rewrite delete_chunk_postings.
      destruct (decide (i = i0)) as [->|Hne].
      - rewrite lookup_delete_eq. split; [|now intros (? & [=] & _)].
        intros Hin. exfalso. case_decide as Hw.
        + apply remove_first_elem in Hin as [_ Hin]; [congruence | apply Hn].
        + apply Hcons in Hin as (c' & Hc' & Hw').
          rewrite Hc in Hc'. injection Hc' as <-.
          now apply Hw, words_of_elem.
      - rewrite lookup_delete_ne by congruence. rewrite <- Hcons.
        case_decide; [|reflexivity].
        rewrite remove_first_elem by apply Hn. tauto. }
    destruct (IH s1) as (s' & Hrun & Hchunks & Hnd' & Hcons').
    { intros i Hi. unfold s1. simpl. rewrite lookup_delete_ne.
      - apply Hdom. now apply list_elem_of_further.
      - intros ->. contradiction. }
    exists s'. split; [exact Hrun|]. split; [|split; [tauto | tauto]].
    intros i. rewrite Hchunks. unfold s1. simpl.
    destruct (decide (i = i0)) as [->|Hne].
    + rewrite lookup_delete_eq.
      rewrite (decide_True (P := i0 ∈ i0 :: ids)) by apply list_elem_of_here.
      now case_decide.
    + rewrite lookup_delete_ne by congruence.
      destruct (decide (i ∈ ids)) as [Hin|Hnin].
      * now rewrite decide_True by (now apply list_elem_of_further).
      * rewrite decide_False; [reflexivity|].
        intros [?|?]%elem_of_cons; contradiction.
Qed.

(** *** [delete_by_doc] *)

Lemma to_delete_elem (s : RAGStore) (d i : str) :
  i ∈ to_delete s d <-> exists c, _chunks s !! i = Some c /\ doc_id c = d.
Proof.
  unfold to_delete. rewrite list_elem_of_fmap. split.
  - intros ([i' c] & -> & Hin). apply list_elem_of_filter in Hin as [Hd Hin].
    apply elem_of_map_to_list in Hin. now exists c.
  - intros (c & Hc & Hd). exists (i, c). split; [reflexivity|].
    apply list_elem_of_filter. split; [exact Hd|].
    now apply elem_of_map_to_list.
Qed.

Lemma to_delete_NoDup (s : RAGStore) (d : str) : NoDup (to_delete s d).
Proof.
  unfold to_delete.
  eapply sublist_NoDup; [apply (NoDup_fst_map_to_list (_chunks s))|].
  apply fmap_sublist, sublist_filter.
Qed.

Lemma to_delete_length (s : RAGStore) (d : str) :
  length (to_delete s d)
  = size (filter (fun kc : str * Chunk => doc_id kc.2 = d) (_chunks s)).
Proof.
  unfold to_delete. rewrite length_fmap.
  rewrite map_filter_alt, <- length_map_to_list.
  symmetry. apply Permutation_length, map_to_list_to_map.
  eapply sublist_NoDup; [apply (NoDup_fst_map_to_list (_chunks s))|].
  apply fmap_sublist, sublist_filter.
Qed.

(** [delete_by_doc] never raises; it drops exactly the chunks of the document
    and returns how many they were. *)
Lemma delete_by_doc_spec (s : RAGStore) (d : str) :
  exists s',
    delete_by_doc s d
    = Ok (Z.of_nat (size (filter (fun kc : str * Chunk => doc_id kc.2 = d)
                            (_chunks s))), s') /\
    _chunks s' = filter (fun kc : str * Chunk => doc_id kc.2 <> d) (_chunks s) /\
    (nodup_postings s -> nodup_postings s') /\
    (consistent s -> consistent s').
Proof.
  destruct (delete_chunks_spec (to_delete s d) s (to_delete_NoDup s d))
    as (s' & Hrun & Hchunks & Hnd & Hcons).
  { intros i Hi. apply to_delete_elem in Hi as (c & Hc & _). now exists c. }
  exists s'. split; [|split; [|now split]].
  - unfold Rag.delete_by_doc. rewrite Hrun. simpl.
    now rewrite to_delete_length.
  - apply map_eq. intros i. rewrite Hchunks. apply option_eq. intros c.
    rewrite map_lookup_filter_Some. simpl. case_decide as Hin.
    + apply to_delete_elem in Hin as (c' & Hc' & Hd').
      split; [discriminate|]. intros [Hc Hd]. congruence.
    + split.
      * intros Hc. split; [exact Hc|]. intros Hd. apply Hin, to_delete_elem.
        now exists c.
      * now intros [Hc _].
Qed.

(** *** [search] *)

Lemma table_spec (s : RAGStore) (qw : list str) (k : str) (v : Z) :
  consistent s ->
  (k, v) ∈ fold_left (score_word s) qw [] ->
  exists c, _chunks s !! k = Some c /\
            v = Z.of_nat (matching qw c) /\ (1 <= matching qw c)%nat.
Proof.
  intros [Hnd Hcons] Hin.
  destruct (fold_score_word s qw []) as (Hnd' & Hkeys & Hget).
  assert (Hk : k ∈ (fold_left (score_word s) qw []).*1)
    by (apply list_elem_of_fmap; now exists (k, v)).
  apply Hkeys in Hk as [Hk|(w & Hw & Hpost)]; [now apply not_elem_of_nil in Hk|].
  destruct (proj1 (Hcons w k) Hpost) as (c & Hc & Hwc).
  assert (Hfilter : filter (fun w => k ∈ postings (_index s) w) qw
                    = filter (fun w => w ∈ Py.split U (Py.lower U (content c))) qw).
  { apply list_filter_iff. intros w'. rewrite Hcons. split.
    - intros (c' & Hc' & Hw'). rewrite Hc in Hc'. now injection Hc' as <-.
    - intros Hw'. now exists c. }
  exists c. split; [exact Hc|].
  rewrite <- (dict_get_elem _ k v (Hnd' (NoDup_nil_2)) Hin).
  rewrite Hget. simpl. rewrite (hits_NoDup _ _ _ Hnd), Hfilter.
  split; [reflexivity|]. unfold matching.
  assert (Hmem : w ∈ filter (fun w => w ∈ Py.split U (Py.lower U (content c))) qw)
    by (apply list_elem_of_filter; now split).
  apply list_elem_of_lookup in Hmem as [j Hj].
  apply lookup_lt_Some in Hj. lia.
Qed.

Lemma normalize_elem (n : nat) (table : list (str * Z)) (e : str * Q) :
  e ∈ normalize n table ->
  exists v, (e.1, v) ∈ table /\
            e.2 = if decide (n = 0%nat) then inject_Z v else Qmake v (Pos.of_nat n).
Proof.
  unfold normalize. intros ([k v] & -> & Hin)%list_elem_of_fmap.
  now exists v.
Qed.

(** What [search] returns on a consistent store: no [KeyError], the entries
    in non-increasing order of score, each for a stored chunk that has at
    least one of the query words, scored by the share of the query words it
    has. *)
Lemma search_spec (s : RAGStore) (query : str) (top_k : Z) :
  consistent s ->
  exists entries,
    search s query top_k = Ok (to_hit s <$> entries) /\
    StronglySorted (SortFacts.before snd) entries /\
    (0 <= top_k -> Z.of_nat (length entries) <= top_k) /\
    forall e, e ∈ entries ->
      exists c, _chunks s !! e.1 = Some c /\
        (1 <= matching (words_of query) c)%nat /\
        e.2 = Qmake (Z.of_nat (matching (words_of query) c))
                    (Pos.of_nat (length (words_of query))).
Proof.
  intros Hcons.
  set (qw := words_of query).
  set (table := normalize (length qw) (fold_left (score_word s) qw [])).
  set (entries := Py.slice_to (sorted_desc snd table) top_k).
  assert (Hentry : forall e, e ∈ entries ->
            exists c, _chunks s !! e.1 = Some c /\
              (1 <= matching qw c)%nat /\
              e.2 = Qmake (Z.of_nat (matching qw c)) (Pos.of_nat (length qw))).
  { intros e He. unfold entries in He. rewrite SortFacts.slice_to_take in He.
    apply elem_of_take in He as (j & He & _).
    apply list_elem_of_lookup_2 in He.
    rewrite SortFacts.sorted_desc_Permutation in He.
    apply normalize_elem in He as (v & Hv & Hscore).
    destruct (table_spec s qw e.1 v Hcons Hv) as (c & Hc & -> & Hpos).
    exists c. split; [exact Hc|]. split; [exact Hpos|].
    rewrite Hscore. rewrite decide_False; [reflexivity|].
    intros Hlen. destruct qw; [|discriminate].
    unfold matching in Hpos. simpl in Hpos. lia. }
  exists entries. split; [|split; [|split]].
  - unfold Rag.search. fold qw. fold table. fold entries.
    apply collect_make_hit. intros e He.
    destruct (Hentry e He) as (c & Hc & _). now exists c.
  - unfold entries. rewrite SortFacts.slice_to_take.
    apply SortFacts.StronglySorted_take, SortFacts.sorted_desc_sorted.
  - intros Hk. now apply SortFacts.slice_to_length.
  - exact Hentry.
Qed.

(** *** Stores built by the operations *)

Inductive reachable : RAGStore -> Prop :=
| reach_init : reachable __init__
| reach_add_chunk s content doc_id metadata :
    reachable s -> reachable (add_chunk s content doc_id metadata).2
| reach_delete_by_doc s d n s' :
    reachable s -> delete_by_doc s d = Ok (n, s') -> reachable s'
| reach_clear s : reachable s -> reachable (clear s).

Lemma reachable_nodup (s : RAGStore) : reachable s -> nodup_postings s.
Proof.
  induction 1 as [|s content doc_id metadata _ IH|s d n s' _ IH Hdel|s _ _].
  - apply consistent_init.
  - now apply add_chunk_nodup.
  - destruct (delete_by_doc_spec s d) as (s'' & Hrun & _ & Hnd & _).
    rewrite Hrun in Hdel. injection Hdel as _ <-. now apply Hnd.
  - apply consistent_init.
Qed.

(** Stores built without giving one chunk id to two different contents;
    their index is consistent. *)
Inductive built : RAGStore -> Prop :=
| built_init : built __init__
| built_add_chunk s content doc_id metadata :
    built s ->
    (forall c0, _chunks s !! chunk_id_of content = Some c0 ->
                Rag.content c0 = content) ->
    built (add_chunk s content doc_id metadata).2
| built_delete_by_doc s d n s' :
    built s -> delete_by_doc s d = Ok (n, s') -> built s'
| built_clear s : built s -> built (clear s).

Lemma built_consistent (s : RAGStore) : built s -> consistent s.
Proof.
  induction 1 as [|s content doc_id metadata _ IH Hcol|s d n s' _ IH Hdel|s _ _].
  - apply consistent_init.
  - now apply add_chunk_consistent.
  - destruct (delete_by_doc_spec s d) as (s'' & Hrun & _ & _ & Hcons).
    rewrite Hrun in Hdel. injection Hdel as _ <-. now apply Hcons.
  - apply consistent_init.
Qed.

(** C4.  On a store whose index is consistent, for every query and every
    [top_k], [search] returns without raising, in non-increasing order of
    score; every entry is for a stored chunk, its score is positive and equals
    the number of distinct lower-cased query words that are words of the
    chunk's lower-cased content, divided by the number of distinct lower-cased
    query words; and a [top_k] that is not negative bounds the number of
    entries. *)
Theorem search_ranks_by_overlap (s : RAGStore) (query : str) (top_k : Z) :
  consistent s ->
  exists hits,
    search s query top_k = Ok hits /\
    (0 <= top_k -> Z.of_nat (length hits) <= top_k) /\
    StronglySorted (fun a b => (hit_score b <= hit_score a)%Q) hits /\
    forall h, h ∈ hits ->
      (0 < hit_score h)%Q /\
      exists c, _chunks s !! hit_chunk_id h = Some c /\
        hit_content h = content c /\
        hit_doc_id h = doc_id c /\
        hit_metadata h = metadata c /\
        hit_score h = Qmake (Z.of_nat (matching (words_of query) c))
                            (Pos.of_nat (length (words_of query))).
Proof.
  intros Hcons.
  destruct (search_spec s query top_k Hcons)
    as (entries & Hrun & Hsorted & Hlen & Hentry).
  exists (to_hit s <$> entries). split; [exact Hrun|].
  split; [rewrite length_fmap; exact Hlen|]. split.
  - eapply StronglySorted_fmap; [|exact Hsorted]. now intros x y H.
  - intros h (e & -> & He)%list_elem_of_fmap.
    destruct (Hentry e He) as (c & Hc & Hpos & Hscore).
    split.
    + simpl. rewrite Hscore. unfold Qlt. simpl. lia.
    + exists c. unfold to_hit. simpl. rewrite Hc. simpl. now repeat split.
Qed.

(** C3.  On a store whose index is consistent, [delete_by_doc] returns
    without raising; the chunks left are exactly those stored under another
    document id, the number returned is the number of chunks that were stored
    under the given one; afterwards no postings list holds the id of a removed
    chunk, and no search returns an entry of that document. *)
Theorem delete_by_doc_removes_document (s : RAGStore) (d : str) :
  consistent s ->
  exists s',
    delete_by_doc s d
    = Ok (Z.of_nat (size (filter (fun kc : str * Chunk => doc_id kc.2 = d)
                            (_chunks s))), s') /\
    _chunks s' = filter (fun kc : str * Chunk => doc_id kc.2 <> d) (_chunks s) /\
    (forall i c, _chunks s !! i = Some c -> doc_id c = d ->
       forall w ids, _index s' !! w = Some ids -> i ∉ ids) /\
    (forall query top_k,
       exists hits, search s' query top_k = Ok hits /\
                    forall h, h ∈ hits -> hit_doc_id h <> d).
Proof.
  intros Hcons.
  destruct (delete_by_doc_spec s d) as (s' & Hrun & Hchunks & _ & Hcons').
  specialize (Hcons' Hcons).
  exists s'. split; [exact Hrun|]. split; [exact Hchunks|]. split.
  - intros i c Hc Hd w ids Hw Hin.
    destruct Hcons' as [_ Hagree].
    assert (Hpost : i ∈ postings (_index s') w)
      by (now rewrite (postings_Some _ _ _ Hw)).
    apply Hagree in Hpost as (c' & Hc' & _).
    rewrite Hchunks in Hc'. apply map_lookup_filter_Some in Hc' as [Hc' Hd'].
    simpl in Hd'. congruence.
  - intros query top_k.
    destruct (search_spec s' query top_k Hcons')
      as (entries & Hsearch & _ & _ & Hentry).
    exists (to_hit s' <$> entries). split; [exact Hsearch|].
    intros h (e & -> & He)%list_elem_of_fmap.
    destruct (Hentry e He) as (c & Hc & _).
    unfold to_hit. simpl. rewrite Hc. simpl.
    rewrite Hchunks in Hc. apply map_lookup_filter_Some in Hc as [_ Hd].
    exact Hd.
Qed.

(** C5.  The chunk id [add_chunk] returns depends on the content alone,
    whatever the store, the document id and the metadata.  Adding the same
    content again to a store built by the operations returns the same id,
    leaves the postings index as it is, so that no postings list holds the id
    more than once, and leaves [chunk_count] as it is. *)
Theorem add_chunk_idempotent (s s0 : RAGStore) (content d1 d2 d0 : str)
    (md1 md2 md0 : option (gmap str str)) :
  reachable s ->
  let r1 := add_chunk s content d1 md1 in
  let r2 := add_chunk r1.2 content d2 md2 in
  (add_chunk s0 content d0 md0).1 = r1.1 /\
  r2.1 = r1.1 /\
  _index r2.2 = _index r1.2 /\
  (forall w ids, _index r2.2 !! w = Some ids -> (occurrences r1.1 ids <= 1)%nat) /\
  chunk_count r2.2 = chunk_count r1.2.
Proof.
  intros Hreach r1 r2.
  split; [reflexivity|]. split; [reflexivity|].
  assert (Hidx : _index r2.2 = _index r1.2).
  { unfold r2. cbn [Rag.add_chunk snd _index].
    apply fold_index_word_again. intros w Hw.
    unfold r1. rewrite add_chunk_postings.
    rewrite decide_True by assumption.
    apply post_add_elem. now right. }
  split; [exact Hidx|]. split.
  - intros w ids Hw. apply occurrences_NoDup.
    rewrite <- (postings_Some _ _ _ Hw).
    apply reachable_nodup. unfold r2, r1. now do 2 apply reach_add_chunk.
  - unfold chunk_count, r2, r1. cbn [Rag.add_chunk snd _chunks]. f_equal.
    apply map_size_insert_Some. rewrite lookup_insert_eq. now eexists.
Qed.

(** C9.  When the store holds a chunk under document [d1] and the same
    content is added under another document [d2], the chunk id is the same
    and the stored chunk is overwritten: it now belongs to [d2].  Deleting
    [d1] afterwards keeps the chunk and counts only the other chunks of [d1];
    deleting [d2] removes it and counts it. *)
Theorem add_chunk_reassigns_document (s : RAGStore) (content d1 d2 : str)
    (md1 md2 : option (gmap str str)) :
  d1 <> d2 ->
  let r1 := add_chunk s content d1 md1 in
  let r2 := add_chunk r1.2 content d2 md2 in
  let moved := {| Rag.content := content; doc_id := d2;
                  metadata := or_dict md2 |} in
  let others := delete r1.1 (_chunks s) in
  r2.1 = r1.1 /\
  (exists c1, _chunks r1.2 !! r1.1 = Some c1 /\ doc_id c1 = d1) /\
  _chunks r2.2 !! r1.1 = Some moved /\
  (exists t1,
     delete_by_doc r2.2 d1
     = Ok (Z.of_nat (size (filter (fun kc : str * Chunk => doc_id kc.2 = d1)
                             others)), t1) /\
     _chunks t1 !! r1.1 = Some moved) /\
  (exists t2,
     delete_by_doc r2.2 d2
     = Ok (1 + Z.of_nat (size (filter (fun kc : str * Chunk => doc_id kc.2 = d2)
                                 others)), t2) /\
     _chunks t2 !! r1.1 = None).
Proof.
  intros Hne r1 r2 moved others.
  set (i := chunk_id_of content).
  assert (Hchunks : _chunks r2.2 = <[i := moved]> (_chunks s)).
  { unfold r2, r1. cbn [Rag.add_chunk snd _chunks]. apply insert_insert_eq. }
  assert (Hi : r1.1 = i) by reflexivity.
  unfold others. rewrite Hi. clear Hi.
  split; [reflexivity|]. split; [|split; [|split]].
  - eexists. unfold r1. cbn [Rag.add_chunk snd _chunks].
    rewrite lookup_insert_eq. split; reflexivity.
  - now rewrite Hchunks, lookup_insert_eq.
  - destruct (delete_by_doc_spec r2.2 d1) as (t1 & Hrun & Ht1 & _).
    exists t1. split.
    + rewrite Hrun. do 3 f_equal. rewrite Hchunks.
      now rewrite map_filter_insert_False by (simpl; congruence).
    + rewrite Ht1. apply map_lookup_filter_Some.
      split; [now rewrite Hchunks, lookup_insert_eq | simpl; congruence].
  - destruct (delete_by_doc_spec r2.2 d2) as (t2 & Hrun & Ht2 & _).
    exists t2. split.
    + rewrite Hrun. do 2 f_equal. rewrite Hchunks.
      rewrite <- insert_delete_eq.
      rewrite map_filter_insert_True by reflexivity.
      rewrite map_size_insert_None;
        [rewrite Nat2Z.inj_succ; unfold Z.succ; apply Z.add_comm|].
      apply map_lookup_filter_None. left. apply lookup_delete_eq.
    + rewrite Ht2. apply map_lookup_filter_None. right.
      intros c Hc. rewrite Hchunks, lookup_insert_eq in Hc.
      injection Hc as <-. simpl. tauto.
Qed.

(** The same holds however the chunk of [d1] got into the store: only the
    chunk found under the id matters. *)
Lemma add_chunk_takes_over (s : RAGStore) (content d2 : str)
    (md2 : option (gmap str str)) (c1 : Chunk) :
  _chunks s !! chunk_id_of content = Some c1 -> doc_id c1 <> d2 ->
  let r := add_chunk s content d2 md2 in
  (exists c, _chunks r.2 !! r.1 = Some c /\ doc_id c = d2) /\
  (exists n t1, delete_by_doc r.2 (doc_id c1) = Ok (n, t1) /\
                is_Some (_chunks t1 !! r.1)) /\
  (exists n t2, delete_by_doc r.2 d2 = Ok (n, t2) /\ _chunks t2 !! r.1 = None).
Proof.
  intros Hc1 Hne r.
  assert (Hr : _chunks r.2 !! r.1
               = Some {| Rag.content := content; doc_id := d2;
                         metadata := or_dict md2 |})
    by (unfold r; cbn [Rag.add_chunk snd fst _chunks]; apply lookup_insert_eq).
  split; [eexists; split; [exact Hr | reflexivity]|]. split.
  - destruct (delete_by_doc_spec r.2 (doc_id c1)) as (t1 & Hrun & Ht1 & _).
    do 2 eexists. split; [exact Hrun|]. eexists. rewrite Ht1.
    apply map_lookup_filter_Some. split; [exact Hr | simpl; congruence].
  - destruct (delete_by_doc_spec r.2 d2) as (t2 & Hrun & Ht2 & _).
    do 2 eexists. split; [exact Hrun|]. rewrite Ht2.
    apply map_lookup_filter_None. right. intros c Hc.
    rewrite Hr in Hc. injection Hc as <-. simpl. tauto.
Qed.

End Store.

(** *** A store to run the theorems on

    The digests are those [hashlib.md5] gives for the six contents. *)

Definition md5_table (content : str) : str :=
  if decide (content = "Python is a programming language")
  then "94bcaa5331e66fc82a9fb47d56b740fe"
  else if decide (content = "JavaScript runs in browsers")
  then "160c74f3441e5c4631f79074c76c23f6"
  else if decide (content = "Python can be used for web development")
  then "52ccc04149cd42a54cfab5dba0902a8f"
  else if decide (content = "Content 1")
  then "81d6a1501eaff685ab50c7ff7d29d396"
  else if decide (content = "Content 2")
  then "96870b4c66a4a32bfc53a76c802bd30a"
  else if decide (content = "Content 3")
  then "e514979236a3b13cd9a4e81c43595f04"
  else "d41d8cd98f00b204e9800998ecf8427e".

Definition add (s : RAGStore) (content doc_id : str) : RAGStore :=
  (add_chunk Plain.unicode md5_table Orders.insertion_order s content doc_id None).2.

Definition library : RAGStore :=
  add (add (add __init__ "Python is a programming language" "doc1")
           "JavaScript runs in browsers" "doc2")
      "Python can be used for web development" "doc3".

Lemma library_consistent : consistent Plain.unicode library.
Proof.
  unfold library, add.
  repeat (apply add_chunk_consistent;
          [intros c0 H0; vm_compute in H0; discriminate|]).
  apply consistent_init.
Qed.

Lemma library_reachable :
  reachable Plain.unicode md5_table Orders.insertion_order library.
Proof. unfold library, add. repeat apply reach_add_chunk. apply reach_init. Qed.

Lemma delete_by_doc_removes_document_witness :
  consistent Plain.unicode library /\
  exists s',
    delete_by_doc Plain.unicode Orders.insertion_order library "doc1"
    = Ok (Z.of_nat (size (filter (fun kc : str * Chunk => doc_id kc.2 = "doc1")
                            (_chunks library))), s') /\
    _chunks s' = filter (fun kc : str * Chunk => doc_id kc.2 <> "doc1")
                   (_chunks library) /\
    (forall i c, _chunks library !! i = Some c -> doc_id c = "doc1" ->
       forall w ids, _index s' !! w = Some ids -> i ∉ ids) /\
    (forall query top_k,
       exists hits, search Plain.unicode Orders.insertion_order s' query top_k = Ok hits /\
                    forall h, h ∈ hits -> hit_doc_id h <> "doc1").
Proof.
  split; [exact library_consistent|].
  exact (delete_by_doc_removes_document Plain.unicode Orders.insertion_order library "doc1"
           library_consistent).
Defined.

Lemma search_ranks_by_overlap_witness :
  consistent Plain.unicode library /\
  exists hits,
    search Plain.unicode Orders.insertion_order library "Python programming" 2 = Ok hits /\
    (0 <= 2 -> Z.of_nat (length hits) <= 2) /\
    StronglySorted (fun a b => (hit_score b <= hit_score a)%Q) hits /\
    forall h, h ∈ hits ->
      (0 < hit_score h)%Q /\
      exists c, _chunks library !! hit_chunk_id h = Some c /\
        hit_content h = content c /\
        hit_doc_id h = doc_id c /\
        hit_metadata h = metadata c /\
        hit_score h
        = Qmake (Z.of_nat (matching Plain.unicode (words_of Plain.unicode Orders.insertion_order
                                       "Python programming") c))
                (Pos.of_nat (length (words_of Plain.unicode Orders.insertion_order
                                       "Python programming"))).
Proof.
  split; [exact library_consistent|].
  exact (search_ranks_by_overlap Plain.unicode Orders.insertion_order library
           "Python programming" 2 library_consistent).
Defined.

Lemma add_chunk_idempotent_witness :
  reachable Plain.unicode md5_table Orders.insertion_order library /\
  let r1 := add_chunk Plain.unicode md5_table Orders.insertion_order library
              "Content 1" "doc1" None in
  let r2 := add_chunk Plain.unicode md5_table Orders.insertion_order r1.2
              "Content 1" "doc2" None in
  (add_chunk Plain.unicode md5_table Orders.insertion_order __init__
     "Content 1" "doc9" (Some ∅)).1 = r1.1 /\
  r2.1 = r1.1 /\
  _index r2.2 = _index r1.2 /\
  (forall w ids, _index r2.2 !! w = Some ids -> (occurrences r1.1 ids <= 1)%nat) /\
  chunk_count r2.2 = chunk_count r1.2.
Proof.
  split; [exact library_reachable|].
  exact (add_chunk_idempotent Plain.unicode md5_table Orders.insertion_order library __init__
           "Content 1" "doc1" "doc2" "doc9" None None (Some ∅) library_reachable).
Defined.

Lemma doc1_not_doc2 : "doc1" <> "doc2".
Proof. discriminate. Qed.

Lemma add_chunk_reassigns_document_witness :
  "doc1" <> "doc2" /\
  let r1 := add_chunk Plain.unicode md5_table Orders.insertion_order library
              "Content 1" "doc1" None in
  let r2 := add_chunk Plain.unicode md5_table Orders.insertion_order r1.2
              "Content 1" "doc2" None in
  let moved := {| Rag.content := "Content 1"; doc_id := "doc2";
                  metadata := or_dict None |} in
  let others := delete r1.1 (_chunks library) in
  r2.1 = r1.1 /\
  (exists c1, _chunks r1.2 !! r1.1 = Some c1 /\ doc_id c1 = "doc1") /\
  _chunks r2.2 !! r1.1 = Some moved /\
  (exists t1,
     delete_by_doc Plain.unicode Orders.insertion_order r2.2 "doc1"
     = Ok (Z.of_nat (size (filter (fun kc : str * Chunk => doc_id kc.2 = "doc1")
                             others)), t1) /\
     _chunks t1 !! r1.1 = Some moved) /\
  (exists t2,
     delete_by_doc Plain.unicode Orders.insertion_order r2.2 "doc2"
     = Ok (1 + Z.of_nat (size (filter (fun kc : str * Chunk => doc_id kc.2 = "doc2")
                                 others)), t2) /\
     _chunks t2 !! r1.1 = None).
Proof.
  split; [exact doc1_not_doc2|].
  exact (add_chunk_reassigns_document Plain.unicode md5_table Orders.insertion_order library
           "Content 1" "doc1" "doc2" None None doc1_not_doc2).
Defined.

End RagFacts.

(** ** Query composition *)

Module QueryFacts.

Import Engine.

(** One labelled block of the grounding context. *)
Definition block (c : Chunk) : str :=
  "[Source: " ++ source c ++ "]" ++ nl ++ content c.

Section Query.

Variable U : Py.Unicode.

Lemma retrieve_relevant_elem (e : ResearchEngine) (question : str)
    (top_k : Z) (c : Chunk) :
  c ∈ _retrieve_relevant U e question top_k ->
  c ∈ _chunks e /\ (0 < score U (word_set U question) c)%Q.
Proof.
  unfold _retrieve_relevant. destruct (_chunks e) as [|c0 cs] eqn:E.
  - intros H. now apply not_elem_of_nil in H.
  - rewrite <- E. clear E c0 cs.
    intros ([q c'] & -> & Hin)%list_elem_of_fmap.
    apply list_elem_of_filter in Hin as [Hpos Hin].
    rewrite SortFacts.slice_to_take in Hin.
    apply elem_of_take in Hin as (j & Hin & _).
    apply list_elem_of_lookup_2 in Hin.
    rewrite SortFacts.sorted_desc_Permutation in Hin.
    apply list_elem_of_fmap in Hin as (c'' & [= -> ->] & Hc).
    split; assumption.
Qed.

(** With [top_k >= 1], a chunk that scores above zero makes the retrieval
    non-empty: the best-scored chunk comes first and passes the filter. *)
Lemma retrieve_relevant_nonempty (e : ResearchEngine) (question : str)
    (top_k : Z) (c : Chunk) :
  1 <= top_k -> c ∈ _chunks e -> (0 < score U (word_set U question) c)%Q ->
  _retrieve_relevant U e question top_k <> [].
Proof.
  intros Hk Hc Hpos. unfold _retrieve_relevant.
  destruct (_chunks e) as [|c0 cs] eqn:E; [now apply not_elem_of_nil in Hc|].
  rewrite <- E in *. clear E c0 cs.
  set (scored := sorted_desc fst
         ((fun chunk => (score U (word_set U question) chunk, chunk)) <$> _chunks e)).
  assert (Hin : (score U (word_set U question) c, c) ∈ scored).
  { unfold scored. rewrite SortFacts.sorted_desc_Permutation.
    apply list_elem_of_fmap. now exists c. }
  pose proof (SortFacts.sorted_desc_sorted fst
    ((fun chunk => (score U (word_set U question) chunk, chunk)) <$> _chunks e))
    as Hsorted.
  fold scored in Hsorted.
  destruct scored as [|x rest]; [now apply not_elem_of_nil in Hin|].
  assert (Hx : (0 < x.1)%Q).
  { apply elem_of_cons in Hin as [<-|Hin]; [exact Hpos|].
    apply StronglySorted_inv in Hsorted as [_ Hall].
    rewrite Forall_forall in Hall. specialize (Hall _ Hin).
    unfold SortFacts.before in Hall. simpl in Hall.
    eapply Qlt_le_trans; [exact Hpos | exact Hall]. }
  rewrite SortFacts.slice_to_take. unfold Py.clamp.
  destruct (Z.ltb_spec top_k 0); [lia|].
  destruct (Z.to_nat top_k `min` length (x :: rest))%nat as [|n] eqn:En;
    [simpl in En; lia|].
  cbn [take]. rewrite filter_cons, decide_True by exact Hx.
  discriminate.
Qed.

(** C8 (as amended).  When some chunk scores above zero for the question
    and [top_k >= 1], [query] retrieves at least one chunk, all of them stored
    and scoring above zero; it joins their ["[Source: ..]"] blocks with a blank
    line into the context of the prompt it sends to the model, answers with
    the model's response, and returns the sources of the retrieved chunks,
    each once, in the iteration order of a set. *)
Theorem query_grounds_on_retrieved (O : SetOrder)
    (llm_generate : str -> gmap str str) (e : ResearchEngine)
    (question : str) (session_id : option str) (top_k : Z) :
  1 <= top_k ->
  (exists c, c ∈ _chunks e /\ (0 < score U (word_set U question) c)%Q) ->
  let relevant := _retrieve_relevant U e question top_k in
  let context := Py.join (nl ++ nl) (block <$> relevant) in
  let r := query U O llm_generate e question session_id top_k in
  relevant <> [] /\
  (forall c, c ∈ relevant ->
             c ∈ _chunks e /\ (0 < score U (word_set U question) c)%Q) /\
  answer r
  = default [] (llm_generate (query_prompt context question) !! "response") /\
  NoDup (sources r) /\
  (forall src, src ∈ sources r <-> src ∈ source <$> relevant).
Proof.
  intros Hk (c & Hc & Hpos) relevant context r.
  pose proof (retrieve_relevant_nonempty e question top_k c Hk Hc Hpos) as Hne.
  fold relevant in Hne.
  split; [exact Hne|]. split; [intros c'; apply retrieve_relevant_elem|].
  unfold r, query. fold relevant.
  destruct relevant as [|c1 cs] eqn:E; [congruence|].
  cbn [answer sources]. split; [reflexivity|].
  split; [apply set_list_NoDup | apply set_list_elem].
Qed.

End Query.

(** *** An engine to run the theorem on *)

Definition ingest (e : ResearchEngine) (content source uuid4 : str)
  : ResearchEngine :=
  match ingest_document Plain.unicode e content source None uuid4 "2024-01-01T00:00:00+00:00" with
  | Ok (_, e') => e'
  | Raise _ => e
  end.

Definition two_documents : ResearchEngine :=
  ingest (ingest __init__ "alpha beta" "a.txt"
            "0b0e7a5c-51f4-4c58-9d0a-3f1f6c1d2a01")
         "alpha gamma" "b.txt" "6f9619ff-8b86-4d01-b42d-00cf4fc964ff".

Definition echo (prompt : str) : gmap str str :=
  {[ "response" := "ok" ]}.

Lemma query_grounds_on_retrieved_witness :
  1 <= 3 /\
  (exists c, c ∈ _chunks two_documents /\ (0 < score Plain.unicode (word_set Plain.unicode "alpha") c)%Q) /\
  let relevant := _retrieve_relevant Plain.unicode two_documents "alpha" 3 in
  let context := Py.join (nl ++ nl) (block <$> relevant) in
  let r := query Plain.unicode Orders.insertion_order echo two_documents "alpha" None 3 in
  relevant <> [] /\
  (forall c, c ∈ relevant ->
             c ∈ _chunks two_documents /\ (0 < score Plain.unicode (word_set Plain.unicode "alpha") c)%Q) /\
  answer r
  = default [] (echo (query_prompt context "alpha") !! "response") /\
  NoDup (sources r) /\
  (forall src, src ∈ sources r <-> src ∈ source <$> relevant).
Proof.
  assert (H : exists c, c ∈ _chunks two_documents
                        /\ (0 < score Plain.unicode (word_set Plain.unicode "alpha") c)%Q).
  { eexists. split; [apply list_elem_of_here|]. vm_compute. reflexivity. }
  split; [lia|]. split; [exact H|].
  apply (query_grounds_on_retrieved Plain.unicode Orders.insertion_order echo two_documents
           "alpha" None 3); [lia | exact H].
Defined.

(** C8 as stated fails on the order of the sources: [list(set(..))] follows
    the set's own order.  Where that order is the reverse of insertion, the
    two sources come back as [b.txt], [a.txt], while the retrieved chunks met
    [a.txt] first. *)
Lemma query_sources_not_in_first_seen_order :
  source <$> _retrieve_relevant Plain.unicode two_documents "alpha" 3 = ["a.txt"; "b.txt"] /\
  sources (query Plain.unicode Orders.reverse_order echo two_documents "alpha" None 3)
  = ["b.txt"; "a.txt"] /\
  sources (query Plain.unicode Orders.reverse_order echo two_documents "alpha" None 3)
  <> Orders.first_seen (source <$> _retrieve_relevant Plain.unicode two_documents "alpha" 3).
Proof. vm_compute. repeat split; discriminate. Qed.

End QueryFacts.

(** ** The repository's own tests, run on the model *)

Module SourceTests.

Import MemoryFacts RagFacts.

(** [test_max_history_limit]: five messages into a memory bounded by three. *)
Example test_max_history_limit :
  Memory.d_content <$>
    Memory.get_history epoch_iso
      (add_messages epoch_iso (Memory.__init__ default_settings (Some 3))
         "s1" five_calls) "s1" None
  = ["Message 2"; "Message 3"; "Message 4"].
Proof. vm_compute. reflexivity. Qed.

(** [test_get_context] *)
Example test_get_context :
  Memory.get_context Plain.unicode default_settings epoch_iso
    (add_messages epoch_iso (Memory.__init__ default_settings None) "s1"
       [user_says "Hello";
        {| call_role := "assistant"; call_content := "Hi there!";
           call_metadata := None; call_env := env0 |}])
    "s1" None
  = "USER: Hello" ++ Memory.nl ++ "ASSISTANT: Hi there!".
Proof. vm_compute. reflexivity. Qed.

(** The estimate of one two-word line is the double nearest to 2.6, and three
    of them add up to 7.800000000000001. *)
Example estimate_of_three_lines :
  Memory.msg_tokens Plain.unicode
    {| Memory.d_role := "user"; Memory.d_content := "hi";
       Memory.d_message_id := []; Memory.d_timestamp := [];
       Memory.d_metadata := ∅ |}
  = S754_finite false 5854679515581645 (-51) /\
  estimate Plain.unicode (Memory.get_history epoch_iso three_hi "s1" None)
  = S754_finite false 8782019273372468 (-50).
Proof. vm_compute. split; reflexivity. Qed.

(** [test_delete_by_doc] *)
Example test_delete_by_doc :
  let store := add (add (add Rag.__init__ "Content 1" "doc1")
                        "Content 2" "doc1") "Content 3" "doc2" in
  exists s', Rag.delete_by_doc Plain.unicode Orders.insertion_order store "doc1" = Ok (2, s')
             /\ Rag.chunk_count s' = 1.
Proof. eexists. vm_compute. split; reflexivity. Qed.

(** [test_add_and_search], and the scenario of the specification: the chunk
    of [doc1] has both query words, that of [doc3] one, that of [doc2] none. *)
Example test_add_and_search :
  (fun h => (Rag.hit_doc_id h, Rag.hit_score h)) <$>
    match Rag.search Plain.unicode Orders.insertion_order library "Python programming" 2 with
    | Ok hits => hits
    | Raise _ => []
    end
  = [("doc1", Qmake 2 2); ("doc3", Qmake 1 2)].
Proof. vm_compute. reflexivity. Qed.

(** [test_chunk_text]: 1000 words, windows of 100 with overlap 10. *)
Example test_chunk_text :
  match Engine._chunk_text Plain.unicode (Py.join " " (replicate 1000 "word")) 100 10 with
  | Ok chunks =>
      length chunks = 12%nat /\
      forallb (fun chunk => (length (Py.split Plain.unicode chunk) <=? 100)%nat) chunks = true
  | Raise _ => False
  end.
Proof. vm_compute. split; reflexivity. Qed.

End SourceTests.

(** ** Text outside ASCII, run on the model *)

Module TextExamples.

(** A no-break space parts two words. *)
Example chunk_text_no_break_space :
  Engine._chunk_text Plain.unicode ("a" ++ [160%N] ++ "b") 1 0
  = Ok ["a"; "b"].
Proof. vm_compute. reflexivity. Qed.

(** [École] and [école] are one word for the score. *)
Example score_folds_capital_e_acute :
  Engine.score Plain.unicode
    (Engine.word_set Plain.unicode ([233%N] ++ "cole"))
    {| Engine.doc_id := "d"; Engine.chunk_index := 0;
       Engine.content := [201%N] ++ "cole x"; Engine.source := "s" |}
  = 1%Q.
Proof. vm_compute. reflexivity. Qed.

(** A question that is one no-break space has no word. *)
Example word_set_of_no_break_space :
  Engine.word_set Plain.unicode [160%N] = ∅.
Proof. vm_compute. reflexivity. Qed.

End TextExamples.

(** * Further properties of the code *)

(** ** Session store: lifecycle and metadata *)

Module Sessions.

Import Memory MemoryFacts.

(** The dictionary [get_session_info] returns:
    [{"session_id": .., "message_count": len(..), **self._metadata.get(id, {})}];
    the entries of the metadata come last and win. *)
Record SessionInfoDict := {
  i_session_id : str;
  i_message_count : Z;
  i_created_at : option str;
  i_last_message_at : option str
}.

Definition get_session_info (m : ConversationMemory) (session_id : str)
  : option SessionInfoDict :=
  match _sessions m !! session_id with
  | None => None
  | Some messages =>
      Some match _metadata m !! session_id with
           | Some info =>
               {| i_session_id := session_id;
                  i_message_count := message_count info;
                  i_created_at := Some (created_at info);
                  i_last_message_at := last_message_at info |}
           | None =>
               {| i_session_id := session_id;
                  i_message_count := Z.of_nat (length messages);
                  i_created_at := None;
                  i_last_message_at := None |}
           end
  end.

(** Every session that has metadata exists, and its [message_count] is the
    length of its message list. *)
Definition in_sync (m : ConversationMemory) : Prop :=
  forall sid info,
    _metadata m !! sid = Some info ->
    exists messages,
      _sessions m !! sid = Some messages /\
      message_count info = Z.of_nat (length messages).

Section Lifecycle.

Variable settings : Settings.
Variable isoformat : Z -> str.

(** The memories a program can build. *)
Inductive reachable : ConversationMemory -> Prop :=
| reach_init max_history : reachable (__init__ settings max_history)
| reach_create m session_id env :
    reachable m -> reachable (create_session isoformat m session_id env).2
| reach_add m session_id role content metadata env :
    reachable m ->
    reachable (add_message isoformat m session_id role content metadata env).2
| reach_clear m session_id :
    reachable m -> reachable (clear_session m session_id).2
| reach_delete m session_id :
    reachable m -> reachable (delete_session m session_id).2.

Lemma in_sync_create (m : ConversationMemory) (session_id : option str)
    (env : Env) :
  in_sync m -> in_sync (create_session isoformat m session_id env).2.
Proof.
  intros Hm sid info. cbn [create_session snd _metadata _sessions].
  destruct (decide (or_str session_id (tok_session env) = sid)) as [<-|Hne].
  - rewrite !lookup_insert_eq. intros [= <-]. now exists [].
  - rewrite !lookup_insert_ne by assumption. apply Hm.
Qed.

Lemma in_sync_add (m : ConversationMemory) (session_id role content : str)
    (metadata : option (gmap str str)) (env : Env) :
  in_sync m ->
  in_sync (add_message isoformat m session_id role content metadata env).2.
Proof.
  intros Hm. unfold add_message. cbv zeta.
  set (m1 := match _sessions m !! session_id with
             | Some _ => m
             | None => (create_session isoformat m (Some session_id) env).2
             end).
  assert (H1 : in_sync m1)
    by (unfold m1; destruct (_sessions m !! session_id);
        [assumption | now apply in_sync_create]).
  clearbody m1. unfold in_sync. simpl.
  intros sid info.
  destruct (decide (session_id = sid)) as [<-|Hne].
  - rewrite lookup_insert_eq.
    destruct (_metadata m1 !! session_id) as [info1|] eqn:E.
    + rewrite lookup_insert_eq. intros [= <-]. eexists. split; reflexivity.
    + rewrite E. discriminate.
  - rewrite lookup_insert_ne by assumption.
    destruct (_metadata m1 !! session_id) as [info1|] eqn:E.
    + rewrite lookup_insert_ne by assumption. apply H1.
    + apply H1.
Qed.

Lemma in_sync_clear (m : ConversationMemory) (session_id : str) :
  in_sync m -> in_sync (clear_session m session_id).2.
Proof.
  intros Hm. unfold clear_session.
  destruct (_sessions m !! session_id) as [old|] eqn:Es; [|exact Hm].
  unfold in_sync. simpl. intros sid info.
  destruct (decide (session_id = sid)) as [<-|Hne].
  - rewrite lookup_insert_eq.
    destruct (_metadata m !! session_id) as [info1|] eqn:E.
    + rewrite lookup_insert_eq. intros [= <-]. now exists [].
    + rewrite E. discriminate.
  - rewrite lookup_insert_ne by assumption.
    destruct (_metadata m !! session_id) as [info1|] eqn:E.
    + rewrite lookup_insert_ne by assumption. apply Hm.
    + apply Hm.
Qed.

Lemma in_sync_delete (m : ConversationMemory) (session_id : str) :
  in_sync m -> in_sync (delete_session m session_id).2.
Proof.
  intros Hm. unfold delete_session.
  destruct (_sessions m !! session_id) as [old|] eqn:Es; [|exact Hm].
  unfold in_sync. simpl. intros sid info.
  destruct (decide (session_id = sid)) as [<-|Hne].
  - rewrite lookup_delete_eq. discriminate.
  - rewrite !lookup_delete_ne by assumption. apply Hm.
Qed.

Lemma reachable_in_sync (m : ConversationMemory) : reachable m -> in_sync m.
Proof.
  induction 1.
  - intros sid info H. cbn in H. now rewrite lookup_empty in H.
  - now apply in_sync_create.
  - now apply in_sync_add.
  - now apply in_sync_clear.
  - now apply in_sync_delete.
Qed.

(** X1.  In every memory built by [__init__], [create_session],
    [add_message], [clear_session] and [delete_session], the [message_count]
    that [get_session_info] reports is the number of messages [get_history]
    returns for the session. *)
Theorem session_info_counts_history (m : ConversationMemory)
    (session_id : str) (info : SessionInfoDict) :
  reachable m ->
  get_session_info m session_id = Some info ->
  i_message_count info
  = Z.of_nat (length (get_history isoformat m session_id None)).
Proof.
  intros Hm. apply reachable_in_sync in Hm.
  unfold get_session_info, get_history.
  destruct (_sessions m !! session_id) as [messages|] eqn:Es; [|discriminate].
  rewrite length_fmap.
  destruct (_metadata m !! session_id) as [meta|] eqn:Em; intros [= <-]; simpl.
  - destruct (Hm session_id meta Em) as (messages' & Hs & Hcount).
    rewrite Es in Hs. injection Hs as <-. exact Hcount.
  - reflexivity.
Qed.

End Lifecycle.

Lemma trim_single {A} (max_history : Z) (x : A) :
  0 <= max_history -> trim max_history [x] = [x].
Proof.
  intros H. unfold trim. cbn [length].
  destruct (Z.ltb_spec max_history (Z.of_nat 1)); [|reflexivity].
  replace max_history with 0 by lia. reflexivity.
Qed.

Definition a_memory : ConversationMemory :=
  add_messages epoch_iso (__init__ default_settings (Some 3)) "s1" five_calls.

Lemma a_memory_reachable : reachable default_settings epoch_iso a_memory.
Proof.
  unfold a_memory, add_messages, five_calls.
  cbn [fold_left fmap list_fmap].
  repeat apply reach_add. apply reach_init.
Qed.

Lemma session_info_counts_history_witness :
  reachable default_settings epoch_iso a_memory /\
  get_session_info a_memory "s1"
  = Some {| i_session_id := "s1"; i_message_count := 3;
            i_created_at := Some (epoch_iso 0);
            i_last_message_at := Some (epoch_iso 0) |} /\
  3 = Z.of_nat (length (get_history epoch_iso a_memory "s1" None)).
Proof.
  assert (H : get_session_info a_memory "s1"
              = Some {| i_session_id := "s1"; i_message_count := 3;
                        i_created_at := Some (epoch_iso 0);
                        i_last_message_at := Some (epoch_iso 0) |})
    by (vm_compute; reflexivity).
  split; [exact a_memory_reachable|]. split; [exact H|].
  exact (session_info_counts_history default_settings epoch_iso a_memory "s1" _
           a_memory_reachable H).
Defined.

(** X2.  [create_session] returns the id given, or the fresh token when the
    id is missing or empty, and (re)initialises that session: its history is
    empty afterwards even if it held messages before, its info shows a count
    of zero, and every other session is as it was. *)
Theorem create_session_resets (isoformat : Z -> str)
    (m : ConversationMemory) (session_id : option str) (env : Env) :
  let r := create_session isoformat m session_id env in
  r.1 = or_str session_id (tok_session env) /\
  max_history r.2 = max_history m /\
  get_history isoformat r.2 r.1 None = [] /\
  get_session_info r.2 r.1
  = Some {| i_session_id := r.1; i_message_count := 0;
            i_created_at := Some (isoformat (now_session env));
            i_last_message_at := None |} /\
  forall other, other <> r.1 ->
    get_history isoformat r.2 other None = get_history isoformat m other None /\
    get_session_info r.2 other = get_session_info m other.
Proof.
  intros r. unfold r, get_history, get_session_info. simpl.
  rewrite !lookup_insert_eq. repeat split; try reflexivity.
  all: rewrite ?lookup_insert_ne by congruence; reflexivity.
Qed.

(** X3.  The first [add_message] on an unknown, non-empty session id creates
    the session: its history is exactly the new message, and its info shows
    one message with both timestamps set.  The id returned is the first 16
    characters of the fresh token. *)
Theorem add_message_creates_session (isoformat : Z -> str)
    (m : ConversationMemory) (session_id role content : str)
    (metadata : option (gmap str str)) (env : Env) :
  _sessions m !! session_id = None -> session_id <> [] ->
  0 <= max_history m ->
  let r := add_message isoformat m session_id role content metadata env in
  r.1 = take 16 (tok_message env) /\
  get_history isoformat r.2 session_id None
  = [to_dict isoformat (new_message role content None metadata env)] /\
  get_session_info r.2 session_id
  = Some {| i_session_id := session_id; i_message_count := 1;
            i_created_at := Some (isoformat (now_session env));
            i_last_message_at := Some (isoformat (now_update env)) |}.
Proof.
  intros Hnew Hne Hmax r. unfold r, add_message. rewrite Hnew.
  assert (Hid : or_str (Some session_id) (tok_session env) = session_id)
    by (destruct session_id; [congruence | reflexivity]).
  cbv zeta. cbn [create_session snd fst _sessions _metadata max_history].
  rewrite Hid, !lookup_insert_eq. cbn [default id app length created_at].
  assert (Hkeep : (if max_history m <? Z.of_nat 1
                   then Py.slice_from [new_message role content None metadata env]
                          (- max_history m)
                   else [new_message role content None metadata env])
                  = [new_message role content None metadata env]).
  { destruct (Z.ltb_spec (max_history m) (Z.of_nat 1)); [|reflexivity].
    replace (max_history m) with 0 by lia. reflexivity. }
  rewrite Hkeep. unfold get_history, get_session_info.
  cbn [_sessions _metadata]. rewrite !lookup_insert_eq.
  split; [reflexivity|]. split; reflexivity.
Qed.

Lemma add_message_creates_session_witness :
  _sessions a_memory !! "s2" = None /\ "s2" <> [] /\
  0 <= max_history a_memory /\
  let r := add_message epoch_iso a_memory "s2" "user" "hello" None env0 in
  r.1 = take 16 (tok_message env0) /\
  get_history epoch_iso r.2 "s2" None
  = [to_dict epoch_iso (new_message "user" "hello" None None env0)] /\
  get_session_info r.2 "s2"
  = Some {| i_session_id := "s2"; i_message_count := 1;
            i_created_at := Some (epoch_iso (now_session env0));
            i_last_message_at := Some (epoch_iso (now_update env0)) |}.
Proof.
  assert (H1 : _sessions a_memory !! "s2" = None) by (vm_compute; reflexivity).
  assert (H2 : "s2" <> []) by discriminate.
  assert (H3 : 0 <= max_history a_memory) by (vm_compute; discriminate).
  split; [exact H1|]. split; [exact H2|]. split; [exact H3|].
  exact (add_message_creates_session epoch_iso a_memory "s2" "user" "hello"
           None env0 H1 H2 H3).
Defined.

(** X4.  [add_message] on a session that is known, or whose id is not empty,
    leaves every other session as it was: same history, same info. *)
Theorem add_message_other_sessions (isoformat : Z -> str)
    (m : ConversationMemory) (session_id role content : str)
    (metadata : option (gmap str str)) (env : Env) (other : str) :
  session_id <> [] \/ is_Some (_sessions m !! session_id) ->
  other <> session_id ->
  let r := add_message isoformat m session_id role content metadata env in
  get_history isoformat r.2 other None = get_history isoformat m other None /\
  get_session_info r.2 other = get_session_info m other.
Proof.
  intros Hid Hother r. unfold r, add_message. cbv zeta.
  set (m1 := match _sessions m !! session_id with
             | Some _ => m
             | None => (create_session isoformat m (Some session_id) env).2
             end).
  assert (H1 : _sessions m1 !! other = _sessions m !! other
               /\ _metadata m1 !! other = _metadata m !! other).
  { unfold m1. destruct (_sessions m !! session_id) as [old|] eqn:E;
      [split; reflexivity|].
    destruct Hid as [Hne|[? ?]]; [|discriminate].
    assert (Hs : or_str (Some session_id) (tok_session env) = session_id)
      by (destruct session_id; [congruence | reflexivity]).
    cbn [create_session snd _sessions _metadata]. rewrite Hs.
    now rewrite !lookup_insert_ne by congruence. }
  clearbody m1. destruct H1 as [Hs Hm].
  unfold get_history, get_session_info. simpl.
  rewrite lookup_insert_ne by congruence. rewrite Hs.
  destruct (_metadata m1 !! session_id);
    rewrite ?lookup_insert_ne by congruence; rewrite Hm; split; reflexivity.
Qed.

Lemma add_message_other_sessions_witness :
  ("s2" <> [] \/ is_Some (_sessions a_memory !! "s2")) /\
  "s1" <> "s2" /\
  let r := add_message epoch_iso a_memory "s2" "user" "hello" None env0 in
  get_history epoch_iso r.2 "s1" None = get_history epoch_iso a_memory "s1" None /\
  get_session_info r.2 "s1" = get_session_info a_memory "s1".
Proof.
  assert (H1 : "s2" <> [] \/ is_Some (_sessions a_memory !! "s2"))
    by (left; discriminate).
  assert (H2 : "s1" <> "s2") by discriminate.
  split; [exact H1|]. split; [exact H2|].
  exact (add_message_other_sessions epoch_iso a_memory "s2" "user" "hello"
           None env0 "s1" H1 H2).
Defined.

(** X5.  [add_message] with the empty string as session id, on a memory that
    has no such session: [create_session] takes the empty id for a missing one
    and creates an empty session under a fresh token, while the message is
    stored under the empty id, where the [defaultdict] makes a list for it.
    That session has no metadata, so its info carries no [created_at]. *)
Theorem add_message_empty_session_id (settings : Settings)
    (isoformat : Z -> str) (m : ConversationMemory) (role content : str)
    (metadata : option (gmap str str)) (env : Env) :
  reachable settings isoformat m ->
  _sessions m !! [] = None ->
  tok_session env <> [] ->
  0 <= max_history m ->
  let r := add_message isoformat m [] role content metadata env in
  get_history isoformat r.2 (tok_session env) None = [] /\
  get_session_info r.2 (tok_session env)
  = Some {| i_session_id := tok_session env; i_message_count := 0;
            i_created_at := Some (isoformat (now_session env));
            i_last_message_at := None |} /\
  get_history isoformat r.2 [] None
  = [to_dict isoformat (new_message role content None metadata env)] /\
  get_session_info r.2 []
  = Some {| i_session_id := []; i_message_count := 1;
            i_created_at := None; i_last_message_at := None |}.
Proof.
  intros Hm Hnew Htok Hmax r.
  assert (Hmeta : _metadata m !! [] = None).
  { destruct (_metadata m !! []) as [info|] eqn:E; [|reflexivity].
    destruct (reachable_in_sync settings isoformat m Hm _ _ E) as (? & Hs & _).
    congruence. }
  unfold r, add_message. rewrite Hnew. cbv zeta.
  cbn [create_session snd fst _sessions _metadata max_history or_str].
  rewrite !(lookup_insert_ne _ (tok_session env) []) by assumption.
  rewrite Hnew, Hmeta. cbn [default id app length].
  assert (Hkeep : (if max_history m <? Z.of_nat 1
                   then Py.slice_from [new_message role content None metadata env]
                          (- max_history m)
                   else [new_message role content None metadata env])
                  = [new_message role content None metadata env]).
  { destruct (Z.ltb_spec (max_history m) (Z.of_nat 1)); [|reflexivity].
    replace (max_history m) with 0 by lia. reflexivity. }
  rewrite Hkeep. unfold get_history, get_session_info.
  cbn [_sessions _metadata].
  rewrite !lookup_insert_eq.
  rewrite !(lookup_insert_ne _ [] (tok_session env)) by congruence.
  rewrite !lookup_insert_eq.
  rewrite !(lookup_insert_ne _ (tok_session env) []) by assumption.
  rewrite Hmeta. repeat split; reflexivity.
Qed.

Lemma add_message_empty_session_id_witness :
  reachable default_settings epoch_iso a_memory /\
  _sessions a_memory !! [] = None /\
  tok_session env0 <> [] /\
  0 <= max_history a_memory /\
  let r := add_message epoch_iso a_memory [] "user" "hello" None env0 in
  get_history epoch_iso r.2 (tok_session env0) None = [] /\
  get_session_info r.2 (tok_session env0)
  = Some {| i_session_id := tok_session env0; i_message_count := 0;
            i_created_at := Some (epoch_iso (now_session env0));
            i_last_message_at := None |} /\
  get_history epoch_iso r.2 [] None
  = [to_dict epoch_iso (new_message "user" "hello" None None env0)] /\
  get_session_info r.2 []
  = Some {| i_session_id := []; i_message_count := 1;
            i_created_at := None; i_last_message_at := None |}.
Proof.
  assert (H1 : _sessions a_memory !! [] = None)
    by (vm_compute; reflexivity).
  assert (H2 : tok_session env0 <> []) by discriminate.
  assert (H3 : 0 <= max_history a_memory) by (vm_compute; discriminate).
  split; [exact a_memory_reachable|].
  split; [exact H1|]. split; [exact H2|]. split; [exact H3|].
  exact (add_message_empty_session_id default_settings epoch_iso a_memory
           "user" "hello" None env0 a_memory_reachable H1 H2 H3).
Defined.

(** X6.  [clear_session] answers whether the session is known.  A known
    session stays known with an empty history, every other session keeps its
    history, and the next [add_message] leaves exactly its own message; an
    unknown session leaves the memory untouched. *)
Theorem clear_session_empties (isoformat : Z -> str)
    (m : ConversationMemory) (session_id role content : str)
    (metadata : option (gmap str str)) (env : Env) :
  0 <= max_history m ->
  let r := clear_session m session_id in
  r.1 = bool_decide (is_Some (_sessions m !! session_id)) /\
  (r.1 = false -> r.2 = m) /\
  (r.1 = true ->
     _sessions r.2 !! session_id = Some [] /\
     get_history isoformat
       (add_message isoformat r.2 session_id role content metadata env).2
       session_id None
     = [to_dict isoformat (new_message role content None metadata env)]) /\
  forall other, other <> session_id ->
    get_history isoformat r.2 other None = get_history isoformat m other None.
Proof.
  intros Hmax r. unfold r, clear_session.
  destruct (_sessions m !! session_id) as [old|] eqn:E; cbn [fst snd].
  - split; [now rewrite bool_decide_eq_true_2 by eauto|].
    split; [discriminate|]. split.
    + intros _. cbn [_sessions]. rewrite lookup_insert_eq.
      split; [reflexivity|].
      set (m' := {| max_history := max_history m;
                    _sessions := <[session_id:=[]]> (_sessions m);
                    _metadata := _ |}).
      destruct (add_message_session isoformat m' session_id role content
                  metadata env) as [_ Hs].
      unfold get_history. rewrite Hs. unfold m'. cbn [_sessions max_history].
      rewrite lookup_insert_eq.
      change (default [] (Some []) ++ [new_message role content None metadata env])
        with [new_message role content None metadata env].
      now rewrite trim_single.
    + intros other Hother. unfold get_history. cbn [_sessions].
      now rewrite lookup_insert_ne by congruence.
  - split; [rewrite bool_decide_eq_false_2; [reflexivity|]|].
    + intros [? ?]. discriminate.
    + split; [reflexivity|]. split; [discriminate|]. reflexivity.
Qed.

Lemma clear_session_empties_witness :
  0 <= max_history a_memory /\
  let r := clear_session a_memory "s1" in
  r.1 = bool_decide (is_Some (_sessions a_memory !! "s1")) /\
  (r.1 = false -> r.2 = a_memory) /\
  (r.1 = true ->
     _sessions r.2 !! "s1" = Some [] /\
     get_history epoch_iso
       (add_message epoch_iso r.2 "s1" "user" "hello" None env0).2 "s1" None
     = [to_dict epoch_iso (new_message "user" "hello" None None env0)]) /\
  forall other, other <> "s1" ->
    get_history epoch_iso r.2 other None = get_history epoch_iso a_memory other None.
Proof.
  assert (H : 0 <= max_history a_memory) by (vm_compute; discriminate).
  split; [exact H|].
  exact (clear_session_empties epoch_iso a_memory "s1" "user" "hello" None env0 H).
Defined.

(** X7.  [delete_session] answers whether the session was known; afterwards
    the session has no history and no info, deleting it again answers
    [False], and every other session is as it was. *)
Theorem delete_session_forgets (isoformat : Z -> str)
    (m : ConversationMemory) (session_id : str) :
  let r := delete_session m session_id in
  r.1 = bool_decide (is_Some (_sessions m !! session_id)) /\
  (r.1 = false -> r.2 = m) /\
  get_history isoformat r.2 session_id None = [] /\
  get_session_info r.2 session_id = None /\
  delete_session r.2 session_id = (false, r.2) /\
  forall other, other <> session_id ->
    get_history isoformat r.2 other None = get_history isoformat m other None /\
    get_session_info r.2 other = get_session_info m other.
Proof.
  intros r. unfold r, delete_session, get_history, get_session_info.
  destruct (_sessions m !! session_id) as [old|] eqn:E; cbn [fst snd _sessions _metadata].
  - rewrite !lookup_delete_eq.
    split; [now rewrite bool_decide_eq_true_2 by eauto|].
    split; [discriminate|]. repeat split; try reflexivity.
    all: now rewrite !lookup_delete_ne by congruence.
  - rewrite E.
    split; [rewrite bool_decide_eq_false_2; [reflexivity|intros [? ?]; discriminate]|].
    repeat split; reflexivity.
Qed.

(** X8.  [get_history] with a non-zero [limit]: a positive limit selects the
    last [limit] messages of the history (all of them when there are fewer),
    in order; a negative limit [-k] drops the [k] oldest messages instead. *)
Theorem get_history_limit (isoformat : Z -> str) (m : ConversationMemory)
    (session_id : str) (limit : Z) :
  limit <> 0 ->
  get_history isoformat m session_id (Some limit)
  = if 0 <? limit
    then last_n (Z.to_nat limit) (get_history isoformat m session_id None)
    else drop (Z.to_nat (- limit)) (get_history isoformat m session_id None).
Proof.
  intros Hne. unfold get_history.
  destruct (_sessions m !! session_id) as [messages|].
  - destruct (Z.eqb_spec limit 0) as [?|_]; [contradiction|].
    unfold Py.slice_from, Py.clamp, last_n.
    rewrite fmap_drop, length_fmap.
    destruct (Z.ltb_spec 0 limit) as [Hpos|Hneg].
    + destruct (Z.ltb_spec (- limit) 0) as [_|?]; [|lia]. f_equal. lia.
    + destruct (Z.ltb_spec (- limit) 0) as [?|_]; [lia|].
      destruct (le_lt_dec (Z.to_nat (- limit)) (length messages)) as [H|H].
      * now rewrite Nat.min_l by lia.
      * rewrite Nat.min_r by lia. now rewrite !drop_ge by (rewrite ?length_fmap; lia).
  - destruct (0 <? limit); [reflexivity | now rewrite drop_nil].
Qed.

Lemma get_history_limit_witness :
  2 <> 0 /\
  get_history epoch_iso a_memory "s1" (Some 2)
  = if 0 <? 2
    then last_n (Z.to_nat 2) (get_history epoch_iso a_memory "s1" None)
    else drop (Z.to_nat (- 2)) (get_history epoch_iso a_memory "s1" None).
Proof.
  assert (H : 2 <> 0) by discriminate.
  split; [exact H|]. exact (get_history_limit epoch_iso a_memory "s1" 2 H).
Defined.

(** X9.  Nothing raises on an unknown session: its history is empty, its
    context is the empty string, it has no info, and clearing or deleting it
    answers [False] and changes nothing. *)
Theorem unknown_session (U : Py.Unicode) (settings : Settings)
    (isoformat : Z -> str)
    (m : ConversationMemory) (session_id : str) (limit max_tokens : option Z) :
  _sessions m !! session_id = None ->
  get_history isoformat m session_id limit = [] /\
  get_context U settings isoformat m session_id max_tokens = [] /\
  get_session_info m session_id = None /\
  clear_session m session_id = (false, m) /\
  delete_session m session_id = (false, m).
Proof.
  intros H.
  unfold get_context, get_history, get_session_info, clear_session, delete_session.
  rewrite H. repeat split; reflexivity.
Qed.

Lemma unknown_session_witness :
  _sessions a_memory !! "s2" = None /\
  get_history epoch_iso a_memory "s2" (Some 5) = [] /\
  get_context Plain.unicode default_settings epoch_iso a_memory "s2" None = [] /\
  get_session_info a_memory "s2" = None /\
  clear_session a_memory "s2" = (false, a_memory) /\
  delete_session a_memory "s2" = (false, a_memory).
Proof.
  assert (H : _sessions a_memory !! "s2" = None) by (vm_compute; reflexivity).
  split; [exact H|].
  exact (unknown_session Plain.unicode default_settings epoch_iso a_memory "s2" (Some 5) None H).
Defined.

(** X10.  A memory whose [max_history] is zero (a zero argument to
    [__init__] is replaced by the setting, so this takes a setting of zero)
    never trims: [messages[-0:]] is the whole list, and the session keeps
    every message appended. *)
Theorem zero_bound_keeps_everything (isoformat : Z -> str)
    (m : ConversationMemory) (session_id : str) (calls : list Call) :
  max_history m = 0 -> calls <> [] ->
  _sessions (add_messages isoformat m session_id calls) !! session_id
  = Some (default [] (_sessions m !! session_id) ++ (message_of <$> calls)).
Proof.
  revert m. induction calls as [|c calls IH]; intros m Hzero Hne; [congruence|].
  rewrite add_messages_cons.
  destruct (add_message_session isoformat m session_id (call_role c)
              (call_content c) (call_metadata c) (call_env c)) as [Hmax Hses].
  assert (Htrim : forall l : list Message, trim 0 l = l).
  { intros l. unfold trim, Py.slice_from, Py.clamp.
    destruct (0 <? Z.of_nat (length l)); reflexivity. }
  rewrite Hzero, Htrim in Hses.
  destruct calls as [|c' calls].
  - change (add_messages isoformat ?x session_id []) with x. exact Hses.
  - rewrite IH; [|now rewrite Hmax|discriminate].
    rewrite Hses. simpl default. now rewrite <- app_assoc.
Qed.

Definition unbounded_settings : Settings :=
  {| max_conversation_history := 0; max_context_tokens := 4096 |}.

Lemma zero_bound_keeps_everything_witness :
  max_history (__init__ unbounded_settings (Some 0)) = 0 /\
  five_calls <> [] /\
  _sessions (add_messages epoch_iso (__init__ unbounded_settings (Some 0))
               "s1" five_calls) !! "s1"
  = Some (default [] (_sessions (__init__ unbounded_settings (Some 0)) !! "s1")
          ++ (message_of <$> five_calls)).
Proof.
  assert (H1 : max_history (__init__ unbounded_settings (Some 0)) = 0)
    by reflexivity.
  assert (H2 : five_calls <> []) by discriminate.
  split; [exact H1|]. split; [exact H2|].
  exact (zero_bound_keeps_everything epoch_iso
           (__init__ unbounded_settings (Some 0)) "s1" five_calls H1 H2).
Defined.

(** The loop of [get_context] stops at the first message that does not
    fit: when the estimate of the most recent message alone is above the
    budget, the context is empty, whatever the older messages are. *)
Theorem get_context_newest_too_large (U : Py.Unicode) (settings : Settings)
    (isoformat : Z -> str) (m : ConversationMemory) (session_id : str)
    (max_tokens : option Z) (older : list MessageDict) (newest : MessageDict) :
  get_history isoformat m session_id None = older ++ [newest] ->
  F64.gt_int (F64.add (F64.of_int 0) (msg_tokens U newest))
    (or_int max_tokens (max_context_tokens settings)) = true ->
  get_context U settings isoformat m session_id max_tokens = [].
Proof.
  intros Hhist Hbig. unfold get_context.
  rewrite Hhist, reverse_snoc. cbn [context_loop]. now rewrite Hbig.
Qed.

Lemma get_context_newest_too_large_witness :
  get_history epoch_iso three_hi "s1" None
  = removelast (get_history epoch_iso three_hi "s1" None)
    ++ [to_dict epoch_iso (message_of (user_says "hi"))] /\
  F64.gt_int (F64.add (F64.of_int 0)
                (msg_tokens Plain.unicode (to_dict epoch_iso (message_of (user_says "hi")))))
    (or_int (Some 2) (max_context_tokens default_settings)) = true /\
  get_context Plain.unicode default_settings epoch_iso three_hi "s1" (Some 2) = [].
Proof.
  assert (H1 : get_history epoch_iso three_hi "s1" None
               = removelast (get_history epoch_iso three_hi "s1" None)
                 ++ [to_dict epoch_iso (message_of (user_says "hi"))])
    by (vm_compute; reflexivity).
  assert (H2 : F64.gt_int (F64.add (F64.of_int 0)
                 (msg_tokens Plain.unicode (to_dict epoch_iso (message_of (user_says "hi")))))
                 (or_int (Some 2) (max_context_tokens default_settings)) = true)
    by (vm_compute; reflexivity).
  split; [exact H1|]. split; [exact H2|].
  exact (get_context_newest_too_large Plain.unicode default_settings epoch_iso three_hi "s1"
           (Some 2) _ _ H1 H2).
Defined.

End Sessions.

(** ** Knowledge store: lookups, deletion and what stays behind *)

Module StoreFacts.

Import Rag RagFacts.

Lemma nil_no_elem {A} (l : list A) : (forall x, x ∉ l) -> l = [].
Proof.
  destruct l as [|x l]; [reflexivity|].
  intros H. exfalso. apply (H x), list_elem_of_here.
Qed.

Lemma singleton_list (l : list str) (a : str) :
  NoDup l -> (forall x, x ∈ l <-> x = a) -> l = [a].
Proof.
  intros Hnd H. destruct l as [|x l].
  - exfalso. eapply not_elem_of_nil. apply H. reflexivity.
  - assert (x = a) as -> by (apply H, list_elem_of_here).
    apply NoDup_cons in Hnd as [Hx _]. f_equal. apply nil_no_elem.
    intros y Hy. assert (y = a) as -> by (apply H; now apply list_elem_of_further).
    contradiction.
Qed.

Lemma keys_bounded {V} (l : list str) (m : gmap str V) :
  NoDup l -> (forall x, x ∈ l -> is_Some (m !! x)) -> (length l <= size m)%nat.
Proof.
  intros Hnd Hin. rewrite <- length_map_to_list, <- (length_fmap fst).
  apply submseteq_length, NoDup_submseteq; [exact Hnd|].
  intros x Hx. destruct (Hin x Hx) as [v Hv].
  apply list_elem_of_fmap. exists (x, v). split; [reflexivity|].
  now apply elem_of_map_to_list.
Qed.

Lemma normalize_keys (n : nat) (table : list (str * Z)) :
  (normalize n table).*1 = table.*1.
Proof.
  unfold normalize. induction table as [|[k v] table IH]; [reflexivity|].
  rewrite !fmap_cons, IH. reflexivity.
Qed.

Section Store.

Variable U : Py.Unicode.
Variable md5_hexdigest : str -> str.
Variable O : SetOrder.

Abbreviation consistent := (consistent U).
Abbreviation matching := (matching U).

(** The scored ids [search] sorts, and the entries it keeps. *)
Definition table (s : RAGStore) (query : str) : list (str * Q) :=
  normalize (length (words_of U O query))
    (fold_left (score_word s) (words_of U O query) []).

Lemma search_unfold (s : RAGStore) (query : str) (top_k : Z) :
  search U O s query top_k
  = collect (make_hit s) (Py.slice_to (sorted_desc snd (table s query)) top_k).
Proof. reflexivity. Qed.

Lemma table_keys (s : RAGStore) (query : str) :
  NoDup (table s query).*1 /\
  forall i, i ∈ (table s query).*1
            <-> exists w, w ∈ words_of U O query /\ i ∈ postings (_index s) w.
Proof.
  unfold table. rewrite normalize_keys.
  destruct (fold_score_word s (words_of U O query) []) as (Hnd & Hk & _).
  split; [apply Hnd; constructor|].
  intros i. rewrite Hk. split; [|now right].
  intros [H|H]; [now apply not_elem_of_nil in H | exact H].
Qed.

Lemma table_stored (s : RAGStore) (query : str) (e : str * Q) :
  consistent s -> e ∈ table s query -> is_Some (_chunks s !! e.1).
Proof.
  intros [_ Hcons] He.
  assert (Hk : e.1 ∈ (table s query).*1)
    by (apply list_elem_of_fmap; now exists e).
  apply table_keys in Hk as (w & _ & Hpost).
  apply Hcons in Hpost as (c & Hc & _). now exists c.
Qed.

(** With [top_k] at least the number of chunks the slice cuts nothing off. *)
Lemma search_uncut (s : RAGStore) (query : str) (top_k : Z) :
  consistent s -> chunk_count s <= top_k ->
  search U O s query top_k = Ok (to_hit s <$> sorted_desc snd (table s query)).
Proof.
  intros Hcons Hk.
  destruct (table_keys s query) as [Hnd Hkeys].
  assert (Hlen : (length (table s query) <= size (_chunks s))%nat).
  { rewrite <- (length_fmap fst). apply keys_bounded; [exact Hnd|].
    intros i (e & -> & He)%list_elem_of_fmap. now apply (table_stored s query). }
  assert (Hall : Py.slice_to (sorted_desc snd (table s query)) top_k
                 = sorted_desc snd (table s query)).
  { unfold Py.slice_to, Py.clamp. unfold chunk_count in Hk.
    destruct (Z.ltb_spec top_k 0); [lia|].
    apply take_ge.
    rewrite (Permutation_length (SortFacts.sorted_desc_Permutation snd _)).
    lia. }
  rewrite search_unfold, Hall. apply collect_make_hit.
  intros e He. rewrite SortFacts.sorted_desc_Permutation in He.
  now apply (table_stored s query).
Qed.

(** A stored chunk that has one of the query words is in the score table. *)
Lemma table_has_match (s : RAGStore) (query : str) (i : str) (c : Chunk) :
  consistent s -> _chunks s !! i = Some c ->
  (1 <= matching (words_of U O query) c)%nat ->
  exists e, e ∈ table s query /\ e.1 = i.
Proof.
  intros Hcons Hc Hmatch.
  destruct (table_keys s query) as [_ Hkeys].
  assert (Hi : i ∈ (table s query).*1).
  { apply Hkeys. unfold matching in Hmatch.
    destruct (filter (fun w => w ∈ Py.split U (Py.lower U (content c)))
                (words_of U O query)) as [|w ws] eqn:E; [simpl in Hmatch; lia|].
    assert (Hw : w ∈ filter (fun w => w ∈ Py.split U (Py.lower U (content c)))
                       (words_of U O query))
      by (rewrite E; apply list_elem_of_here).
    apply list_elem_of_filter in Hw as [Hwc Hwq].
    exists w. split; [exact Hwq|]. apply Hcons. now exists c. }
  apply list_elem_of_fmap in Hi as (e & -> & He). now exists e.
Qed.

(** X12.  On a consistent store, a [top_k] that is at least the number of
    chunks cuts nothing off: [search] returns every chunk that has one of the
    query words, and no chunk twice. *)
Theorem search_complete (s : RAGStore) (query : str) (top_k : Z) :
  consistent s -> chunk_count s <= top_k ->
  exists hits,
    search U O s query top_k = Ok hits /\
    NoDup (hit_chunk_id <$> hits) /\
    forall i c, _chunks s !! i = Some c ->
      (1 <= matching (words_of U O query) c)%nat ->
      exists h, h ∈ hits /\ hit_chunk_id h = i /\ hit_content h = content c.
Proof.
  intros Hcons Hk.
  destruct (table_keys s query) as [Hnd _].
  exists (to_hit s <$> sorted_desc snd (table s query)).
  split; [|split].
  - now apply search_uncut.
  - rewrite <- list_fmap_compose.
    change (hit_chunk_id ∘ to_hit s) with (@fst str Q).
    now rewrite SortFacts.sorted_desc_Permutation.
  - intros i c Hc Hmatch.
    destruct (table_has_match s query i c Hcons Hc Hmatch) as (e & He & <-).
    exists (to_hit s e). split; [|split; [reflexivity|]].
    + apply list_elem_of_fmap_2. now rewrite SortFacts.sorted_desc_Permutation.
    + unfold to_hit. simpl. now rewrite Hc.
Qed.

(** X13.  [search] returns the empty list, without raising, whenever
    [top_k] is zero, the query has no word, or the index is empty (a new
    store, or one just cleared). *)
Theorem search_nothing_to_find (s : RAGStore) (query : str) (top_k : Z) :
  top_k = 0 \/ Py.split U (Py.lower U query) = [] \/ _index s = ∅ ->
  search U O s query top_k = Ok [].
Proof.
  intros H. rewrite search_unfold.
  destruct H as [->|H]; [reflexivity|].
  assert (Htable : table s query = []).
  { unfold table. destruct H as [H|H].
    - assert (Hw : words_of U O query = []).
      { apply nil_no_elem. intros x Hx. apply set_list_elem in Hx.
        rewrite H in Hx. now apply not_elem_of_nil in Hx. }
      now rewrite Hw.
    - assert (Hfold : forall ws d, fold_left (score_word s) ws d = d).
      { induction ws as [|w ws IH]; intros d; [reflexivity|].
        cbn [fold_left]. unfold score_word at 2.
        rewrite H, lookup_empty. apply IH. }
      now rewrite Hfold. }
  rewrite Htable. unfold Py.slice_to. cbn [sorted_desc foldr].
  now rewrite take_nil.
Qed.

End Store.

Lemma search_nothing_to_find_witness :
  (0 = 0 \/ Py.split Plain.unicode (Py.lower Plain.unicode "anything") = [] \/ _index library = ∅) /\
  search Plain.unicode Orders.insertion_order library "anything" 0 = Ok [].
Proof.
  assert (H : 0 = 0 \/ Py.split Plain.unicode (Py.lower Plain.unicode "anything") = [] \/ _index library = ∅)
    by (left; reflexivity).
  split; [exact H|].
  exact (search_nothing_to_find Plain.unicode Orders.insertion_order library "anything" 0 H).
Defined.

Lemma search_complete_witness :
  consistent Plain.unicode library /\ chunk_count library <= 5 /\
  exists hits,
    search Plain.unicode Orders.insertion_order library "Python browsers" 5 = Ok hits /\
    NoDup (hit_chunk_id <$> hits) /\
    forall i c, _chunks library !! i = Some c ->
      (1 <= matching Plain.unicode (words_of Plain.unicode Orders.insertion_order "Python browsers") c)%nat ->
      exists h, h ∈ hits /\ hit_chunk_id h = i /\ hit_content h = content c.
Proof.
  assert (H : chunk_count library <= 5) by (vm_compute; discriminate).
  split; [exact library_consistent|]. split; [exact H|].
  exact (search_complete Plain.unicode Orders.insertion_order library "Python browsers" 5
           library_consistent H).
Defined.

Section Deletion.

Variable U : Py.Unicode.
Variable md5_hexdigest : str -> str.
Variable O : SetOrder.

Abbreviation consistent := (consistent U).
Abbreviation matching := (matching U).

Lemma to_delete_absent (s : RAGStore) (d : str) :
  (forall i c, _chunks s !! i = Some c -> doc_id c <> d) ->
  to_delete s d = [].
Proof.
  intros Habsent. apply nil_no_elem.
  intros i (c & Hc & Hd)%to_delete_elem. now apply (Habsent i c).
Qed.

(** X14.  [delete_by_doc] for a document id no chunk is stored under
    returns 0 and leaves the store, chunks and index, exactly as it was. *)
Theorem delete_by_doc_absent (s : RAGStore) (d : str) :
  (forall i c, _chunks s !! i = Some c -> doc_id c <> d) ->
  delete_by_doc U O s d = Ok (0, s).
Proof using O.
  clear md5_hexdigest. intros Habsent.
  unfold delete_by_doc. rewrite (to_delete_absent s d Habsent). reflexivity.
Qed.

(** X15.  Deleting a document a second time finds nothing left: the second
    [delete_by_doc] returns 0 and changes nothing. *)
Theorem delete_by_doc_twice (s : RAGStore) (d : str) :
  exists n s',
    delete_by_doc U O s d = Ok (n, s') /\
    delete_by_doc U O s' d = Ok (0, s').
Proof using O.
  clear md5_hexdigest.
  destruct (delete_by_doc_spec U O s d) as (s' & Hrun & Hchunks & _).
  do 2 eexists. split; [exact Hrun|].
  assert (Hnil : to_delete s' d = []).
  { apply to_delete_absent. intros i c Hc.
    rewrite Hchunks in Hc. apply map_lookup_filter_Some in Hc as [_ Hd].
    exact Hd. }
  unfold delete_by_doc. rewrite Hnil. reflexivity.
Qed.

Lemma unindex_word_key (chunk_id : str)
    (index : gmap str (list str)) (w0 w : str) :
  is_Some (unindex_word chunk_id index w0 !! w) <-> is_Some (index !! w).
Proof.
  unfold unindex_word.
  destruct (index !! w0) as [ids|] eqn:E; [|reflexivity].
  destruct (decide (chunk_id ∈ ids)); [|reflexivity].
  rewrite lookup_insert_is_Some. split.
  - intros [<-|[_ H]]; [now rewrite E | exact H].
  - intros H. destruct (decide (w0 = w)); [now left | now right].
Qed.

Lemma fold_unindex_word_key (chunk_id : str) (ws : list str)
    (index : gmap str (list str)) (w : str) :
  is_Some (fold_left (unindex_word chunk_id) ws index !! w)
  <-> is_Some (index !! w).
Proof.
  revert index. induction ws as [|w0 ws IH]; intros index; [reflexivity|].
  cbn [fold_left]. rewrite IH. apply unindex_word_key.
Qed.

Lemma delete_chunks_keys (ids : list str) (s s' : RAGStore) (w : str) :
  delete_chunks U O s ids = Ok s' ->
  is_Some (_index s' !! w) <-> is_Some (_index s !! w).
Proof using O.
  clear md5_hexdigest. revert s.
  induction ids as [|i ids IH]; intros s; cbn [delete_chunks].
  - now intros [= <-].
  - unfold delete_chunk.
    destruct (_chunks s !! i) as [c|]; [|discriminate].
    rewrite bind_Ok. intros H. rewrite (IH _ H). cbn [_index].
    apply fold_unindex_word_key.
Qed.

(** X16.  [delete_by_doc] never removes a word from the index: the words
    that were keys before are keys afterwards, also those whose postings
    list it has emptied, and it adds none. *)
Theorem delete_by_doc_keeps_index_keys (s s' : RAGStore) (d : str) (n : Z)
    (w : str) :
  delete_by_doc U O s d = Ok (n, s') ->
  is_Some (_index s' !! w) <-> is_Some (_index s !! w).
Proof using O.
  clear md5_hexdigest. unfold delete_by_doc.
  destruct (delete_chunks U O s (to_delete s d)) as [s1|e] eqn:E; [|discriminate].
  rewrite bind_Ok. intros [= _ <-]. now apply (delete_chunks_keys _ _ _ _ E).
Qed.

Lemma remove_first_post_add (i : str) (l : list str) :
  i ∉ l -> remove_first i (post_add i l) = l.
Proof.
  intros Hi. unfold post_add. rewrite decide_False by assumption.
  induction l as [|y l IH]; simpl.
  - now rewrite decide_True.
  - apply not_elem_of_cons in Hi as [Hne Hi].
    rewrite decide_False by congruence. now rewrite IH.
Qed.

(** X17.  Adding a new content under a document that has no chunk yet, and
    then deleting that document, gives back the chunks and every postings
    list of the store as they were; [delete_by_doc] returns 1. *)
Theorem add_then_delete_by_doc (s : RAGStore) (content d : str)
    (metadata : option (gmap str str)) :
  consistent s ->
  _chunks s !! take 16 (md5_hexdigest content) = None ->
  (forall i c, _chunks s !! i = Some c -> doc_id c <> d) ->
  exists s',
    delete_by_doc U O (add_chunk U md5_hexdigest O s content d metadata).2 d
    = Ok (1, s') /\
    _chunks s' = _chunks s /\
    (forall w, postings (_index s') w = postings (_index s) w) /\
    consistent s'.
Proof.
  intros Hcons Hfresh Habsent.
  set (i := take 16 (md5_hexdigest content)) in *.
  set (c := {| Rag.content := content; doc_id := d;
               metadata := or_dict metadata |}).
  set (s1 := (add_chunk U md5_hexdigest O s content d metadata).2).
  assert (Hchunks1 : _chunks s1 = <[i := c]> (_chunks s)) by reflexivity.
  assert (Hdel : to_delete s1 d = [i]).
  { apply singleton_list; [apply to_delete_NoDup|].
    intros x. rewrite to_delete_elem, Hchunks1. split.
    - intros (c' & Hc' & Hd).
      destruct (decide (x = i)) as [->|Hne]; [reflexivity|].
      rewrite lookup_insert_ne in Hc' by congruence.
      now apply Habsent in Hc'.
    - intros ->. exists c. now rewrite lookup_insert_eq. }
  assert (Hpost : forall w, i ∉ postings (_index s) w).
  { intros w Hin. apply Hcons in Hin as (c' & Hc' & _). congruence. }
  eexists. split; [|split; [|split]].
  - unfold delete_by_doc. fold s1. rewrite Hdel. cbn [delete_chunks].
    unfold delete_chunk. rewrite Hchunks1, lookup_insert_eq.
    rewrite !bind_Ok. reflexivity.
  - cbn [_chunks]. now apply delete_insert_id.
  - intros w. cbn [_index]. rewrite delete_chunk_postings.
    unfold s1. rewrite add_chunk_postings. cbn [Rag.content c].
    case_decide; [|reflexivity]. now apply remove_first_post_add.
  - destruct (delete_by_doc_spec U O s1 d) as (s2 & Hrun & _ & _ & Hcons2).
    unfold delete_by_doc in Hrun. rewrite Hdel in Hrun. cbn [delete_chunks] in Hrun.
    unfold delete_chunk in Hrun. rewrite Hchunks1, lookup_insert_eq in Hrun.
    rewrite !bind_Ok in Hrun. injection Hrun as _ <-.
    apply Hcons2. unfold s1. apply add_chunk_consistent; [|exact Hcons].
    intros c0 Hc0. fold i in Hc0. congruence.
Qed.

(** X18.  On every store built by [add_chunk], [delete_by_doc] and [clear]
    in which no two different contents were given the same chunk id, the
    postings index agrees with the chunks, and [search] never raises. *)
Theorem built_store_search_total (s : RAGStore) (query : str) (top_k : Z) :
  built U md5_hexdigest O s ->
  consistent s /\ exists hits, search U O s query top_k = Ok hits.
Proof.
  intros Hb. pose proof (built_consistent _ _ _ _ Hb) as Hcons.
  split; [exact Hcons|].
  destruct (search_spec U O s query top_k Hcons) as (entries & Hrun & _).
  eauto.
Qed.

(** X19.  A chunk just added is found: on a consistent store, after
    [add_chunk] of a content whose id is free or already holds that content,
    every query that shares a lower-cased word with the content returns the
    chunk, with its content and document id, once [top_k] is at least the
    number of chunks. *)
Theorem add_chunk_then_search (s : RAGStore) (content d query w : str)
    (metadata : option (gmap str str)) (top_k : Z) :
  consistent s ->
  (forall c0, _chunks s !! take 16 (md5_hexdigest content) = Some c0 ->
              Rag.content c0 = content) ->
  w ∈ Py.split U (Py.lower U content) -> w ∈ Py.split U (Py.lower U query) ->
  let r := add_chunk U md5_hexdigest O s content d metadata in
  chunk_count r.2 <= top_k ->
  exists hits h,
    search U O r.2 query top_k = Ok hits /\ h ∈ hits /\
    hit_chunk_id h = r.1 /\ hit_content h = content /\ hit_doc_id h = d.
Proof.
  intros Hcons Hcol Hwc Hwq r Hk.
  assert (Hcons' : consistent r.2) by now apply add_chunk_consistent.
  set (c := {| Rag.content := content; doc_id := d;
               metadata := or_dict metadata |}).
  assert (Hc : _chunks r.2 !! r.1 = Some c)
    by (unfold r; cbn [add_chunk fst snd _chunks]; apply lookup_insert_eq).
  assert (Hmatch : (1 <= matching (words_of U O query) c)%nat).
  { unfold matching.
    assert (Hin : w ∈ filter (fun w => w ∈ Py.split U (Py.lower U (Rag.content c)))
                        (words_of U O query))
      by (apply list_elem_of_filter; split; [exact Hwc | now apply set_list_elem]).
    apply list_elem_of_lookup in Hin as [j Hj].
    apply lookup_lt_Some in Hj. lia. }
  destruct (table_has_match U O r.2 query r.1 c Hcons' Hc Hmatch)
    as (e & He & Hid).
  exists (to_hit r.2 <$> sorted_desc snd (table U O r.2 query)), (to_hit r.2 e).
  split; [now apply search_uncut|].
  split; [apply list_elem_of_fmap_2;
          now rewrite SortFacts.sorted_desc_Permutation|].
  split; [exact Hid|].
  unfold to_hit. cbn [hit_content hit_doc_id]. rewrite Hid, Hc.
  split; reflexivity.
Qed.

End Deletion.

Lemma library_has_no_doc9 :
  forall i c, _chunks library !! i = Some c -> doc_id c <> "doc9".
Proof.
  assert (H : map_Forall (fun _ c => doc_id c <> "doc9") (_chunks library)).
  { refine (bool_decide_unpack _ _). vm_compute. exact I. }
  intros i c Hc. exact (H i c Hc).
Qed.

Lemma library_built : built Plain.unicode md5_table Orders.insertion_order library.
Proof.
  unfold library, add.
  repeat (apply built_add_chunk;
          [|intros c0 H0; vm_compute in H0; discriminate]).
  apply built_init.
Qed.

Lemma delete_by_doc_absent_witness :
  (forall i c, _chunks library !! i = Some c -> doc_id c <> "doc9") /\
  delete_by_doc Plain.unicode Orders.insertion_order library "doc9" = Ok (0, library).
Proof.
  split; [exact library_has_no_doc9|].
  exact (delete_by_doc_absent Plain.unicode Orders.insertion_order library "doc9"
           library_has_no_doc9).
Defined.

Lemma delete_by_doc_keeps_index_keys_witness :
  exists s',
    delete_by_doc Plain.unicode Orders.insertion_order library "doc1" = Ok (1, s') /\
    (is_Some (_index s' !! "programming")
     <-> is_Some (_index library !! "programming")).
Proof.
  destruct (delete_by_doc Plain.unicode Orders.insertion_order library "doc1")
    as [[n s']|e] eqn:E; [|vm_compute in E; discriminate].
  assert (Hn : n = 1) by (vm_compute in E; now injection E as <- _).
  subst n. exists s'. split; [reflexivity|].
  exact (delete_by_doc_keeps_index_keys Plain.unicode Orders.insertion_order library s'
           "doc1" 1 "programming" E).
Defined.

Lemma add_then_delete_by_doc_witness :
  consistent Plain.unicode library /\
  _chunks library !! take 16 (md5_table "Content 1") = None /\
  (forall i c, _chunks library !! i = Some c -> doc_id c <> "doc9") /\
  exists s',
    delete_by_doc Plain.unicode Orders.insertion_order
      (add_chunk Plain.unicode md5_table Orders.insertion_order library "Content 1" "doc9"
         None).2 "doc9"
    = Ok (1, s') /\
    _chunks s' = _chunks library /\
    (forall w, postings (_index s') w = postings (_index library) w) /\
    consistent Plain.unicode s'.
Proof.
  assert (H : _chunks library !! take 16 (md5_table "Content 1") = None)
    by (vm_compute; reflexivity).
  split; [exact library_consistent|]. split; [exact H|].
  split; [exact library_has_no_doc9|].
  exact (add_then_delete_by_doc Plain.unicode md5_table Orders.insertion_order library
           "Content 1" "doc9" None library_consistent H library_has_no_doc9).
Defined.

Lemma built_store_search_total_witness :
  built Plain.unicode md5_table Orders.insertion_order library /\
  consistent Plain.unicode library /\
  exists hits, search Plain.unicode Orders.insertion_order library "web browsers" 1 = Ok hits.
Proof.
  split; [exact library_built|].
  exact (built_store_search_total Plain.unicode md5_table Orders.insertion_order library
           "web browsers" 1 library_built).
Defined.

Lemma add_chunk_then_search_witness :
  consistent Plain.unicode library /\
  (forall c0, _chunks library !! take 16 (md5_table "Content 1") = Some c0 ->
              Rag.content c0 = "Content 1") /\
  "content" ∈ Py.split Plain.unicode (Py.lower Plain.unicode "Content 1") /\
  "content" ∈ Py.split Plain.unicode (Py.lower Plain.unicode "some content") /\
  let r := add_chunk Plain.unicode md5_table Orders.insertion_order library "Content 1" "doc9"
             None in
  chunk_count r.2 <= 10 /\
  exists hits h,
    search Plain.unicode Orders.insertion_order r.2 "some content" 10 = Ok hits /\ h ∈ hits /\
    hit_chunk_id h = r.1 /\ hit_content h = "Content 1" /\ hit_doc_id h = "doc9".
Proof.
  assert (H1 : forall c0,
             _chunks library !! take 16 (md5_table "Content 1") = Some c0 ->
             Rag.content c0 = "Content 1")
    by (intros c0 H0; vm_compute in H0; discriminate).
  assert (H2 : "content" ∈ Py.split Plain.unicode (Py.lower Plain.unicode "Content 1"))
    by (vm_compute; apply list_elem_of_here).
  assert (H3 : "content" ∈ Py.split Plain.unicode (Py.lower Plain.unicode "some content"))
    by (vm_compute; apply list_elem_of_further, list_elem_of_here).
  assert (H4 : chunk_count (add_chunk Plain.unicode md5_table Orders.insertion_order library
                              "Content 1" "doc9" None).2 <= 10)
    by (vm_compute; discriminate).
  split; [exact library_consistent|]. split; [exact H1|].
  split; [exact H2|]. split; [exact H3|]. split; [exact H4|].
  exact (add_chunk_then_search Plain.unicode md5_table Orders.insertion_order library
           "Content 1" "doc9" "some content" "content" None 10
           library_consistent H1 H2 H3 H4).
Defined.

End StoreFacts.

(** ** Research engine: retrieval, documents and chunking *)

Module EngineFacts.

Import Engine.

#[global] Instance Qeq_decision (x y : Q) : Decision (x == y)%Q := Qeq_dec x y.

Lemma filter_none {A} (P : A -> Prop) `{!forall x, Decision (P x)} (l : list A) :
  Forall (fun x => ~ P x) l -> filter P l = [].
Proof.
  induction 1 as [|x l Hx Hl IH]; [reflexivity|].
  now rewrite filter_cons, decide_False.
Qed.

Lemma filter_fmap {A B} (f : A -> B) (P : B -> Prop)
    `{!forall x, Decision (P x)} (l : list A) :
  filter P (f <$> l) = f <$> filter (fun a => P (f a)) l.
Proof.
  induction l as [|x l IH]; [reflexivity|].
  cbn [fmap list_fmap]. rewrite !filter_cons.
  destruct (decide (P (f x))); cbn [fmap list_fmap]; now rewrite IH.
Qed.

Section Sort.

Context {A : Type} (key : A -> Q).

(** Sorting the decorated list is decorating the sorted list. *)
Lemma insert_desc_fmap {B} (f : A -> B) (key' : B -> Q) (x : A) (l : list A) :
  (forall a, key' (f a) = key a) ->
  insert_desc key' (f x) (f <$> l) = f <$> insert_desc key x l.
Proof.
  intros Hk. induction l as [|y l IH]; [reflexivity|].
  cbn [fmap list_fmap insert_desc]. rewrite !Hk.
  destruct (Qle_bool (key y) (key x)); [reflexivity|].
  cbn [fmap list_fmap]. f_equal. exact IH.
Qed.

Lemma sorted_desc_fmap {B} (f : A -> B) (key' : B -> Q) (l : list A) :
  (forall a, key' (f a) = key a) ->
  sorted_desc key' (f <$> l) = f <$> sorted_desc key l.
Proof.
  intros Hk. induction l as [|x l IH]; [reflexivity|].
  cbn [fmap list_fmap sorted_desc foldr].
  change (foldr (insert_desc key') [] (f <$> l)) with (sorted_desc key' (f <$> l)).
  rewrite IH. now apply insert_desc_fmap.
Qed.

(** The sort is stable: elements of one key keep their order. *)
Lemma insert_desc_stable (q : Q) (x : A) (l : list A) :
  filter (fun a => key a == q)%Q (insert_desc key x l)
  = filter (fun a => key a == q)%Q (x :: l).
Proof.
  induction l as [|y l IH]; [reflexivity|].
  cbn [insert_desc]. destruct (Qle_bool (key y) (key x)) eqn:E; [reflexivity|].
  assert (Hne : ~ (key y == key x)%Q).
  { intros Heq. assert (Qle_bool (key y) (key x) = true); [|congruence].
    apply Qle_bool_iff. rewrite Heq. apply Qle_refl. }
  rewrite filter_cons, IH, !filter_cons.
  destruct (decide (key y == q)%Q) as [Hy|Hy];
    destruct (decide (key x == q)%Q) as [Hx|Hx]; try reflexivity.
  destruct Hne. now rewrite Hx, Hy.
Qed.

Lemma sorted_desc_stable (q : Q) (l : list A) :
  filter (fun a => key a == q)%Q (sorted_desc key l)
  = filter (fun a => key a == q)%Q l.
Proof.
  induction l as [|x l IH]; [reflexivity|].
  cbn [sorted_desc foldr].
  change (foldr (insert_desc key) [] l) with (sorted_desc key l).
  rewrite insert_desc_stable, !filter_cons, IH. reflexivity.
Qed.

(** In a list sorted by non-increasing key the elements of positive key form
    a prefix. *)
Lemma filter_take_sorted (k : nat) (l : list A) :
  StronglySorted (SortFacts.before key) l ->
  filter (fun a => 0 < key a)%Q (take k l)
  = take k (filter (fun a => 0 < key a)%Q l).
Proof.
  intros Hs. revert k. induction Hs as [|x l Hs IH Hx]; intros [|k];
    try reflexivity.
  cbn [take]. rewrite !filter_cons.
  destruct (decide (0 < key x)%Q) as [Hp|Hp].
  - cbn [take]. now rewrite IH.
  - rewrite IH.
    rewrite (filter_none (fun a => 0 < key a)%Q l); [now rewrite !take_nil|].
    eapply Forall_impl; [exact Hx|]. intros y Hy Hpos. apply Hp.
    unfold SortFacts.before in Hy. eapply Qlt_le_trans; eassumption.
Qed.

Lemma filter_positive_sorted (l : list A) :
  StronglySorted (SortFacts.before key) l ->
  exists n, filter (fun a => 0 < key a)%Q l = take n l.
Proof.
  intros Hs. induction Hs as [|x l Hs [n IH] Hx]; [now exists 0%nat|].
  rewrite filter_cons. destruct (decide (0 < key x)%Q) as [Hp|Hp].
  - exists (S n). cbn [take]. now rewrite IH.
  - exists 0%nat. cbn [take]. apply filter_none.
    eapply Forall_impl; [exact Hx|]. intros y Hy Hpos. apply Hp.
    unfold SortFacts.before in Hy. eapply Qlt_le_trans; eassumption.
Qed.

End Sort.

Section Engine.

Variable U : Py.Unicode.

(** What [_retrieve_relevant] computes, without the decoration: the chunks
    sorted by score, cut at [top_k], the positive scores kept. *)
Lemma retrieve_relevant_sorted (e : ResearchEngine) (question : str)
    (top_k : Z) :
  _retrieve_relevant U e question top_k
  = filter (fun c => 0 < score U (word_set U question) c)%Q
      (Py.slice_to (sorted_desc (score U (word_set U question)) (_chunks e)) top_k).
Proof.
  unfold _retrieve_relevant. destruct (_chunks e) as [|c0 cs] eqn:E.
  - unfold Py.slice_to. cbn [sorted_desc foldr]. now rewrite take_nil.
  - rewrite <- E. clear E c0 cs.
    rewrite (sorted_desc_fmap (score U (word_set U question))
               (fun chunk => (score U (word_set U question) chunk, chunk)) fst)
      by reflexivity.
    unfold Py.slice_to. rewrite length_fmap, <- fmap_take.
    rewrite (filter_fmap (fun chunk => (score U (word_set U question) chunk, chunk))).
    rewrite <- list_fmap_compose. cbn [fst].
    rewrite <- (list_fmap_id (filter _ _)) at 2.
    apply list_fmap_ext. reflexivity.
Qed.


(** The retrieved chunks are a prefix of the chunks sorted by score. *)
Lemma retrieve_relevant_prefix (e : ResearchEngine) (question : str)
    (top_k : Z) :
  let sorted := sorted_desc (score U (word_set U question)) (_chunks e) in
  _retrieve_relevant U e question top_k
  = take (Nat.min (Py.clamp (length sorted) top_k)
            (length (filter (fun c => 0 < score U (word_set U question) c)%Q
                       (_chunks e))))
         sorted.
Proof.
  intros sorted. rewrite retrieve_relevant_sorted. fold sorted.
  pose proof (SortFacts.sorted_desc_sorted (score U (word_set U question))
                (_chunks e)) as Hs.
  fold sorted in Hs.
  unfold Py.slice_to. rewrite (filter_take_sorted _ _ _ Hs).
  destruct (filter_positive_sorted _ _ Hs) as [n Hn].
  assert (Hlen : length (filter (fun c => 0 < score U (word_set U question) c)%Q
                           (_chunks e))
                 = Nat.min n (length sorted)).
  { rewrite <- length_take, <- Hn. apply Permutation_length.
    apply filter_Permutation. symmetry. apply SortFacts.sorted_desc_Permutation. }
  rewrite Hn, take_take, Hlen.
  rewrite <- (ChunkFacts.take_min_length (_ `min` n)%nat).
  rewrite <- (ChunkFacts.take_min_length (_ `min` (n `min` _))%nat).
  f_equal. lia.
Qed.

(** X20.  For [top_k >= 0], [_retrieve_relevant] returns exactly
    [min(top_k, p)] chunks, where [p] is the number of stored chunks that share
    a word with the question; they come by non-increasing score, and no
    chunk left out scores higher than one returned. *)
Theorem retrieve_relevant_top_k (e : ResearchEngine) (question : str)
    (top_k : Z) :
  0 <= top_k ->
  let s := score U (word_set U question) in
  let found := _retrieve_relevant U e question top_k in
  length found
  = Nat.min (Z.to_nat top_k)
      (length (filter (fun c => 0 < s c)%Q (_chunks e))) /\
  StronglySorted (fun a b => s b <= s a)%Q found /\
  exists rest,
    _chunks e ≡ₚ found ++ rest /\
    forall a b, a ∈ found -> b ∈ rest -> (s b <= s a)%Q.
Proof.
  intros Hk s found.
  pose proof (retrieve_relevant_prefix e question top_k) as Hp.
  cbv zeta in Hp. fold s found in Hp.
  set (sorted := sorted_desc s (_chunks e)) in *.
  set (p := length (filter (fun c => 0 < s c)%Q (_chunks e))) in *.
  pose proof (SortFacts.sorted_desc_sorted s (_chunks e)) as Hs.
  fold sorted in Hs.
  assert (Hperm : sorted ≡ₚ _chunks e)
    by apply SortFacts.sorted_desc_Permutation.
  assert (Hple : (p <= length sorted)%nat).
  { rewrite (Permutation_length Hperm). apply length_filter. }
  split; [|split].
  - rewrite Hp, length_take. unfold Py.clamp.
    destruct (Z.ltb_spec top_k 0); lia.
  - rewrite Hp. now apply SortFacts.StronglySorted_take.
  - exists (drop (Nat.min (Py.clamp (length sorted) top_k) p) sorted).
    rewrite Hp, take_drop. split; [now symmetry|].
    intros a b Ha Hb.
    rewrite <- (take_drop (Nat.min (Py.clamp (length sorted) top_k) p) sorted)
      in Hs.
    exact (StronglySorted_app_1_elem_of _ _ _ a b Hs Ha Hb).
Qed.

(** X21.  Ties keep ingestion order: for every score [q], the retrieved
    chunks of score [q] are the first of the stored chunks of score [q], in
    the order they were stored. *)
Theorem retrieve_relevant_ties_in_order (e : ResearchEngine)
    (question : str) (top_k : Z) (q : Q) :
  let s := score U (word_set U question) in
  filter (fun c => s c == q)%Q (_retrieve_relevant U e question top_k)
  `prefix_of` filter (fun c => s c == q)%Q (_chunks e).
Proof.
  intros s. rewrite retrieve_relevant_prefix. cbv zeta. fold s.
  set (n := Nat.min _ _).
  rewrite <- (sorted_desc_stable s q (_chunks e)).
  rewrite <- (take_drop n (sorted_desc s (_chunks e))) at 2.
  rewrite filter_app. now eexists.
Qed.


(** A chunk that shares no word with the question scores zero. *)
Lemma score_disjoint (question : str) (c : Chunk) :
  word_set U question ∩ word_set U (content c) = ∅ ->
  ~ (0 < score U (word_set U question) c)%Q.
Proof.
  intros Hd. unfold score. rewrite Hd, size_empty.
  destruct (decide (size (word_set U question) = 0%nat)); intros H;
    vm_compute in H; discriminate.
Qed.

Lemma score_shared (question w : str) (c : Chunk) :
  w ∈ word_set U question -> w ∈ word_set U (content c) ->
  (0 < score U (word_set U question) c)%Q.
Proof.
  intros Hq Hc. unfold score.
  assert (Hne : size (word_set U question) <> 0%nat).
  { apply size_non_empty_iff. intros He. apply (He w) in Hq.
    now apply not_elem_of_empty in Hq. }
  assert (Hi : size (word_set U question ∩ word_set U (content c)) <> 0%nat).
  { apply size_non_empty_iff. intros He.
    assert (Hw : w ∈ word_set U question ∩ word_set U (content c))
      by now apply elem_of_intersection.
    apply (He w) in Hw. now apply not_elem_of_empty in Hw. }
  rewrite decide_False by exact Hne.
  unfold Qlt. simpl. lia.
Qed.

(** X22.  [query] answers with the fixed sentence about missing documents,
    and an empty list of sources, whenever [top_k] is zero or no stored
    chunk shares a word with the question (an empty store and a question
    without words included); the language model has no part in it. *)
Theorem query_nothing_relevant (O : SetOrder)
    (llm_generate : str -> gmap str str) (e : ResearchEngine)
    (question : str) (session_id : option str) (top_k : Z) :
  top_k = 0 \/
  (forall c, c ∈ _chunks e ->
             word_set U question ∩ word_set U (content c) = ∅) ->
  query U O llm_generate e question session_id top_k
  = {| answer := no_documents; sources := [] |}.
Proof.
  intros H. unfold query.
  assert (Hnil : _retrieve_relevant U e question top_k = []);
    [|now rewrite Hnil].
  destruct H as [-> | H].
  - rewrite retrieve_relevant_prefix. cbv zeta.
    unfold Py.clamp. simpl. reflexivity.
  - destruct (_retrieve_relevant U e question top_k) as [|c cs] eqn:E;
      [reflexivity|].
    assert (Hc : c ∈ _retrieve_relevant U e question top_k)
      by (rewrite E; apply list_elem_of_here).
    apply QueryFacts.retrieve_relevant_elem in Hc as [Hc Hpos].
    now apply score_disjoint in Hpos; [|apply H].
Qed.

(** *** Documents and their chunks *)

(** The chunks [ingest_document] appends for one document. *)
Definition new_chunks (d source : str) (chunks : list str) : list Chunk :=
  imap (fun i chunk => {| doc_id := d; chunk_index := Z.of_nat i;
                          content := chunk; source := source |}) chunks.

Lemma ingest_document_chunks (e : ResearchEngine) (content source : str)
    (metadata : option (gmap str str)) (uuid4 now : str) :
  exists chunks,
    _chunk_text U content 500 50 = Ok chunks /\ chunks <> [] /\
    ingest_document U e content source metadata uuid4 now
    = Ok (uuid4,
          {| _documents :=
               <[uuid4 := {| doc_source := source;
                             doc_metadata := or_dict metadata;
                             doc_created_at := now;
                             doc_chunk_count := Z.of_nat (length chunks) |}]>
                 (_documents e);
             _chunks := _chunks e ++ new_chunks uuid4 source chunks |}).
Proof.
  assert (H : 0 <= 50 < 500) by lia.
  pose proof (ChunkFacts.chunk_text_eq U content 500 50 H) as Heq.
  eexists. split; [exact Heq|]. split.
  - intros Hnil. apply (f_equal (@length str)) in Hnil.
    rewrite (ChunkFacts.chunks_length U content 500 50 H _ Heq) in Hnil.
    simpl in Hnil. lia.
  - unfold ingest_document. rewrite Heq. reflexivity.
Qed.

Lemma new_chunks_doc_id (d source : str) (chunks : list str) (c : Chunk) :
  c ∈ new_chunks d source chunks -> doc_id c = d /\ Engine.source c = source.
Proof.
  intros (i & chunk & -> & _)%elem_of_lookup_imap. split; reflexivity.
Qed.

Lemma new_chunks_index (d source : str) (chunks : list str) :
  chunk_index <$> new_chunks d source chunks
  = Z.of_nat <$> seq 0 (length chunks).
Proof.
  unfold new_chunks. rewrite fmap_imap.
  exact (imap_seq_0 chunks Z.of_nat).
Qed.

Lemma filter_all {A} (P : A -> Prop) `{!forall x, Decision (P x)} (l : list A) :
  Forall P l -> filter P l = l.
Proof.
  induction 1 as [|x l Hx Hl IH]; [reflexivity|].
  now rewrite filter_cons, decide_True, IH.
Qed.

(** The chunks stored for document [d], in the order of the list. *)
Definition chunks_of (e : ResearchEngine) (d : str) : list Chunk :=
  filter (fun c => doc_id c = d) (_chunks e).

(** Every chunk belongs to a document of the table, and the table's entry of
    a document counts its chunks, which are numbered from zero and carry the
    document's source. *)
Definition well_formed (e : ResearchEngine) : Prop :=
  (forall c, c ∈ _chunks e -> is_Some (_documents e !! doc_id c)) /\
  (forall d doc, _documents e !! d = Some doc ->
     1 <= doc_chunk_count doc /\
     chunk_index <$> chunks_of e d
     = Z.of_nat <$> seq 0 (Z.to_nat (doc_chunk_count doc)) /\
     Forall (fun c => source c = doc_source doc) (chunks_of e d)).

Lemma well_formed_init : well_formed __init__.
Proof.
  split.
  - intros c Hc. now apply not_elem_of_nil in Hc.
  - intros d doc Hd. simpl in Hd. now rewrite lookup_empty in Hd.
Qed.

Lemma well_formed_fresh (e : ResearchEngine) (d : str) :
  well_formed e -> _documents e !! d = None ->
  Forall (fun c => doc_id c <> d) (_chunks e).
Proof.
  intros [Hown _] Hd. apply Forall_forall. intros c Hc Heq.
  destruct (Hown c Hc) as [doc Hdoc]. congruence.
Qed.

Lemma well_formed_ingest (e e' : ResearchEngine) (content source : str)
    (metadata : option (gmap str str)) (uuid4 now : str) :
  well_formed e -> _documents e !! uuid4 = None ->
  ingest_document U e content source metadata uuid4 now = Ok (uuid4, e') ->
  well_formed e'.
Proof.
  intros Hwf Hfresh Hrun.
  pose proof (well_formed_fresh e uuid4 Hwf Hfresh) as Hold.
  destruct Hwf as [Hown Hcount].
  destruct (ingest_document_chunks e content source metadata uuid4 now)
    as (chunks & _ & Hne & Heq).
  rewrite Heq in Hrun. injection Hrun as <-.
  split.
  - intros c. cbn [_chunks _documents]. intros [Hc|Hc]%elem_of_app.
    + destruct (decide (doc_id c = uuid4)) as [->|Hd].
      * rewrite lookup_insert_eq. eauto.
      * rewrite lookup_insert_ne by congruence. now apply Hown.
    + apply new_chunks_doc_id in Hc as [-> _].
      rewrite lookup_insert_eq. eauto.
  - intros d doc. unfold chunks_of. cbn [_chunks _documents].
    rewrite filter_app. destruct (decide (d = uuid4)) as [->|Hd].
    + rewrite lookup_insert_eq. intros [= <-]. cbn [doc_chunk_count doc_source].
      rewrite (filter_none (fun c => doc_id c = uuid4) (_chunks e)).
      2:{ eapply Forall_impl; [exact Hold|]. intros c Hc. exact Hc. }
      rewrite (filter_all (fun c => doc_id c = uuid4)).
      2:{ apply Forall_forall. intros c Hc.
          now apply new_chunks_doc_id in Hc as [-> _]. }
      rewrite app_nil_l, new_chunks_index, Nat2Z.id.
      split; [destruct chunks; [congruence | simpl; lia]|].
      split; [reflexivity|].
      apply Forall_forall. intros c Hc.
      now apply new_chunks_doc_id in Hc as [_ ->].
    + rewrite lookup_insert_ne by congruence. intros Hdoc.
      rewrite (filter_none (fun c => doc_id c = d) (new_chunks _ _ _)).
      2:{ apply Forall_forall. intros c Hc.
          apply new_chunks_doc_id in Hc as [-> _]. congruence. }
      rewrite app_nil_r. now apply Hcount.
Qed.

Lemma well_formed_delete (e : ResearchEngine) (d : str) :
  well_formed e -> well_formed (delete_document e d).2.
Proof.
  intros Hwf. unfold delete_document.
  destruct (_documents e !! d) as [doc0|] eqn:Ed; [|exact Hwf].
  destruct Hwf as [Hown Hcount]. cbn [snd]. split.
  - intros c. cbn [_chunks _documents].
    intros [Hne Hc]%list_elem_of_filter.
    rewrite lookup_delete_ne by congruence. now apply Hown.
  - intros d' doc. unfold chunks_of. cbn [_chunks _documents].
    destruct (decide (d' = d)) as [->|Hd];
      [rewrite lookup_delete_eq; discriminate|].
    rewrite lookup_delete_ne by congruence. intros Hdoc.
    rewrite list_filter_filter_l by (intros c ->; exact Hd).
    now apply Hcount.
Qed.

(** The engines the methods build from a new one, where [uuid4] never
    repeats an id in use. *)
Inductive derived : ResearchEngine -> Prop :=
  | derived_init : derived __init__
  | derived_ingest e e' content source metadata uuid4 now :
      derived e -> _documents e !! uuid4 = None ->
      ingest_document U e content source metadata uuid4 now = Ok (uuid4, e') ->
      derived e'
  | derived_delete e d : derived e -> derived (delete_document e d).2.


(** With [top_k] at least the number of chunks, every chunk that scores
    above zero is retrieved. *)
Lemma retrieve_relevant_all (e : ResearchEngine) (question : str)
    (top_k : Z) (c : Chunk) :
  Z.of_nat (length (_chunks e)) <= top_k ->
  c ∈ _chunks e -> (0 < score U (word_set U question) c)%Q ->
  c ∈ _retrieve_relevant U e question top_k.
Proof.
  intros Hk Hc Hpos. rewrite retrieve_relevant_sorted.
  apply list_elem_of_filter. split; [exact Hpos|].
  assert (Hperm : sorted_desc (score U (word_set U question)) (_chunks e)
                  ≡ₚ _chunks e) by apply SortFacts.sorted_desc_Permutation.
  unfold Py.slice_to, Py.clamp. destruct (Z.ltb_spec top_k 0); [lia|].
  rewrite take_ge by (rewrite (Permutation_length Hperm); lia).
  now rewrite Hperm.
Qed.

(** X23.  A document just ingested can be found: [ingest_document]
    succeeds and returns the new id, and when one of the chunks of the
    content shares a lower-cased word with the question and [top_k >= 1], the
    retrieval on the engine afterwards is not empty; once [top_k] is at least
    the number of chunks it returns that chunk, stored under the new id with
    its index. *)
Theorem ingest_then_retrieve (e : ResearchEngine)
    (content source question w : str)
    (metadata : option (gmap str str)) (uuid4 now : str) (top_k : Z)
    (chunks : list str) (i : nat) (chunk : str) :
  _chunk_text U content 500 50 = Ok chunks ->
  chunks !! i = Some chunk ->
  w ∈ word_set U chunk -> w ∈ word_set U question ->
  1 <= top_k ->
  exists e',
    ingest_document U e content source metadata uuid4 now = Ok (uuid4, e') /\
    _retrieve_relevant U e' question top_k <> [] /\
    (Z.of_nat (length (_chunks e')) <= top_k ->
     {| doc_id := uuid4; chunk_index := Z.of_nat i;
        Engine.content := chunk; Engine.source := source |}
     ∈ _retrieve_relevant U e' question top_k).
Proof.
  intros Hchunks Hi Hw Hq Hk.
  destruct (ingest_document_chunks e content source metadata uuid4 now)
    as (chunks' & Hct & _ & Heq).
  rewrite Hchunks in Hct. injection Hct as <-.
  set (e' := {| _documents := _; _chunks := _ |}) in Heq.
  exists e'. split; [exact Heq|].
  set (c := {| doc_id := uuid4; chunk_index := Z.of_nat i;
               Engine.content := chunk; Engine.source := source |}).
  assert (Hc : c ∈ _chunks e').
  { unfold e'. cbn [_chunks]. apply elem_of_app. right.
    unfold new_chunks.
    exact (elem_of_lookup_imap_2
             (fun i chunk => {| doc_id := uuid4; chunk_index := Z.of_nat i;
                                Engine.content := chunk;
                                Engine.source := source |})
             chunks chunk i Hi). }
  assert (Hpos : (0 < score U (word_set U question) c)%Q)
    by (apply (score_shared question w); [exact Hq | exact Hw]).
  split.
  - exact (QueryFacts.retrieve_relevant_nonempty U e' question top_k c Hk Hc
             Hpos).
  - intros Hall. now apply retrieve_relevant_all.
Qed.

Lemma derived_invariant (e : ResearchEngine) : derived e -> well_formed e.
Proof.
  induction 1 as [|e e' content source metadata uuid4 now _ IH Hfresh Hrun
                  |e d' _ IH].
  - apply well_formed_init.
  - exact (well_formed_ingest _ _ _ _ _ _ _ IH Hfresh Hrun).
  - now apply well_formed_delete.
Qed.

(** X24.  On every engine built from a new one by [ingest_document] (with
    ids that do not repeat) and [delete_document]: each stored chunk belongs
    to a document of the table, and for each document of the table its
    [chunk_count] is at least 1 and is the number of its stored chunks, which
    are numbered [0, 1, ...] in storage order and carry its source. *)
Theorem derived_well_formed (e : ResearchEngine) (d : str) (doc : Document) :
  derived e ->
  (forall c, c ∈ _chunks e -> is_Some (_documents e !! doc_id c)) /\
  (_documents e !! d = Some doc ->
   1 <= doc_chunk_count doc /\
   Z.of_nat (length (chunks_of e d)) = doc_chunk_count doc /\
   chunk_index <$> chunks_of e d
   = Z.of_nat <$> seq 0 (Z.to_nat (doc_chunk_count doc)) /\
   Forall (fun c => source c = doc_source doc) (chunks_of e d)).
Proof.
  intros Hd. destruct (derived_invariant e Hd) as [Hown Hcount].
  split; [exact Hown|].
  intros Hdoc. destruct (Hcount d doc Hdoc) as (H1 & Hidx & Hsrc).
  split; [exact H1|]. split; [|split; assumption].
  apply (f_equal (@length Z)) in Hidx.
  rewrite !length_fmap, length_seq in Hidx. lia.
Qed.

(** X25.  Ingesting a document under an unused id and deleting it again
    gives back the engine as it was, documents and chunks; a further
    [delete_document] of that id answers [False] and changes nothing. *)
Theorem ingest_then_delete (e : ResearchEngine) (content source : str)
    (metadata : option (gmap str str)) (uuid4 now : str) :
  well_formed e -> _documents e !! uuid4 = None ->
  exists e',
    ingest_document U e content source metadata uuid4 now = Ok (uuid4, e') /\
    delete_document e' uuid4 = (true, e) /\
    delete_document e uuid4 = (false, e).
Proof.
  intros Hwf Hfresh.
  pose proof (well_formed_fresh e uuid4 Hwf Hfresh) as Hold.
  destruct (ingest_document_chunks e content source metadata uuid4 now)
    as (chunks & _ & _ & Heq).
  eexists. split; [exact Heq|]. split.
  - unfold delete_document. cbn [_documents _chunks].
    rewrite lookup_insert_eq, delete_insert_id by exact Hfresh.
    rewrite filter_app.
    rewrite (filter_all (fun c => doc_id c <> uuid4) (_chunks e)) by exact Hold.
    rewrite (filter_none (fun c => doc_id c <> uuid4)).
    2:{ apply Forall_forall. intros c Hc Hne.
        apply new_chunks_doc_id in Hc as [Hd _]. exact (Hne Hd). }
    rewrite app_nil_r. now destruct e.
  - unfold delete_document. now rewrite Hfresh.
Qed.

(** X26.  [delete_document] of a document of the table answers [True] and
    removes the document and all its chunks, as many as its [chunk_count]
    says on a well-formed engine; no retrieval returns a chunk of it
    afterwards, and every other document keeps its entry and its chunks. *)
Theorem delete_document_removes (e : ResearchEngine) (d : str)
    (doc : Document) :
  well_formed e -> _documents e !! d = Some doc ->
  let r := delete_document e d in
  r.1 = true /\
  _documents r.2 !! d = None /\
  Z.of_nat (length (_chunks e))
  = Z.of_nat (length (_chunks r.2)) + doc_chunk_count doc /\
  (forall question top_k c,
     c ∈ _retrieve_relevant U r.2 question top_k -> doc_id c <> d) /\
  (forall d', d' <> d ->
     _documents r.2 !! d' = _documents e !! d' /\
     chunks_of r.2 d' = chunks_of e d').
Proof.
  intros [Hown Hcount] Hdoc r. unfold r, delete_document. rewrite Hdoc.
  cbn [fst snd _documents _chunks].
  split; [reflexivity|]. split; [apply lookup_delete_eq|]. split; [|split].
  - destruct (Hcount d doc Hdoc) as (H1 & Hidx & _).
    apply (f_equal (@length Z)) in Hidx.
    rewrite !length_fmap, length_seq in Hidx. unfold chunks_of in Hidx.
    pose proof (filter_app_complement (fun c => doc_id c = d) (_chunks e))
      as Hperm.
    apply Permutation_length in Hperm. rewrite length_app in Hperm. lia.
  - intros question top_k c Hc.
    apply QueryFacts.retrieve_relevant_elem in Hc as [Hc _].
    cbn [_chunks] in Hc. now apply list_elem_of_filter in Hc as [Hne _].
  - intros d' Hd'. split; [now apply lookup_delete_ne|].
    unfold chunks_of. cbn [_chunks].
    apply list_filter_filter_l. intros c ->. exact Hd'.
Qed.

(** X27.  A content without words (empty, or white space only) is ingested
    all the same, as one chunk holding the content as it is, and the document
    counts one chunk; that chunk scores zero for every question, so no query
    ever retrieves it. *)
Theorem ingest_blank_document (e : ResearchEngine) (content source : str)
    (metadata : option (gmap str str)) (uuid4 now : str) :
  Py.split U content = [] ->
  let c := {| doc_id := uuid4; chunk_index := 0;
              Engine.content := content; Engine.source := source |} in
  ingest_document U e content source metadata uuid4 now
  = Ok (uuid4,
        {| _documents :=
             <[uuid4 := {| doc_source := source;
                           doc_metadata := or_dict metadata;
                           doc_created_at := now;
                           doc_chunk_count := 1 |}]> (_documents e);
           _chunks := _chunks e ++ [c] |}) /\
  forall question, ~ (0 < score U (word_set U question) c)%Q.
Proof.
  intros Hblank c. split.
  - destruct (ingest_document_chunks e content source metadata uuid4 now)
      as (chunks & Hct & _ & Heq).
    assert (H : 0 <= 50 < 500) by lia.
    rewrite (ChunkFacts.chunks_fallback U content 500 50 H chunks Hct Hblank)
      in Heq.
    exact Heq.
  - intros question. apply score_disjoint.
    unfold word_set at 2. cbn [Engine.content c].
    rewrite (PyFacts.split_lower_blank U content Hblank).
    cbn [list_to_set foldr]. apply intersection_empty_r_L.
Qed.


(** *** The windows of [_chunk_text] *)

Lemma split_chunk_at (words : list str) (chunk_size i : Z) :
  Forall (Py.word U) words -> 0 <= i -> 0 <= chunk_size ->
  Py.split U (ChunkFacts.chunk_at words chunk_size i)
  = take (Z.to_nat chunk_size) (drop (Z.to_nat i) words).
Proof.
  intros Hw Hi Hc. unfold ChunkFacts.chunk_at.
  rewrite PyFacts.split_join_words by now apply ChunkFacts.slice_Forall.
  now apply ChunkFacts.slice_window.
Qed.

(** The chunks of a text with words are its windows, one per step. *)
Lemma chunk_text_windows (text : str) (chunk_size overlap : Z) :
  0 <= overlap < chunk_size ->
  let words := Py.split U text in
  let step := chunk_size - overlap in
  let count := Py.range_len 0 (Z.of_nat (length words)) step in
  exists chunks,
    _chunk_text U text chunk_size overlap = Ok chunks /\
    ((words = [] /\ chunks = [text]) \/
     (words <> [] /\
      chunks = (fun k => ChunkFacts.chunk_at words chunk_size (Z.of_nat k * step))
               <$> seq 0 count)).
Proof.
  intros H words step count.
  pose proof (ChunkFacts.chunk_text_eq U text chunk_size overlap H) as Heq.
  fold words step count in Heq. rewrite <- list_fmap_compose in Heq.
  eexists. split; [exact Heq|].
  destruct (decide (words = [])) as [Hnil|Hne].
  - left. split; [exact Hnil|]. unfold count. rewrite Hnil. simpl.
    unfold Py.range_len. now destruct (0 <? step).
  - right. split; [exact Hne|].
    assert (Hc : (0 < count)%nat).
    { apply ChunkFacts.range_len_lt; [unfold step; lia | lia |].
      destruct words; [congruence | simpl; lia]. }
    destruct count as [|n]; [lia|]. reflexivity.
Qed.

(** X28.  For [chunk_size > overlap >= 0], [_chunk_text] cuts a text of [n]
    words into [max(1, ceil(n / (chunk_size - overlap)))] chunks, none of
    more than [chunk_size] words. *)
Theorem chunk_text_sizes (text : str) (chunk_size overlap : Z) :
  0 <= overlap < chunk_size ->
  let n := Z.of_nat (length (Py.split U text)) in
  let step := chunk_size - overlap in
  exists chunks,
    _chunk_text U text chunk_size overlap = Ok chunks /\
    Z.of_nat (length chunks) = Z.max 1 ((n + step - 1) / step) /\
    Forall (fun chunk => Z.of_nat (length (Py.split U chunk)) <= chunk_size)
           chunks.
Proof.
  intros H n step.
  destruct (chunk_text_windows text chunk_size overlap H)
    as (chunks & Hrun & Hshape).
  exists chunks. split; [exact Hrun|]. split.
  - rewrite (ChunkFacts.chunks_length U text chunk_size overlap H chunks Hrun).
    fold n step. unfold Py.range_len.
    assert (Hstep : 0 < step) by (unfold step; lia).
    destruct (Z.ltb_spec 0 step); [|lia].
    destruct (Z.ltb_spec 0 n) as [Hn|Hn].
    + replace (n + step - 1) with (n - 1 + 1 * step) by lia.
      rewrite Z.div_add by lia.
      replace (n - 0 - 1) with (n - 1) by lia.
      pose proof (Z.div_pos (n - 1) step). lia.
    + assert (n = 0) by (unfold n in *; lia).
      replace (n + step - 1) with (step - 1) by lia.
      rewrite Z.div_small by lia. lia.
  - destruct Hshape as [[Hnil ->] | [_ ->]].
    + constructor; [|constructor]. rewrite Hnil. simpl. lia.
    + apply Forall_fmap, Forall_forall. intros k _. simpl.
      rewrite split_chunk_at; [|apply PyFacts.split_words|unfold step; nia|lia].
      rewrite length_take. lia.
Qed.

(** X29.  For [chunk_size > overlap >= 0], consecutive chunks overlap by
    [overlap] words: what is left of a chunk's words after the first
    [chunk_size - overlap] is what the next chunk starts with. *)
Theorem chunk_text_consecutive_overlap (text : str)
    (chunk_size overlap : Z) (chunks : list str) (k : nat)
    (c1 c2 : str) :
  0 <= overlap < chunk_size ->
  _chunk_text U text chunk_size overlap = Ok chunks ->
  chunks !! k = Some c1 -> chunks !! S k = Some c2 ->
  drop (Z.to_nat (chunk_size - overlap)) (Py.split U c1)
  = take (Z.to_nat overlap) (Py.split U c2).
Proof.
  intros H Hrun H1 H2.
  destruct (chunk_text_windows text chunk_size overlap H)
    as (chunks' & Hrun' & Hshape).
  rewrite Hrun in Hrun'. injection Hrun' as <-.
  destruct Hshape as [[_ ->] | [_ ->]]; [discriminate|].
  apply list_lookup_fmap_Some in H1 as (k1 & -> & Hk1).
  apply list_lookup_fmap_Some in H2 as (k2 & -> & Hk2).
  apply lookup_seq in Hk1 as [-> _]. apply lookup_seq in Hk2 as [-> _].
  simpl.
  set (step := chunk_size - overlap).
  rewrite !split_chunk_at;
    [|apply PyFacts.split_words|unfold step; nia|lia
     |apply PyFacts.split_words|unfold step; nia|lia].
  rewrite skipn_firstn_comm, drop_drop, take_take.
  replace (Z.to_nat chunk_size - Z.to_nat step)%nat with (Z.to_nat overlap)
    by (unfold step; lia).
  replace (Z.to_nat overlap `min` Z.to_nat chunk_size)%nat
    with (Z.to_nat overlap) by lia.
  f_equal. f_equal. unfold step. nia.
Qed.


End Engine.

(** *** The theorems on the engine of two documents *)

Lemma two_documents_derived : derived Plain.unicode QueryFacts.two_documents.
Proof.
  apply (derived_ingest Plain.unicode
           (QueryFacts.ingest __init__ "alpha beta" "a.txt"
              "0b0e7a5c-51f4-4c58-9d0a-3f1f6c1d2a01")
           QueryFacts.two_documents "alpha gamma" "b.txt" None
           "6f9619ff-8b86-4d01-b42d-00cf4fc964ff" "2024-01-01T00:00:00+00:00").
  - apply (derived_ingest Plain.unicode __init__ _ "alpha beta" "a.txt" None
             "0b0e7a5c-51f4-4c58-9d0a-3f1f6c1d2a01" "2024-01-01T00:00:00+00:00");
      [apply derived_init | reflexivity | vm_compute; reflexivity].
  - vm_compute. reflexivity.
  - vm_compute. reflexivity.
Qed.

Lemma retrieve_relevant_top_k_witness :
  0 <= 1 /\
  let s := score Plain.unicode (word_set Plain.unicode "alpha") in
  let found := _retrieve_relevant Plain.unicode QueryFacts.two_documents "alpha" 1 in
  length found
  = Nat.min (Z.to_nat 1)
      (length (filter (fun c => 0 < s c)%Q (_chunks QueryFacts.two_documents))) /\
  StronglySorted (fun a b => s b <= s a)%Q found /\
  exists rest,
    _chunks QueryFacts.two_documents ≡ₚ found ++ rest /\
    forall a b, a ∈ found -> b ∈ rest -> (s b <= s a)%Q.
Proof.
  assert (H : 0 <= 1) by lia.
  split; [exact H|].
  exact (retrieve_relevant_top_k Plain.unicode QueryFacts.two_documents "alpha" 1 H).
Defined.

Lemma two_documents_no_delta (c : Chunk) :
  c ∈ _chunks QueryFacts.two_documents ->
  word_set Plain.unicode "delta" ∩ word_set Plain.unicode (content c) = ∅.
Proof.
  intros Hc. apply list_elem_of_In in Hc.
  destruct Hc as [<-|[<-|[]]]; vm_compute; reflexivity.
Qed.

Lemma query_nothing_relevant_witness :
  (3 = 0 \/
   (forall c, c ∈ _chunks QueryFacts.two_documents ->
              word_set Plain.unicode "delta" ∩ word_set Plain.unicode (content c) = ∅)) /\
  query Plain.unicode Orders.insertion_order QueryFacts.echo QueryFacts.two_documents
    "delta" None 3
  = {| answer := no_documents; sources := [] |}.
Proof.
  assert (H : 3 = 0 \/
              (forall c, c ∈ _chunks QueryFacts.two_documents ->
                         word_set Plain.unicode "delta" ∩ word_set Plain.unicode (content c) = ∅))
    by (right; exact two_documents_no_delta).
  split; [exact H|].
  exact (query_nothing_relevant Plain.unicode Orders.insertion_order QueryFacts.echo
           QueryFacts.two_documents "delta" None 3 H).
Defined.

Lemma ingest_then_retrieve_witness :
  _chunk_text Plain.unicode "Alpha BETA" 500 50 = Ok ["Alpha BETA"] /\
  ["Alpha BETA"] !! 0%nat = Some "Alpha BETA" /\
  "beta" ∈ word_set Plain.unicode "Alpha BETA" /\
  "beta" ∈ word_set Plain.unicode "which beta" /\
  1 <= 3 /\
  exists e',
    ingest_document Plain.unicode QueryFacts.two_documents "Alpha BETA" "c.txt"
      None "7c9e6679-7425-40de-944b-e07fc1f90ae7" "2024-01-02T00:00:00+00:00"
    = Ok ("7c9e6679-7425-40de-944b-e07fc1f90ae7", e') /\
    _retrieve_relevant Plain.unicode e' "which beta" 3 <> [] /\
    (Z.of_nat (length (_chunks e')) <= 3 ->
     {| doc_id := "7c9e6679-7425-40de-944b-e07fc1f90ae7";
        chunk_index := Z.of_nat 0; content := "Alpha BETA";
        source := "c.txt" |}
     ∈ _retrieve_relevant Plain.unicode e' "which beta" 3).
Proof.
  assert (H0 : _chunk_text Plain.unicode "Alpha BETA" 500 50
               = Ok ["Alpha BETA"]) by (vm_compute; reflexivity).
  assert (Hi : ["Alpha BETA"] !! 0%nat = Some "Alpha BETA") by reflexivity.
  assert (H1 : "beta" ∈ word_set Plain.unicode "Alpha BETA")
    by (refine (bool_decide_unpack _ _); vm_compute; exact I).
  assert (H2 : "beta" ∈ word_set Plain.unicode "which beta")
    by (refine (bool_decide_unpack _ _); vm_compute; exact I).
  assert (H3 : 1 <= 3) by lia.
  split; [exact H0|]. split; [exact Hi|]. split; [exact H1|].
  split; [exact H2|]. split; [exact H3|].
  exact (ingest_then_retrieve Plain.unicode QueryFacts.two_documents
           "Alpha BETA" "c.txt" "which beta" "beta" None
           "7c9e6679-7425-40de-944b-e07fc1f90ae7" "2024-01-02T00:00:00+00:00" 3
           ["Alpha BETA"] 0 "Alpha BETA" H0 Hi H1 H2 H3).
Defined.

Definition a_txt : Document :=
  {| doc_source := "a.txt"; doc_metadata := ∅;
     doc_created_at := "2024-01-01T00:00:00+00:00"; doc_chunk_count := 1 |}.

Lemma two_documents_a_txt :
  _documents QueryFacts.two_documents !! "0b0e7a5c-51f4-4c58-9d0a-3f1f6c1d2a01"
  = Some a_txt.
Proof. vm_compute. reflexivity. Qed.

Lemma derived_well_formed_witness :
  derived Plain.unicode QueryFacts.two_documents /\
  (forall c, c ∈ _chunks QueryFacts.two_documents ->
     is_Some (_documents QueryFacts.two_documents !! doc_id c)) /\
  (_documents QueryFacts.two_documents !! "0b0e7a5c-51f4-4c58-9d0a-3f1f6c1d2a01"
   = Some a_txt ->
   1 <= doc_chunk_count a_txt /\
   Z.of_nat (length (chunks_of QueryFacts.two_documents
                       "0b0e7a5c-51f4-4c58-9d0a-3f1f6c1d2a01"))
   = doc_chunk_count a_txt /\
   chunk_index <$> chunks_of QueryFacts.two_documents
                     "0b0e7a5c-51f4-4c58-9d0a-3f1f6c1d2a01"
   = Z.of_nat <$> seq 0 (Z.to_nat (doc_chunk_count a_txt)) /\
   Forall (fun c => source c = doc_source a_txt)
     (chunks_of QueryFacts.two_documents "0b0e7a5c-51f4-4c58-9d0a-3f1f6c1d2a01")).
Proof.
  split; [exact two_documents_derived|].
  exact (derived_well_formed Plain.unicode QueryFacts.two_documents
           "0b0e7a5c-51f4-4c58-9d0a-3f1f6c1d2a01" a_txt two_documents_derived).
Defined.

Lemma two_documents_fresh :
  _documents QueryFacts.two_documents !! "7c9e6679-7425-40de-944b-e07fc1f90ae7"
  = None.
Proof. vm_compute. reflexivity. Qed.

Lemma ingest_then_delete_witness :
  well_formed QueryFacts.two_documents /\
  _documents QueryFacts.two_documents !! "7c9e6679-7425-40de-944b-e07fc1f90ae7"
  = None /\
  exists e',
    ingest_document Plain.unicode QueryFacts.two_documents "gamma delta" "c.txt" None
      "7c9e6679-7425-40de-944b-e07fc1f90ae7" "2024-01-02T00:00:00+00:00"
    = Ok ("7c9e6679-7425-40de-944b-e07fc1f90ae7", e') /\
    delete_document e' "7c9e6679-7425-40de-944b-e07fc1f90ae7"
    = (true, QueryFacts.two_documents) /\
    delete_document QueryFacts.two_documents
      "7c9e6679-7425-40de-944b-e07fc1f90ae7"
    = (false, QueryFacts.two_documents).
Proof.
  pose proof (derived_invariant Plain.unicode _ two_documents_derived) as Hwf.
  split; [exact Hwf|]. split; [exact two_documents_fresh|].
  exact (ingest_then_delete Plain.unicode QueryFacts.two_documents "gamma delta" "c.txt" None
           "7c9e6679-7425-40de-944b-e07fc1f90ae7" "2024-01-02T00:00:00+00:00"
           Hwf two_documents_fresh).
Defined.

Lemma delete_document_removes_witness :
  well_formed QueryFacts.two_documents /\
  _documents QueryFacts.two_documents !! "0b0e7a5c-51f4-4c58-9d0a-3f1f6c1d2a01"
  = Some a_txt /\
  let d := "0b0e7a5c-51f4-4c58-9d0a-3f1f6c1d2a01" in
  let r := delete_document QueryFacts.two_documents d in
  r.1 = true /\
  _documents r.2 !! d = None /\
  Z.of_nat (length (_chunks QueryFacts.two_documents))
  = Z.of_nat (length (_chunks r.2)) + doc_chunk_count a_txt /\
  (forall question top_k c,
     c ∈ _retrieve_relevant Plain.unicode r.2 question top_k -> doc_id c <> d) /\
  (forall d', d' <> d ->
     _documents r.2 !! d' = _documents QueryFacts.two_documents !! d' /\
     chunks_of r.2 d' = chunks_of QueryFacts.two_documents d').
Proof.
  pose proof (derived_invariant Plain.unicode _ two_documents_derived) as Hwf.
  split; [exact Hwf|]. split; [exact two_documents_a_txt|].
  exact (delete_document_removes Plain.unicode QueryFacts.two_documents
           "0b0e7a5c-51f4-4c58-9d0a-3f1f6c1d2a01" a_txt Hwf two_documents_a_txt).
Defined.

Lemma ingest_blank_document_witness :
  Py.split Plain.unicode "  " = [] /\
  let c := {| doc_id := "7c9e6679-7425-40de-944b-e07fc1f90ae7";
              chunk_index := 0; content := "  "; source := "c.txt" |} in
  ingest_document Plain.unicode QueryFacts.two_documents "  " "c.txt" None
    "7c9e6679-7425-40de-944b-e07fc1f90ae7" "2024-01-02T00:00:00+00:00"
  = Ok ("7c9e6679-7425-40de-944b-e07fc1f90ae7",
        {| _documents :=
             <["7c9e6679-7425-40de-944b-e07fc1f90ae7" :=
                 {| doc_source := "c.txt"; doc_metadata := or_dict None;
                    doc_created_at := "2024-01-02T00:00:00+00:00";
                    doc_chunk_count := 1 |}]>
               (_documents QueryFacts.two_documents);
           _chunks := _chunks QueryFacts.two_documents ++ [c] |}) /\
  forall question, ~ (0 < score Plain.unicode (word_set Plain.unicode question) c)%Q.
Proof.
  assert (H : Py.split Plain.unicode "  " = []) by reflexivity.
  split; [exact H|].
  exact (ingest_blank_document Plain.unicode QueryFacts.two_documents "  " "c.txt" None
           "7c9e6679-7425-40de-944b-e07fc1f90ae7" "2024-01-02T00:00:00+00:00" H).
Defined.

Lemma chunk_text_sizes_witness :
  0 <= 1 < 3 /\
  let n := Z.of_nat (length (Py.split Plain.unicode "a b c d e")) in
  let step := 3 - 1 in
  exists chunks,
    _chunk_text Plain.unicode "a b c d e" 3 1 = Ok chunks /\
    Z.of_nat (length chunks) = Z.max 1 ((n + step - 1) / step) /\
    Forall (fun chunk => Z.of_nat (length (Py.split Plain.unicode chunk)) <= 3) chunks.
Proof.
  assert (H : 0 <= 1 < 3) by lia.
  split; [exact H|]. exact (chunk_text_sizes Plain.unicode "a b c d e" 3 1 H).
Defined.

Lemma chunk_text_consecutive_overlap_witness :
  0 <= 1 < 3 /\
  _chunk_text Plain.unicode "a b c d e" 3 1 = Ok ["a b c"; "c d e"; "e"] /\
  ["a b c"; "c d e"; "e"] !! 0%nat = Some "a b c" /\
  ["a b c"; "c d e"; "e"] !! 1%nat = Some "c d e" /\
  drop (Z.to_nat (3 - 1)) (Py.split Plain.unicode "a b c") = take (Z.to_nat 1) (Py.split Plain.unicode "c d e").
Proof.
  assert (H : 0 <= 1 < 3) by lia.
  assert (Hrun : _chunk_text Plain.unicode "a b c d e" 3 1 = Ok ["a b c"; "c d e"; "e"])
    by reflexivity.
  assert (H1 : ["a b c"; "c d e"; "e"] !! 0%nat = Some "a b c") by reflexivity.
  assert (H2 : ["a b c"; "c d e"; "e"] !! 1%nat = Some "c d e") by reflexivity.
  split; [exact H|]. split; [exact Hrun|]. split; [exact H1|]. split; [exact H2|].
  exact (chunk_text_consecutive_overlap Plain.unicode "a b c d e" 3 1 ["a b c"; "c d e"; "e"]
           0 "a b c" "c d e" H Hrun H1 H2).
Defined.

End EngineFacts.

(** ** app/core/agent.py: the agent's use of the memory *)

Module Agent.

Import Memory.

(** What a handler call comes to: an exception, with its [str(e)], or the
    dictionary it returns, of which [process] reads the keys ["response"]
    (by subscript) and ["tokens_used"] (by [get]). *)
Record Response := {
  r_response : option str;
  r_tokens_used : option Z
}.

Inductive Outcome :=
  | Raised (e : str)
  | Returned (r : Response).

(** The dictionary [process] returns. *)
Record Reply := {
  reply_response : str;
  reply_session_id : str;
  reply_message_id : str;
  reply_tokens_used : option Z;
  reply_module : str
}.

Definition error_response : str :=
  "I encountered an error processing your request. Please try again.".

Section Agent.

(** The interpreter's Unicode, the settings and the clock's format, as for
    the memory; the four handlers, each as the outcome of its call on a
    message and a context; and the text the model keeps for the value of
    ["tokens_used"] in a message's metadata, whose values are kept as text. *)
Variable U : Py.Unicode.
Variable settings : Settings.
Variable isoformat : Z -> str.
Variables _handle_developer _handle_trading _handle_research _handle_general
  : str -> str -> Outcome.
Variable tokens_text : option Z -> str.

(** The handler [process] routes a module name to. *)
Definition route (module : str) : str -> str -> Outcome :=
  if decide (module = "developer") then _handle_developer
  else if decide (module = "trading") then _handle_trading
  else if decide (module = "research") then _handle_research
  else _handle_general.

(** The session [process] works on, from its first statement: a new one
    under a fresh id when no id is given, a new one under the id given when
    that id is unknown, the known one otherwise. *)
Definition session_for (memory : ConversationMemory)
    (session_id : option str) (env_session : Env)
  : str * ConversationMemory :=
  match session_id with
  | None | Some [] =>
      create_session isoformat memory None env_session
  | Some sid =>
      match _sessions memory !! sid with
      | None => create_session isoformat memory (Some sid) env_session
      | Some _ => (sid, memory)
      end
  end.

(** [Agent.process] on the agent's memory.  The three environments are those
    of the calls it makes to the memory: [create_session] and the two
    [add_message].  A handler's exception is caught; a returned dictionary
    without ["response"] raises [KeyError] after the user's message has been
    stored. *)
Definition process (memory : ConversationMemory) (message : str)
    (session_id : option str) (module : str)
    (env_session env_user env_assistant : Env)
  : result Reply * ConversationMemory :=
  let '(session_id, memory) := session_for memory session_id env_session in
  let '(message_id, memory) :=
    add_message isoformat memory session_id "user" message
      (Some {[ "module" := module ]}) env_user in
  let context := get_context U settings isoformat memory session_id None in
  let response :=
    match route module message context with
    | Returned r => r
    | Raised e => {| r_response := Some error_response; r_tokens_used := None |}
    end in
  match r_response response with
  | None => (Raise KeyError, memory)
  | Some text =>
      let '(_, memory) :=
        add_message isoformat memory session_id "assistant" text
          (Some (<["module" := module]>
                   {[ "tokens_used" := tokens_text (r_tokens_used response) ]}))
          env_assistant in
      (Ok {| reply_response := text;
             reply_session_id := session_id;
             reply_message_id := message_id;
             reply_tokens_used := r_tokens_used response;
             reply_module := module |},
       memory)
  end.

End Agent.

End Agent.

Module AgentFacts.

Import Memory MemoryFacts Agent.

(** The messages [process] finds in its session: those of a session given
    and known, none in a session it creates. *)
Definition held (m : ConversationMemory) (session_id : option str)
  : list Message :=
  match session_id with
  | None | Some [] => []
  | Some sid => default [] (_sessions m !! sid)
  end.

Definition user_metadata (module : str) : option (gmap str str) :=
  Some {[ "module" := module ]}.

Definition assistant_metadata (module tokens : str)
  : option (gmap str str) :=
  Some (<["module" := module]> {[ "tokens_used" := tokens ]}).

(** What a handler's outcome gives [process] to answer with. *)
Definition answer_of (o : Outcome) : Response :=
  match o with
  | Returned r => r
  | Raised e => {| r_response := Some error_response; r_tokens_used := None |}
  end.

Lemma add_message_frame (isoformat : Z -> str) (m : ConversationMemory)
    (session_id role content : str)
    (metadata : option (gmap str str)) (env : Env) (other : str) :
  is_Some (_sessions m !! session_id) -> other <> session_id ->
  _sessions (add_message isoformat m session_id role content metadata env).2
    !! other
  = _sessions m !! other.
Proof.
  intros [old Hold] Hother. unfold add_message. rewrite Hold.
  cbn [snd _sessions]. now rewrite lookup_insert_ne by congruence.
Qed.

Lemma add_message_id (isoformat : Z -> str) (m : ConversationMemory)
    (session_id role content : str)
    (metadata : option (gmap str str)) (env : Env) :
  (add_message isoformat m session_id role content metadata env).1
  = take 16 (tok_message env).
Proof. reflexivity. Qed.

Section Process.

Variable U : Py.Unicode.
Variable settings : Settings.
Variable isoformat : Z -> str.
Variables _handle_developer _handle_trading _handle_research _handle_general
  : str -> str -> Outcome.
Variable tokens_text : option Z -> str.

Lemma session_for_spec (m : ConversationMemory) (session_id : option str)
    (env : Env) :
  tok_session env <> [] ->
  let r := session_for isoformat m session_id env in
  r.1 = or_str session_id (tok_session env) /\
  max_history r.2 = max_history m /\
  _sessions r.2 !! r.1 = Some (held m session_id) /\
  forall other, other <> r.1 -> _sessions r.2 !! other = _sessions m !! other.
Proof.
  intros Htok. unfold session_for, held.
  destruct session_id as [[|a sid]|].
  - cbn [create_session fst snd or_str max_history _sessions].
    rewrite lookup_insert_eq. repeat split.
    intros other Ho. now rewrite lookup_insert_ne by congruence.
  - destruct (_sessions m !! (a :: sid)) as [old|] eqn:E.
    + cbn [fst snd or_str]. rewrite E. repeat split.
    + cbn [create_session fst snd or_str max_history _sessions].
      rewrite lookup_insert_eq. repeat split.
      intros other Ho. now rewrite lookup_insert_ne by congruence.
  - cbn [create_session fst snd or_str max_history _sessions].
    rewrite lookup_insert_eq. repeat split.
    intros other Ho. now rewrite lookup_insert_ne by congruence.
Qed.

(** X30.  [Agent.process] on a memory whose bound is positive, where
    session tokens are not empty.  It works on the session given, or on a new
    one under the fresh token when none is given.  It stores the user's
    message, hands the handler of the module the message and the context of
    the session read after that, and catches what the handler raises, answering
    with the fixed apology then.  It returns the answer with the session id
    and the id of the user's message, and the session ends with the user's
    message and the answer, within the last [max_history] messages.  When the
    handler's dictionary has no ["response"], [KeyError] escapes with only the
    user's message stored.  No other session changes. *)
Theorem process_records_exchange (m : ConversationMemory) (message : str)
    (session_id : option str) (module : str)
    (env_session env_user env_assistant : Env) :
  0 < max_history m -> tok_session env_session <> [] ->
  let process :=
    process U settings isoformat _handle_developer _handle_trading
      _handle_research _handle_general tokens_text in
  let route :=
    route _handle_developer _handle_trading _handle_research _handle_general in
  let sid := or_str session_id (tok_session env_session) in
  let user := new_message "user" message None (user_metadata module) env_user in
  let m1 := (session_for isoformat m session_id env_session).2 in
  let m2 := (add_message isoformat m1 sid "user" message (user_metadata module)
               env_user).2 in
  let context := get_context U settings isoformat m2 sid None in
  let reply := answer_of (route module message context) in
  let r := process m message session_id module env_session env_user
             env_assistant in
  (forall other, other <> sid ->
     get_history isoformat r.2 other None = get_history isoformat m other None) /\
  match r_response reply with
  | Some text =>
      r.1 = Ok {| reply_response := text;
                  reply_session_id := sid;
                  reply_message_id := take 16 (tok_message env_user);
                  reply_tokens_used := r_tokens_used reply;
                  reply_module := module |} /\
      _sessions r.2 !! sid
      = Some (last_n (Z.to_nat (max_history m))
                (held m session_id
                 ++ [user;
                     new_message "assistant" text None
                       (assistant_metadata module
                          (tokens_text (r_tokens_used reply)))
                       env_assistant]))
  | None =>
      r.1 = Raise KeyError /\
      _sessions r.2 !! sid
      = Some (last_n (Z.to_nat (max_history m)) (held m session_id ++ [user]))
  end.
Proof.
  intros Hmax Htok process0 route0 sid user m1 m2 context reply r.
  destruct (session_for_spec m session_id env_session Htok)
    as (Hsid & Hmax1 & Hheld & Hframe).
  fold sid in Hsid. fold m1 in Hmax1, Hheld, Hframe. rewrite Hsid in Hheld, Hframe.
  destruct (add_message_session isoformat m1 sid "user" message
              (user_metadata module) env_user) as [Hmax2 Hses2].
  fold m2 in Hmax2, Hses2. rewrite Hheld in Hses2. simpl default in Hses2.
  fold user in Hses2.
  rewrite Hmax1, trim_last_n in Hses2 by exact Hmax.
  assert (Hframe2 : forall other, other <> sid ->
            _sessions m2 !! other = _sessions m !! other).
  { intros other Ho. unfold m2.
    rewrite add_message_frame by (rewrite ?Hheld; eauto).
    now apply Hframe. }
  assert (Hrun : r = match r_response reply with
                     | None => (Raise KeyError, m2)
                     | Some text =>
                         (Ok {| reply_response := text;
                                reply_session_id := sid;
                                reply_message_id :=
                                  take 16 (tok_message env_user);
                                reply_tokens_used := r_tokens_used reply;
                                reply_module := module |},
                          (add_message isoformat m2 sid "assistant" text
                             (assistant_metadata module
                                (tokens_text (r_tokens_used reply)))
                             env_assistant).2)
                     end).
  { unfold r, process0, process.
    destruct (session_for isoformat m session_id env_session) as [sid' m1']
      eqn:E.
    cbn [fst snd] in *. subst sid'. subst m1.
    unfold reply, context, m2, answer_of, route0.
    pose proof (add_message_id isoformat m1' sid "user" message
                  (user_metadata module) env_user) as Hid.
    fold (user_metadata module).
    destruct (add_message isoformat m1' sid "user" message
                (user_metadata module) env_user) as [mid m2'].
    cbn [fst snd] in *. subst mid.
    destruct (route _ _ _ _ module message _) as [e|resp]; cbn [r_response].
    - fold (assistant_metadata module (tokens_text None)).
      now destruct (add_message isoformat m2' sid "assistant" error_response _ _).
    - destruct (r_response resp) as [text|]; [|reflexivity].
      fold (assistant_metadata module (tokens_text (r_tokens_used resp))).
      now destruct (add_message isoformat m2' sid "assistant" text _ _). }
  rewrite Hrun. destruct (r_response reply) as [text|]; cbn [fst snd].
  - split; [|split; [reflexivity|]].
    + intros other Ho. unfold get_history.
      rewrite add_message_frame by (rewrite ?Hses2; eauto).
      now rewrite Hframe2.
    + destruct (add_message_session isoformat m2 sid "assistant" text
                  (assistant_metadata module (tokens_text (r_tokens_used reply)))
                  env_assistant) as [_ Hses3].
      rewrite Hses3, Hses2, Hmax2, Hmax1. simpl default.
      rewrite trim_last_n by exact Hmax.
      rewrite last_n_app, <- app_assoc. reflexivity.
  - split; [|split; [reflexivity | exact Hses2]].
    intros other Ho. unfold get_history. now rewrite Hframe2.
Qed.

End Process.

(** *** A run of the theorem *)

Definition answering (message context : str) : Outcome :=
  Returned {| r_response := Some "At your service.";
              r_tokens_used := Some 4 |}.

Definition failing (message context : str) : Outcome :=
  Raised "connection refused".

Definition tokens_as_text (tokens : option Z) : str :=
  match tokens with
  | Some _ => "4"
  | None => "None"
  end.

Lemma process_records_exchange_witness :
  0 < max_history Sessions.a_memory /\
  tok_session env0 <> [] /\
  let process :=
    process Plain.unicode default_settings epoch_iso failing failing failing answering
      tokens_as_text in
  let route := route failing failing failing answering in
  let sid := or_str (Some "s1") (tok_session env0) in
  let user := new_message "user" "hello" None (user_metadata "general") env0 in
  let m1 := (session_for epoch_iso Sessions.a_memory (Some "s1") env0).2 in
  let m2 := (add_message epoch_iso m1 sid "user" "hello"
               (user_metadata "general") env0).2 in
  let context := get_context Plain.unicode default_settings epoch_iso m2 sid None in
  let reply := answer_of (route "general" "hello" context) in
  let r := process Sessions.a_memory "hello" (Some "s1") "general" env0 env0
             env0 in
  (forall other, other <> sid ->
     get_history epoch_iso r.2 other None
     = get_history epoch_iso Sessions.a_memory other None) /\
  match r_response reply with
  | Some text =>
      r.1 = Ok {| reply_response := text;
                  reply_session_id := sid;
                  reply_message_id := take 16 (tok_message env0);
                  reply_tokens_used := r_tokens_used reply;
                  reply_module := "general" |} /\
      _sessions r.2 !! sid
      = Some (last_n (Z.to_nat (max_history Sessions.a_memory))
                (held Sessions.a_memory (Some "s1")
                 ++ [user;
                     new_message "assistant" text None
                       (assistant_metadata "general"
                          (tokens_as_text (r_tokens_used reply)))
                       env0]))
  | None =>
      r.1 = Raise KeyError /\
      _sessions r.2 !! sid
      = Some (last_n (Z.to_nat (max_history Sessions.a_memory))
                (held Sessions.a_memory (Some "s1") ++ [user]))
  end.
Proof.
  assert (H1 : 0 < max_history Sessions.a_memory) by (vm_compute; reflexivity).
  assert (H2 : tok_session env0 <> []) by discriminate.
  split; [exact H1|]. split; [exact H2|].
  exact (process_records_exchange Plain.unicode default_settings epoch_iso failing failing
           failing answering tokens_as_text Sessions.a_memory "hello"
           (Some "s1") "general" env0 env0 env0 H1 H2).
Defined.

End AgentFacts.

(** ** app/security.py: [sanitize_input], through which the routes pass
    every message, question and document *)

Module Security.

Section Security.

(** [isspace] is [str.isspace] on one code point, which decides what
    [strip] removes. *)
Variable isspace : N -> bool.

(** The class [[\x00-\x08\x0b\x0c\x0e-\x1f\x7f-\x9f]] *)
Definition control (c : N) : bool :=
  ((c <=? 8) || (c =? 11) || (c =? 12) || ((14 <=? c) && (c <=? 31))
   || ((127 <=? c) && (c <=? 159)))%N.

(** [s.lstrip()], [s.rstrip()], [s.strip()] *)
Fixpoint lstrip (s : list N) : list N :=
  match s with
  | [] => []
  | c :: s' => if isspace c then lstrip s' else s
  end.

Definition rstrip (s : list N) : list N := reverse (lstrip (reverse s)).

Definition strip (s : list N) : list N := rstrip (lstrip s).

Definition sanitize_input (text : list N) : list N :=
  match text with
  | [] => []
  | _ =>
      let text := filter (fun c => c <> 0%N) text in
      let max_length := 10000 in
      let text :=
        if max_length <? Z.of_nat (length text)
        then Py.slice_to text max_length
        else text in
      let text := filter (fun c => control c = false) text in
      strip text
  end.

End Security.

End Security.

Module SecurityFacts.

Import Security.

Section Strip.

Variable isspace : N -> bool.

Lemma lstrip_suffix (s : list N) : lstrip isspace s `suffix_of` s.
Proof.
  induction s as [|c s IH]; [reflexivity|]. simpl.
  destruct (isspace c); [|reflexivity].
  now apply suffix_cons_r.
Qed.

Lemma lstrip_head (s : list N) (c : N) :
  head (lstrip isspace s) = Some c -> isspace c = false.
Proof.
  induction s as [|x s IH]; [discriminate|]. simpl.
  destruct (isspace x) eqn:E; [exact IH|]. now intros [= <-].
Qed.

Lemma lstrip_id (s : list N) :
  (forall c, head s = Some c -> isspace c = false) -> lstrip isspace s = s.
Proof.
  destruct s as [|x s]; [reflexivity|]. intros H. simpl.
  now rewrite (H x eq_refl).
Qed.

Lemma suffix_last (s t : list N) (c : N) :
  s `suffix_of` t -> last s = Some c -> last t = Some c.
Proof.
  intros [k ->] Hs. destruct s as [|x s] using rev_ind; [discriminate|].
  rewrite last_snoc in Hs. injection Hs as ->.
  now rewrite app_assoc, last_snoc.
Qed.

Lemma strip_sublist (s : list N) : strip isspace s `sublist_of` s.
Proof.
  unfold strip, rstrip.
  destruct (lstrip_suffix (reverse (lstrip isspace s))) as [k Hk].
  destruct (lstrip_suffix s) as [k' Hk'].
  transitivity (lstrip isspace s).
  - assert (Hr : lstrip isspace s
                 = reverse (lstrip isspace (reverse (lstrip isspace s)))
                   ++ reverse k)
      by (rewrite <- reverse_app, <- Hk; now rewrite reverse_involutive).
    rewrite Hr at 2. now apply sublist_inserts_r.
  - rewrite Hk' at 2. now apply sublist_inserts_l.
Qed.

(** What [strip] returns neither starts nor ends with white space. *)
Lemma strip_ends (s : list N) (c : N) :
  head (strip isspace s) = Some c \/ last (strip isspace s) = Some c ->
  isspace c = false.
Proof.
  unfold strip, rstrip. rewrite head_reverse, last_reverse.
  intros [H|H]; [|now apply lstrip_head in H].
  apply (suffix_last _ _ _ (lstrip_suffix _)) in H.
  rewrite last_reverse in H. now apply lstrip_head in H.
Qed.

Lemma strip_id (s : list N) :
  (forall c, head s = Some c \/ last s = Some c -> isspace c = false) ->
  strip isspace s = s.
Proof.
  intros H. unfold strip, rstrip.
  rewrite (lstrip_id s) by (intros c Hc; apply H; now left).
  rewrite lstrip_id; [apply reverse_involutive|].
  intros c Hc. rewrite head_reverse in Hc. apply H. now right.
Qed.

(** X11.  Whatever [str.isspace] holds of, [sanitize_input] returns at most
    10000 code points, taken from the input in their order; none of them is
    NUL or another control character of the class it removes, and the first
    and the last are not white space.  Sanitising what it returns changes
    nothing. *)
Theorem sanitize_input_clean (text : list N) :
  let out := sanitize_input isspace text in
  Z.of_nat (length out) <= 10000 /\
  out `sublist_of` text /\
  (forall c, c ∈ out -> control c = false) /\
  (forall c, head out = Some c \/ last out = Some c -> isspace c = false) /\
  sanitize_input isspace out = out.
Proof.
  intros out.
  set (t1 := filter (fun c => c <> 0%N) text).
  set (t2 := if 10000 <? Z.of_nat (length t1)
             then Py.slice_to t1 10000 else t1).
  set (t3 := filter (fun c => control c = false) t2).
  assert (Hout : out = strip isspace t3).
  { unfold out, sanitize_input. destruct text as [|c text]; reflexivity. }
  assert (Hlen2 : Z.of_nat (length t2) <= 10000).
  { unfold t2. destruct (Z.ltb_spec 10000 (Z.of_nat (length t1))); [|lia].
    apply SortFacts.slice_to_length. lia. }
  assert (Hsub2 : t2 `sublist_of` t1).
  { unfold t2. destruct (10000 <? Z.of_nat (length t1)); [|reflexivity].
    apply sublist_take. }
  assert (Hsub : out `sublist_of` t3) by (rewrite Hout; apply strip_sublist).
  assert (Hlen : Z.of_nat (length out) <= 10000).
  { pose proof (sublist_length _ _ Hsub).
    pose proof (length_filter (fun c => control c = false) t2).
    fold t3 in H0. lia. }
  assert (Hctl : forall c, c ∈ out -> control c = false).
  { intros c Hc. apply (elem_of_sublist _ _ _ Hc) in Hsub.
    now apply list_elem_of_filter in Hsub as [Hctl _]. }
  assert (Hends : forall c, head out = Some c \/ last out = Some c ->
                            isspace c = false)
    by (rewrite Hout; apply strip_ends).
  split; [exact Hlen|]. split; [|split; [exact Hctl|split; [exact Hends|]]].
  - etransitivity; [exact Hsub|]. etransitivity; [apply sublist_filter|].
    etransitivity; [exact Hsub2|]. apply sublist_filter.
  - unfold sanitize_input. destruct out as [|c0 out0] eqn:E; [reflexivity|].
    rewrite <- E in *. clear E c0 out0.
    rewrite (EngineFacts.filter_all (fun c => c <> 0%N)).
    2:{ apply Forall_forall. intros c Hc ->. now apply Hctl in Hc. }
    destruct (Z.ltb_spec 10000 (Z.of_nat (length out))); [lia|].
    rewrite (EngineFacts.filter_all (fun c => control c = false))
      by (apply Forall_forall; exact Hctl).
    now apply strip_id.
Qed.

End Strip.

(** *** The repository's test of [sanitize_input], on the model *)

Example test_sanitize_input :
  sanitize_input Plain.isspace "Hello world" = "Hello world" /\
  sanitize_input Plain.isspace ("Hello" ++ [0%N] ++ "world")
  = "Helloworld" /\
  sanitize_input Plain.isspace "  hello  " = "hello".
Proof. vm_compute. repeat split. Qed.

End SecurityFacts.
